(** * fitrkr-cli: bulk upload of catalogue data

    A shallow embedding of the Go sources of the terminal uploader:

    - [GoStrings]: the functions of Go's [strings] and [path/filepath]
      packages that the program calls;
    - [Csv]: the field-count rule of [encoding/csv];
    - [Parser]: the file parsers and the row mapper
      ([ParseCSV], [ParseJSON], [ParseYAML], [ParseExercisesCSV],
      [SplitAndTrim]);
    - [Repo]: the repository layer ([InsertNamesToDB], [GetTableCount],
      [InsertExercises], [GetOrInsert...]) written against the calls of
      [database/sql];
    - [Pg]: a small relational store answering these calls;
    - [Menu]: the Bubble Tea model and its [Update] function.

    Go strings are byte strings and are modelled by [string]; Go [int] is
    modelled by [Z]; a Go [error] by the text of its message. *)

From Stdlib Require Import ZArith Ascii String List Bool Lia.
From stdpp Require Import base option list sorting gmap strings pretty.

Import ListNotations.
Local Open Scope string_scope.
Local Open Scope Z_scope.
Local Open Scope list_scope.

(** ** Go values shared by all packages *)

Definition error := string.

Inductive result (A : Type) : Type :=
| Ok (a : A)
| Err (e : error).
Arguments Ok {A} a.
Arguments Err {A} e.

Definition is_ok {A} (r : result A) : bool :=
  match r with Ok _ => true | Err _ => false end.

(** ** Package [strings] and [path/filepath] *)

Module GoStrings.

(** The double quote character (code 34). *)
Definition quote : ascii := "034"%char.

(** [asciiSpace] of package [strings]: tab, line feed, vertical tab, form
    feed, carriage return and space. *)
Definition asciiSpace (c : ascii) : bool :=
  match N_of_ascii c with
  | 9 | 10 | 11 | 12 | 13 | 32 => true
  | _ => false
  end%N.

(** [unicode.IsSpace] beyond the ASCII range, on the UTF-8 encoding of the
    rune.  Two bytes: U+0085 (C2 85) and U+00A0 (C2 A0).  Three bytes:
    U+1680 (E1 9A 80), U+2000 to U+200A (E2 80 80 to E2 80 8A), U+2028 and
    U+2029 (E2 80 A8, E2 80 A9), U+202F (E2 80 AF), U+205F (E2 81 9F) and
    U+3000 (E3 80 80).  A rune is decoded from its shortest encoding only,
    so these byte sequences are the only ones that decode to white
    space; an invalid byte decodes to U+FFFD, which is not white space. *)
Definition space2 (a b : ascii) : bool :=
  (N_of_ascii a =? 194)%N
  && ((N_of_ascii b =? 133) || (N_of_ascii b =? 160))%N.

Definition space3 (a b c : ascii) : bool :=
  let a := N_of_ascii a in
  let b := N_of_ascii b in
  let c := N_of_ascii c in
  ((a =? 225) && (b =? 154) && (c =? 128)
   || (a =? 226) && (b =? 128)
      && ((128 <=? c) && (c <=? 138) || (c =? 168) || (c =? 169) || (c =? 175))
   || (a =? 226) && (b =? 129) && (c =? 159)
   || (a =? 227) && (b =? 128) && (c =? 128))%N.

(** The string is the encoding of one white-space rune. *)
Definition space_rune (r : string) : bool :=
  match r with
  | String a EmptyString => asciiSpace a
  | String a (String b EmptyString) => space2 a b
  | String a (String b (String c EmptyString)) => space3 a b c
  | _ => false
  end.

(** Drop the longest prefix (suffix) whose bytes satisfy [f]
    ([TrimLeftFunc], [TrimRightFunc]). *)
Fixpoint trim_left (f : ascii -> bool) (s : string) : string :=
  match s with
  | EmptyString => EmptyString
  | String c s' => if f c then trim_left f s' else s
  end.

Fixpoint trim_right (f : ascii -> bool) (s : string) : string :=
  match s with
  | EmptyString => EmptyString
  | String c s' =>
      match trim_right f s' with
      | EmptyString => if f c then EmptyString else String c EmptyString
      | t => String c t
      end
  end.

(** [TrimLeftFunc s unicode.IsSpace]: the runes are decoded from the
    left and dropped as long as they are white space. *)
Fixpoint trim_left_space (s : string) : string :=
  match s with
  | EmptyString => s
  | String a s1 =>
      if asciiSpace a then trim_left_space s1
      else
        match s1 with
        | EmptyString => s
        | String b s2 =>
            if space2 a b then trim_left_space s2
            else
              match s2 with
              | EmptyString => s
              | String c s3 => if space3 a b c then trim_left_space s3 else s
              end
        end
  end.

(** [TrimRightFunc s unicode.IsSpace]: the runes are decoded from the
    right ([utf8.DecodeLastRuneInString]) and dropped as long as they are
    white space.  The last rune of a string is white space exactly when
    the string ends with one of the encodings above, whatever precedes
    it; so once the tail [s1] has been trimmed, only the whole of what is
    left can still be one white-space rune. *)
Fixpoint trim_right_space (s : string) : string :=
  match s with
  | EmptyString => EmptyString
  | String a s1 =>
      let r := String a (trim_right_space s1) in
      if space_rune r then EmptyString else r
  end.

(** [strings.TrimSpace]: the leading and the trailing white space, as
    [unicode.IsSpace] defines it, is removed.  (The loops of the Go
    function over ASCII bytes are a fast path with the same result.) *)
Definition TrimSpace (s : string) : string :=
  trim_right_space (trim_left_space s).

Fixpoint contains_byte (cutset : string) (c : ascii) : bool :=
  match cutset with
  | EmptyString => false
  | String d cutset' => Ascii.eqb d c || contains_byte cutset' c
  end.

(** [strings.Trim s cutset]: all leading and trailing bytes that occur in
    [cutset] are removed. *)
Definition Trim (s cutset : string) : string :=
  trim_right (contains_byte cutset) (trim_left (contains_byte cutset) s).

(** [strings.Split s sep] for a non-empty separator: the pieces between
    the leftmost non-overlapping occurrences of [sep].  [skip] counts the
    bytes of a recognised separator that are still to be passed over;
    [cur] is the piece under construction. *)
Fixpoint split_loop (sep : string) (skip : nat) (cur s : string) : list string :=
  match s with
  | EmptyString => [cur]
  | String c s' =>
      match skip with
      | S k => split_loop sep k cur s'
      | O =>
          if String.prefix sep s
          then cur :: split_loop sep (Nat.pred (String.length sep)) EmptyString s'
          else split_loop sep O (cur +:+ String c EmptyString) s'
      end
  end.

(** With the empty separator Go explodes the string into its characters. *)
Fixpoint explode (s : string) : list string :=
  match s with
  | EmptyString => []
  | String c s' => String c EmptyString :: explode s'
  end.

Definition Split (s sep : string) : list string :=
  match sep with
  | EmptyString => explode s
  | _ => split_loop sep O EmptyString s
  end.

(** ASCII case mapping, as [strings.ToLower] and [strings.EqualFold] do it
    on the ASCII range. The words the program folds against ("None") have
    no letter with a non-ASCII case variant. *)
Definition lower (c : ascii) : ascii :=
  let n := N_of_ascii c in
  if ((65 <=? n) && (n <=? 90))%N then ascii_of_N (n + 32) else c.

Fixpoint ToLower (s : string) : string :=
  match s with
  | EmptyString => EmptyString
  | String c s' => String (lower c) (ToLower s')
  end.

Definition EqualFold (s t : string) : bool :=
  String.eqb (ToLower s) (ToLower t).

(** [filepath.Ext]: the suffix starting at the last dot of the last path
    element, empty when that element has no dot. [ext_scan] walks the
    path from the left and keeps the candidate found so far. *)
Fixpoint ext_scan (cand : string) (s : string) : string :=
  match s with
  | EmptyString => cand
  | String c s' =>
      if Ascii.eqb c "/"%char then ext_scan EmptyString s'
      else if Ascii.eqb c "."%char then ext_scan s s'
      else ext_scan cand s'
  end.

Definition Ext (path : string) : string := ext_scan EmptyString path.

End GoStrings.

(** ** The files the program reads

    The program reads its inputs through [os.ReadDir], [os.Open] followed by
    [csv.Reader.ReadAll], and [os.ReadFile] followed by [json.Unmarshal] or
    [yaml.Unmarshal].  What these library calls return for a path is the
    file system [FS]; an [Err] is the failure to open, read or decode.

    What [ReadCSV] returns for a file that opens is the result of
    [Csv.ReadAll] on the records of the file, see below. *)

(** A decoded JSON or YAML value of Go type [any]: the program only tests
    whether it is a string. *)
Inductive any : Type :=
| any_string (s : string)
| any_other.

Record DirEntry := { entry_name : string; entry_is_dir : bool }.

Record FS := {
  ReadDir : result (list DirEntry);
  ReadCSV : string -> result (list (list string));
  ReadJSON : string -> result (list (gmap string any));
  ReadYAML : string -> result (list (gmap string any))
}.

(** ** Package [encoding/csv]

    [Reader.ReadAll] as the program calls it, on a reader made by
    [csv.NewReader] and not configured further: [FieldsPerRecord] is zero
    at the start, so the number of fields of the first record becomes the
    number that every later record must have, and the first record with
    another number of fields ends the reading with [ErrFieldCount]; no
    record is returned then.  The argument is what the reader makes of the
    lines of the file: its records in order, each with the number of the
    line it starts on. *)

Module Csv.

Definition ErrFieldCount : error := "wrong number of fields".

(** [ParseError.Error] for [ErrFieldCount]. *)
Definition ParseError (line : nat) (err : error) : error :=
  "record on line " +:+ pretty line +:+ ": " +:+ err.

Fixpoint ReadAll_loop (FieldsPerRecord : nat) (lexed : list (nat * list string))
    (records : list (list string)) : result (list (list string)) :=
  match lexed with
  | [] => Ok records
  | (line, record) :: rest =>
      if (0 <? FieldsPerRecord)%nat
      then
        if Nat.eqb (length record) FieldsPerRecord
        then ReadAll_loop FieldsPerRecord rest (records ++ [record])
        else Err (ParseError line ErrFieldCount)
      else ReadAll_loop (length record) rest (records ++ [record])
  end.

Definition ReadAll (lexed : list (nat * list string))
    : result (list (list string)) :=
  ReadAll_loop 0 lexed [].

End Csv.

(** ** The parsers and the row mapper *)

Module Parser.
Import GoStrings.

(** The loop of [ParseCSV]: [i] is the index of the record at the head of
    [records], [names] the slice built so far. *)
Fixpoint ParseCSV_loop (i : nat) (records : list (list string))
    (names : list string) : list string :=
  match records with
  | [] => names
  | rec :: rest =>
      match rec with
      | [] => ParseCSV_loop (S i) rest names
      | rec0 :: _ =>
          if Nat.eqb i 0 && (String.eqb rec0 "name" || String.eqb rec0 "Name")
          then ParseCSV_loop (S i) rest names
          else ParseCSV_loop (S i) rest (names ++ [rec0])
      end
  end.

Definition ParseCSV (fs : FS) (path : string) : result (list string) :=
  match ReadCSV fs path with
  | Err e => Err e
  | Ok records => Ok (ParseCSV_loop 0 records [])
  end.

(** The loop shared by [ParseJSON] and [ParseYAML]:
    [if name, ok := obj["name"].(string); ok]. *)
Fixpoint names_loop (arr : list (gmap string any)) (names : list string)
    : list string :=
  match arr with
  | [] => names
  | obj :: rest =>
      match obj !! "name" with
      | Some (any_string name) => names_loop rest (names ++ [name])
      | _ => names_loop rest names
      end
  end.

Definition ParseJSON (fs : FS) (path : string) : result (list string) :=
  match ReadJSON fs path with
  | Err e => Err e
  | Ok arr => Ok (names_loop arr [])
  end.

Definition ParseYAML (fs : FS) (path : string) : result (list string) :=
  match ReadYAML fs path with
  | Err e => Err e
  | Ok arr => Ok (names_loop arr [])
  end.

Record ExerciseUploadRow := {
  Name : string;
  Description : string;
  Category : string;
  Equipment : list string;
  Types : list string;
  Muscles : list string
}.

(** The loop of [SplitAndTrim] over the parts. *)
Fixpoint SplitAndTrim_loop (parts out : list string) : list string :=
  match parts with
  | [] => out
  | p :: rest =>
      let p := TrimSpace (Trim p (String quote EmptyString)) in
      if negb (String.eqb p EmptyString)
      then SplitAndTrim_loop rest (out ++ [p])
      else SplitAndTrim_loop rest out
  end.

Definition SplitAndTrim (s sep : string) : list string :=
  SplitAndTrim_loop (Split s sep) [].

(** The loop of [ParseExercisesCSV].  The pattern with six leading cells
    is the test [len(rec) < 6] followed by the reads [rec[0]] ..
    [rec[5]]. *)
Fixpoint ParseExercisesCSV_loop (i : nat) (records : list (list string))
    (rows : list ExerciseUploadRow) : list ExerciseUploadRow :=
  match records with
  | [] => rows
  | rec :: rest =>
      if Nat.eqb i 0 then ParseExercisesCSV_loop (S i) rest rows
      else
        match rec with
        | r0 :: r1 :: r2 :: r3 :: r4 :: r5 :: _ =>
            let row := {| Name := TrimSpace r0;
                          Description := TrimSpace r1;
                          Category := TrimSpace r2;
                          Equipment := SplitAndTrim r3 ";";
                          Types := SplitAndTrim r4 ";";
                          Muscles := SplitAndTrim r5 ";" |} in
            ParseExercisesCSV_loop (S i) rest (rows ++ [row])
        | _ => ParseExercisesCSV_loop (S i) rest rows
        end
  end.

Definition ParseExercisesCSV (fs : FS) (path : string)
    : result (list ExerciseUploadRow) :=
  match ReadCSV fs path with
  | Err e => Err e
  | Ok records =>
      if (length records <? 1)%nat then Err "no records found"
      else Ok (ParseExercisesCSV_loop 0 records [])
  end.

End Parser.

(** ** The database as the program sees it ([database/sql])

    Every method the program invokes on [*sql.DB] or [*sql.Tx] is a [Call];
    the server answers a call with a value or an error and moves to a new
    state.  [QueryRow(...).Scan(&n)] with an integer destination is one call
    whose answer is the integer read.  The connection records the calls in
    the order they were made. *)

Inductive Arg : Type :=
| AStr (s : string)
| AInt (n : Z).

Inductive Call : Type :=
| DBExec (query : string) (args : list Arg)
| DBQueryRow (query : string) (args : list Arg)
| DBBegin
| TxExec (query : string) (args : list Arg)
| TxQueryRow (query : string) (args : list Arg)
| TxCommit
| TxRollback.

Class Server (St : Type) := serve : St -> Call -> result Z * St.

Record Conn (St : Type) := MkConn {
  server : St;
  calls : list Call
}.
Arguments MkConn {St} server calls.
Arguments server {St} c.
Arguments calls {St} c.

(** Programs that talk to the database: a state monad over the connection. *)
Definition DBM (St A : Type) : Type := Conn St -> A * Conn St.

Definition ret {St A} (a : A) : DBM St A := fun c => (a, c).

Definition bind {St A B} (m : DBM St A) (k : A -> DBM St B) : DBM St B :=
  fun c => let (a, c') := m c in k a c'.

Notation "x <- m ;; k" := (bind m (fun x => k))
  (at level 100, m at next level, right associativity).

Definition call {St : Type} `{!Server St} (q : Call) : DBM St (result Z) :=
  fun c => let (r, s') := serve (server c) q in
           (r, MkConn s' (calls c ++ [q])).

(** The answers of the server to a sequence of calls made one after the
    other, and the state it reaches. *)
Fixpoint serve_all {St : Type} `{!Server St} (s : St) (qs : list Call) : list (result Z) * St :=
  match qs with
  | [] => ([], s)
  | q :: qs' =>
      let (r, s') := serve s q in
      let (rs, s'') := serve_all s' qs' in
      (r :: rs, s'')
  end.

(** ** The repository layer: queries and uploads *)

Module Repo.
Import GoStrings Parser.

Definition InsertMuscleGroupQuery :=
  "INSERT INTO muscle_group (name) VALUES ($1) ON CONFLICT (name) DO NOTHING".
Definition InsertTrainingTypeQuery :=
  "INSERT INTO training_type (name) VALUES ($1) ON CONFLICT (name) DO NOTHING".
Definition InsertCategoryQuery :=
  "INSERT INTO exercise_category (name) VALUES ($1) ON CONFLICT (name) DO NOTHING".
Definition InsertEquipmentQuery :=
  "INSERT INTO equipment (name) VALUES ($1) ON CONFLICT (name) DO NOTHING".

(** The statements of [InsertExercises] and of the [GetOrInsert]
    functions.  The Go raw string literals spread them over several
    lines; the line breaks and indentation are written here as single
    spaces. *)
Definition UpsertExerciseQuery :=
  "INSERT INTO exercise (name, description, category_id) VALUES ($1, $2, $3) ON CONFLICT (name) DO UPDATE SET description=EXCLUDED.description RETURNING id".
Definition LinkEquipmentQuery :=
  "INSERT INTO exercise_equipment (exercise_id, equipment_id) VALUES ($1, $2) ON CONFLICT DO NOTHING".
Definition LinkTypeQuery :=
  "INSERT INTO exercise_training_types (exercise_id, training_type_id) VALUES ($1, $2) ON CONFLICT DO NOTHING".
Definition LinkMuscleQuery :=
  "INSERT INTO exercise_muscles (exercise_id, muscle_group_id) VALUES ($1, $2) ON CONFLICT DO NOTHING".
Definition GetOrInsertCategoryQuery :=
  "INSERT INTO exercise_category (name) VALUES ($1) ON CONFLICT (name) DO UPDATE SET name=EXCLUDED.name RETURNING id".
Definition GetOrInsertEquipmentQuery :=
  "INSERT INTO equipment (name) VALUES ($1) ON CONFLICT (name) DO UPDATE SET name=EXCLUDED.name RETURNING id".
Definition GetOrInsertTypeQuery :=
  "INSERT INTO training_type (name) VALUES ($1) ON CONFLICT (name) DO UPDATE SET name=EXCLUDED.name RETURNING id".
Definition GetOrInsertMuscleQuery :=
  "INSERT INTO muscle_group (name) VALUES ($1) ON CONFLICT (name) DO UPDATE SET name=EXCLUDED.name RETURNING id".

(** The statement that [GetTableCount] formats with [fmt.Sprintf]:
    SELECT COUNT( * ) FROM followed by the table name.  The asterisk is
    written by its character code. *)
Definition star : string := String "042"%char EmptyString.
Definition CountPrefix : string := "SELECT COUNT(" +:+ star +:+ ") FROM ".
Definition CountQuery (table : string) : string := CountPrefix +:+ table.

Section WithServer.
Context {St : Type} `{!Server St}.

(** [InsertNamesToDB]: the value is the Go [error], [None] for [nil]. *)
Fixpoint InsertNamesToDB (query : string) (names : list string)
    : DBM St (option error) :=
  match names with
  | [] => ret None
  | name :: rest =>
      r <- call (DBExec query [AStr name]);;
      match r with
      | Err e => ret (Some e)
      | Ok _ => InsertNamesToDB query rest
      end
  end.

(** [GetTableCount]: [count] is zero when declared and is written by
    [Scan] only when the query and the conversion succeed; the error of
    [Scan] is assigned to the blank identifier. *)
Definition GetTableCount (table : string) : DBM St Z :=
  r <- call (DBQueryRow (CountQuery table) []);;
  let count := match r with Ok n => n | Err _ => 0 end in
  ret count.

(** The four [GetOrInsert] functions return [(id, err)], with [id] left
    at zero when [Scan] fails. *)
Definition get_or_insert (query name : string) : DBM St (Z * option error) :=
  r <- call (TxQueryRow query [AStr name]);;
  ret (match r with Ok id => (id, None) | Err e => (0, Some e) end).

Definition GetOrInsertCategory := get_or_insert GetOrInsertCategoryQuery.
Definition GetOrInsertEquipment := get_or_insert GetOrInsertEquipmentQuery.
Definition GetOrInsertType := get_or_insert GetOrInsertTypeQuery.
Definition GetOrInsertMuscle := get_or_insert GetOrInsertMuscleQuery.

(** The three inner loops of [InsertExercises].  Their value is the
    error with which the function returns from inside the loop, [None]
    when the loop runs to its end. *)
Fixpoint equipment_loop (exID : Z) (equipment : list string)
    : DBM St (option error) :=
  match equipment with
  | [] => ret None
  | e :: rest =>
      let e := TrimSpace e in
      if String.eqb e EmptyString || EqualFold e "None"
      then equipment_loop exID rest
      else
        p <- GetOrInsertEquipment e;;
        match p with
        | (_, Some err) => ret (Some ("equipment " +:+ e +:+ ": " +:+ err))
        | (equipID, None) =>
            r <- call (TxExec LinkEquipmentQuery [AInt exID; AInt equipID]);;
            match r with
            | Err err => ret (Some ("insert equipment junction: " +:+ err))
            | Ok _ => equipment_loop exID rest
            end
        end
  end.

Fixpoint types_loop (exID : Z) (types : list string) : DBM St (option error) :=
  match types with
  | [] => ret None
  | t :: rest =>
      p <- GetOrInsertType t;;
      match p with
      | (_, Some err) => ret (Some ("type " +:+ t +:+ ": " +:+ err))
      | (typeID, None) =>
          r <- call (TxExec LinkTypeQuery [AInt exID; AInt typeID]);;
          match r with
          | Err err => ret (Some ("insert type junction: " +:+ err))
          | Ok _ => types_loop exID rest
          end
      end
  end.

Fixpoint muscles_loop (exID : Z) (muscles : list string)
    : DBM St (option error) :=
  match muscles with
  | [] => ret None
  | m :: rest =>
      p <- GetOrInsertMuscle m;;
      match p with
      | (_, Some err) => ret (Some ("muscle " +:+ m +:+ ": " +:+ err))
      | (muscleID, None) =>
          r <- call (TxExec LinkMuscleQuery [AInt exID; AInt muscleID]);;
          match r with
          | Err err => ret (Some ("insert muscle junction: " +:+ err))
          | Ok _ => muscles_loop exID rest
          end
      end
  end.

(** One iteration of the loop over the rows.  Its [err] is declared by
    [catID, err := ...] inside the loop body and is a variable of that
    block. *)
Definition insert_row (row : ExerciseUploadRow) : DBM St (option error) :=
  p <- GetOrInsertCategory (Category row);;
  match p with
  | (_, Some err) => ret (Some ("category " +:+ Category row +:+ ": " +:+ err))
  | (catID, None) =>
      r <- call (TxQueryRow UpsertExerciseQuery
                   [AStr (Name row); AStr (Description row); AInt catID]);;
      match r with
      | Err err => ret (Some ("insert exercise " +:+ Name row +:+ ": " +:+ err))
      | Ok exID =>
          e1 <- equipment_loop exID (Equipment row);;
          match e1 with
          | Some err => ret (Some err)
          | None =>
              e2 <- types_loop exID (Types row);;
              match e2 with
              | Some err => ret (Some err)
              | None => muscles_loop exID (Muscles row)
              end
          end
      end
  end.

Fixpoint rows_loop (rows : list ExerciseUploadRow) : DBM St (option error) :=
  match rows with
  | [] => ret None
  | row :: rest =>
      e <- insert_row row;;
      match e with
      | Some err => ret (Some err)
      | None => rows_loop rest
      end
  end.

(** The closure deferred by [InsertExercises].  It reads the variable
    [err] of the function body, the one declared by
    [tx, err := db.Begin()]. *)
Definition deferred (err : option error) : DBM St (result Z) :=
  match err with
  | Some _ => call TxRollback
  | None => call TxCommit
  end.

(** [InsertExercises].  The result of the function is unnamed, so a
    [return] inside the loops does not assign the function's [err]; the
    loops assign only the [err] variables they declare themselves.  When
    the deferred closure runs, the function's [err] still holds what
    [db.Begin] returned. *)
Definition InsertExercises (rows : list ExerciseUploadRow)
    : DBM St (option error) :=
  b <- call DBBegin;;
  match b with
  | Err e => ret (Some e)
  | Ok _ =>
      let err : option error := None in
      returned <- rows_loop rows;;
      _ <- deferred err;;
      ret returned
  end.

End WithServer.
End Repo.

(** ** A relational store answering the calls

    The schema is not part of the Go sources.  This store has what the
    statements of the program need: tables with a unique [name] column and
    an integer [id] taken from a counter, the exercise table, and junction
    tables of id pairs with a uniqueness constraint on the pair.  A
    statement on a relation that does not exist fails, and so does a name
    longer than the column of a name table admits.

    A transaction works on a copy of the tables; [Commit] installs the copy
    and [Rollback] drops it.  As in PostgreSQL, a statement that fails
    inside a transaction aborts the transaction: the statements that follow
    are refused until the transaction ends, and [Commit] then discards the
    copy and answers with an error, which is what the driver reports when
    the server answers COMMIT with ROLLBACK. *)

Module Pg.

Inductive Table : Type :=
| NameTable (rows : gmap string Z) (serial : Z) (width : nat)
| ExerciseTable (rows : gmap string (Z * string * Z)) (serial : Z)
| LinkTable (rows : gset (Z * Z)).

Inductive Stmt : Type :=
| InsertName (table : string)
| UpsertName (table : string)
| UpsertExercise
| InsertLink (table : string)
| CountRows (table : string).

Fixpoint strip_prefix (p s : string) : option string :=
  match p, s with
  | EmptyString, _ => Some s
  | String a p', String b s' =>
      if Ascii.eqb a b then strip_prefix p' s' else None
  | String _ _, EmptyString => None
  end.

Definition strip_suffix (suf s : string) : option string :=
  String.rev <$> strip_prefix (String.rev suf) (String.rev s).

(** The statements the store understands, recognised by their text. *)
Definition parse (query : string) : option Stmt :=
  if String.eqb query Repo.UpsertExerciseQuery then Some UpsertExercise
  else if String.eqb query Repo.LinkEquipmentQuery then Some (InsertLink "exercise_equipment")
  else if String.eqb query Repo.LinkTypeQuery then Some (InsertLink "exercise_training_types")
  else if String.eqb query Repo.LinkMuscleQuery then Some (InsertLink "exercise_muscles")
  else
    match strip_prefix Repo.CountPrefix query with
    | Some t => Some (CountRows t)
    | None =>
        match strip_prefix "INSERT INTO " query with
        | None => None
        | Some q =>
            match strip_suffix " (name) VALUES ($1) ON CONFLICT (name) DO NOTHING" q with
            | Some t => Some (InsertName t)
            | None =>
                match strip_suffix " (name) VALUES ($1) ON CONFLICT (name) DO UPDATE SET name=EXCLUDED.name RETURNING id" q with
                | Some t => Some (UpsertName t)
                | None => None
                end
            end
        end
    end.

Definition no_relation (t : string) : error := "relation does not exist: " +:+ t.
Definition too_long : error := "value too long for type character varying".
Definition bad_arguments : error := "wrong number or type of arguments".

(** One statement on the tables: the value answered and the new tables. *)
Definition exec (st : Stmt) (args : list Arg) (tabs : gmap string Table)
    : result (Z * gmap string Table) :=
  match st, args with
  | InsertName t, [AStr name] =>
      match tabs !! t with
      | Some (NameTable rows serial width) =>
          if (width <? String.length name)%nat then Err too_long
          else match rows !! name with
               | Some _ => Ok (0, tabs)
               | None =>
                   Ok (0, <[t := NameTable (<[name := serial]> rows) (serial + 1) width]> tabs)
               end
      | _ => Err (no_relation t)
      end
  | UpsertName t, [AStr name] =>
      match tabs !! t with
      | Some (NameTable rows serial width) =>
          if (width <? String.length name)%nat then Err too_long
          else match rows !! name with
               | Some id => Ok (id, tabs)
               | None =>
                   Ok (serial, <[t := NameTable (<[name := serial]> rows) (serial + 1) width]> tabs)
               end
      | _ => Err (no_relation t)
      end
  | UpsertExercise, [AStr name; AStr description; AInt category] =>
      match tabs !! "exercise" with
      | Some (ExerciseTable rows serial) =>
          match rows !! name with
          | Some (id, _, cat) =>
              Ok (id, <["exercise" := ExerciseTable (<[name := (id, description, cat)]> rows) serial]> tabs)
          | None =>
              Ok (serial, <["exercise" := ExerciseTable (<[name := (serial, description, category)]> rows) (serial + 1)]> tabs)
          end
      | _ => Err (no_relation "exercise")
      end
  | InsertLink t, [AInt a; AInt b] =>
      match tabs !! t with
      | Some (LinkTable rows) => Ok (0, <[t := LinkTable ({[ (a, b) ]} ∪ rows)]> tabs)
      | _ => Err (no_relation t)
      end
  | CountRows t, [] =>
      match tabs !! t with
      | Some (NameTable rows _ _) => Ok (Z.of_nat (size rows), tabs)
      | Some (ExerciseTable rows _) => Ok (Z.of_nat (size rows), tabs)
      | Some (LinkTable rows) => Ok (Z.of_nat (size rows), tabs)
      | None => Err (no_relation t)
      end
  | _, _ => Err bad_arguments
  end.

Definition run (query : string) (args : list Arg) (tabs : gmap string Table)
    : result (Z * gmap string Table) :=
  match parse query with
  | Some st => exec st args tabs
  | None => Err ("syntax error: " +:+ query)
  end.

(** [committed] are the durable tables, [pending] the working copy of the
    open transaction, [failed] whether a statement of the open transaction
    has failed.  The program holds at most one transaction at a time. *)
Record State := MkState {
  committed : gmap string Table;
  pending : option (gmap string Table);
  failed : bool
}.

Definition tx_done : error :=
  "sql: transaction has already been committed or rolled back".
Definition tx_aborted : error :=
  "current transaction is aborted, commands ignored until end of transaction block".
Definition commit_rolled_back : error :=
  "commit unexpectedly resulted in rollback".

Definition step (s : State) (q : Call) : result Z * State :=
  match q with
  | DBExec query args | DBQueryRow query args =>
      match run query args (committed s) with
      | Ok (v, tabs) => (Ok v, MkState tabs (pending s) (failed s))
      | Err e => (Err e, s)
      end
  | DBBegin =>
      match pending s with
      | None => (Ok 0, MkState (committed s) (Some (committed s)) false)
      | Some _ => (Err "a transaction is already open", s)
      end
  | TxExec query args | TxQueryRow query args =>
      match pending s with
      | None => (Err tx_done, s)
      | Some work =>
          if failed s then (Err tx_aborted, s)
          else
            match run query args work with
            | Ok (v, tabs) => (Ok v, MkState (committed s) (Some tabs) false)
            | Err e => (Err e, MkState (committed s) (Some work) true)
            end
      end
  | TxCommit =>
      match pending s with
      | None => (Err tx_done, s)
      | Some work =>
          if failed s
          then (Err commit_rolled_back, MkState (committed s) None false)
          else (Ok 0, MkState work None false)
      end
  | TxRollback =>
      match pending s with
      | None => (Err tx_done, s)
      | Some _ => (Ok 0, MkState (committed s) None false)
      end
  end.

#[global] Instance pg_server : Server State := step.

(** The rows of a name table, [None] when there is no such table. *)
Definition names_of (tabs : gmap string Table) (t : string)
    : option (gmap string Z) :=
  match tabs !! t with
  | Some (NameTable rows _ _) => Some rows
  | _ => None
  end.

Definition exercises_of (tabs : gmap string Table)
    : option (gmap string (Z * string * Z)) :=
  match tabs !! "exercise" with
  | Some (ExerciseTable rows _) => Some rows
  | _ => None
  end.

(** A freshly created schema with columns [name VARCHAR(width)]. *)
Definition empty_schema (width : nat) : gmap string Table :=
  list_to_map
    [ ("muscle_group", NameTable ∅ 1 width);
      ("training_type", NameTable ∅ 1 width);
      ("exercise_category", NameTable ∅ 1 width);
      ("equipment", NameTable ∅ 1 width);
      ("exercise", ExerciseTable ∅ 1);
      ("exercise_equipment", LinkTable ∅);
      ("exercise_training_types", LinkTable ∅);
      ("exercise_muscles", LinkTable ∅) ].

Definition start (tabs : gmap string Table) : Conn State :=
  MkConn (MkState tabs None false) [].

End Pg.

(** ** Go [int] and slices *)

(** [int] is a 64-bit two's complement integer; [++] and [--] wrap around. *)
Definition wrap (n : Z) : Z := (n + 2 ^ 63) mod 2 ^ 64 - 2 ^ 63.
Definition incr (n : Z) : Z := wrap (n + 1).
Definition decr (n : Z) : Z := wrap (n - 1).

Definition len {A} (l : list A) : Z := Z.of_nat (length l).

(** [l[i]]: [None] is the run-time panic "index out of range". *)
Definition index {A} (l : list A) (i : Z) : option A :=
  if i <? 0 then None else l !! Z.to_nat i.

(** ** [path/filepath]: [Clean] and [Join] (separator [/]) *)

Module FilePath.
Import GoStrings.

(** The elements of the cleaned path, innermost last; [rooted] paths drop
    a leading [..]. *)
Fixpoint clean_loop (rooted : bool) (elems stack : list string) : list string :=
  match elems with
  | [] => stack
  | e :: rest =>
      if String.eqb e EmptyString || String.eqb e "." then clean_loop rooted rest stack
      else if String.eqb e ".." then
        match reverse stack with
        | top :: below =>
            if String.eqb top ".."
            then clean_loop rooted rest (stack ++ [".."])
            else clean_loop rooted rest (reverse below)
        | [] =>
            if rooted then clean_loop rooted rest stack
            else clean_loop rooted rest [".."]
        end
      else clean_loop rooted rest (stack ++ [e])
  end.

Fixpoint join_with (sep : string) (l : list string) : string :=
  match l with
  | [] => EmptyString
  | [x] => x
  | x :: rest => x +:+ sep +:+ join_with sep rest
  end.

Definition Clean (path : string) : string :=
  let rooted := String.prefix "/" path in
  let body := join_with "/" (clean_loop rooted (Split path "/") []) in
  let out := if rooted then "/" +:+ body else body in
  if String.eqb out EmptyString then "." else out.

(** [filepath.Join]: empty elements are ignored, the rest is joined with
    the separator and cleaned. *)
Definition Join (elem : list string) : string :=
  match filter (fun e => e ≠ EmptyString) elem with
  | [] => EmptyString
  | l => Clean (join_with "/" l)
  end.

End FilePath.

(** ** The interactive menu ([menu.go]) *)

Module Menu.
Import GoStrings Parser Repo.

Inductive appState : Type := stateMenu | stateFileSelector | stateResult.

(** The field [db] of the Go struct is the handle of the connection; the
    connection itself is the state of [DBM]. *)
Record model := MkModel {
  state : appState;
  menuChoice : Z;
  fileList : list string;
  fileChoice : Z;
  selectedFile : string;
  resultMsg : string;
  isError : bool;
  counts : list Z
}.

Definition set_state (v : appState) (m : model) : model :=
  MkModel v (menuChoice m) (fileList m) (fileChoice m) (selectedFile m)
          (resultMsg m) (isError m) (counts m).
Definition set_menuChoice (v : Z) (m : model) : model :=
  MkModel (state m) v (fileList m) (fileChoice m) (selectedFile m)
          (resultMsg m) (isError m) (counts m).
Definition set_fileList (v : list string) (m : model) : model :=
  MkModel (state m) (menuChoice m) v (fileChoice m) (selectedFile m)
          (resultMsg m) (isError m) (counts m).
Definition set_fileChoice (v : Z) (m : model) : model :=
  MkModel (state m) (menuChoice m) (fileList m) v (selectedFile m)
          (resultMsg m) (isError m) (counts m).
Definition set_selectedFile (v : string) (m : model) : model :=
  MkModel (state m) (menuChoice m) (fileList m) (fileChoice m) v
          (resultMsg m) (isError m) (counts m).
Definition set_resultMsg (v : string) (m : model) : model :=
  MkModel (state m) (menuChoice m) (fileList m) (fileChoice m) (selectedFile m)
          v (isError m) (counts m).
Definition set_isError (v : bool) (m : model) : model :=
  MkModel (state m) (menuChoice m) (fileList m) (fileChoice m) (selectedFile m)
          (resultMsg m) v (counts m).
Definition set_counts (v : list Z) (m : model) : model :=
  MkModel (state m) (menuChoice m) (fileList m) (fileChoice m) (selectedFile m)
          (resultMsg m) (isError m) v.

Definition menuOptions : list string :=
  [ "Upload Muscle Groups";
    "Upload Exercise Types";
    "Upload Exercise Categories";
    "Upload Equipment";
    "Upload Exercises";
    "Quit" ].

(** A message of the Bubble Tea runtime: a key press, named by
    [key.String()], or anything else. *)
Inductive Msg : Type :=
| KeyMsg (key : string)
| OtherMsg.

(** The command returned with the model: [nil] or [tea.Quit]. *)
Inductive Cmd : Type := CmdNil | CmdQuit.

(** A [case] of a [switch] on the key name. *)
Definition key_in (key : string) (cases : list string) : bool :=
  existsb (String.eqb key) cases.

Definition nl : string := String "010"%char EmptyString.
Definition press_enter : string := nl +:+ "Press enter or q to return to menu.".

Definition dataDir : string := "./src/internal/data/".

Definition supportedExts (ext : string) : bool :=
  key_in ext [".csv"; ".json"; ".yaml"; ".yml"].

Fixpoint listDataFiles_loop (entries : list DirEntry) (files : list string)
    : list string :=
  match entries with
  | [] => files
  | entry :: rest =>
      if entry_is_dir entry then listDataFiles_loop rest files
      else
        let name := entry_name entry in
        let ext := ToLower (Ext name) in
        if supportedExts ext then listDataFiles_loop rest (files ++ [name])
        else listDataFiles_loop rest files
  end.

(** [sort.Strings] orders by the byte-wise comparison of Go strings. *)
Definition listDataFiles (fs : FS) : result (list string) :=
  match ReadDir fs with
  | Err e => Err e
  | Ok entries => Ok (merge_sort String.le (listDataFiles_loop entries []))
  end.

Section WithServer.
Context {St : Type} `{!Server St}.

Definition refreshCounts (m : model) : DBM St model :=
  c0 <- GetTableCount "muscle_group";;
  c1 <- GetTableCount "training_type";;
  c2 <- GetTableCount "exercise_category";;
  c3 <- GetTableCount "equipment";;
  c4 <- GetTableCount "exercise";;
  ret (set_counts [c0; c1; c2; c3; c4] m).

Definition initialModel : DBM St model :=
  refreshCounts (MkModel stateMenu 0 [] 0 EmptyString EmptyString false []).

(** [None] is a run-time panic of the Go program. *)
Definition updateMenu (fs : FS) (m : model) (msg : Msg)
    : DBM St (option (model * Cmd)) :=
  match msg with
  | OtherMsg => ret (Some (m, CmdNil))
  | KeyMsg key =>
      if key_in key ["up"; "k"] then
        let m := if 0 <? menuChoice m
                 then set_menuChoice (decr (menuChoice m)) m else m in
        ret (Some (m, CmdNil))
      else if key_in key ["down"; "j"] then
        let m := if menuChoice m <? len menuOptions - 1
                 then set_menuChoice (incr (menuChoice m)) m else m in
        ret (Some (m, CmdNil))
      else if key_in key ["enter"] then
        if menuChoice m =? len menuOptions - 1 then ret (Some (m, CmdQuit))
        else
          match listDataFiles fs with
          | Err err =>
              let m := set_state stateResult m in
              let m := set_resultMsg
                         ("Error reading ./src/internal/data/: " +:+ err +:+ press_enter) m in
              let m := set_isError true m in
              ret (Some (m, CmdNil))
          | Ok files =>
              let m := set_state stateFileSelector m in
              let m := set_fileList (files ++ ["Back"]) m in
              let m := set_fileChoice 0 m in
              ret (Some (m, CmdNil))
          end
      else if key_in key ["q"; "ctrl+c"] then ret (Some (m, CmdQuit))
      else if key_in key ["r"] then
        m <- refreshCounts m;;
        ret (Some (m, CmdNil))
      else ret (Some (m, CmdNil))
  end.

(** Leaving for the result screen with a message. *)
Definition show (msg : string) (is_err : bool) (m : model) : model :=
  set_isError is_err (set_resultMsg msg (set_state stateResult m)).

(** The work done on [enter] once a real file was chosen. *)
Definition upload (fs : FS) (m : model) : DBM St (option (model * Cmd)) :=
  let ext := ToLower (Ext (selectedFile m)) in
  let parsed :=
    if key_in ext [".csv"] then ParseCSV fs (selectedFile m)
    else if key_in ext [".json"] then ParseJSON fs (selectedFile m)
    else if key_in ext [".yaml"; ".yml"] then ParseYAML fs (selectedFile m)
    else Err ("unsupported file type: " +:+ ext) in
  match parsed with
  | Err err =>
      ret (Some (show ("Error parsing file: " +:+ err +:+ press_enter) true m, CmdNil))
  | Ok names =>
      if menuChoice m =? 4 then
        match ParseExercisesCSV fs (selectedFile m) with
        | Err err =>
            ret (Some (show ("Error parsing exercises CSV: " +:+ err +:+ press_enter)
                         true m, CmdNil))
        | Ok rows =>
            e <- InsertExercises rows;;
            match e with
            | Some err =>
                ret (Some (show ("Database error: " +:+ err +:+ press_enter) true m,
                           CmdNil))
            | None =>
                ret (Some (show ("Successfully uploaded " +:+ pretty (len rows)
                                   +:+ " exercises!" +:+ press_enter) false m,
                           CmdNil))
            end
        end
      else
        let query :=
          if menuChoice m =? 0 then InsertMuscleGroupQuery
          else if menuChoice m =? 1 then InsertTrainingTypeQuery
          else if menuChoice m =? 2 then InsertCategoryQuery
          else if menuChoice m =? 3 then InsertEquipmentQuery
          else EmptyString in
        e <- InsertNamesToDB query names;;
        match e with
        | Some err =>
            ret (Some (show ("Database error: " +:+ err +:+ press_enter) true m,
                       CmdNil))
        | None =>
            ret (Some (show ("Successfully uploaded " +:+ pretty (len names)
                               +:+ " entries!" +:+ press_enter) false m,
                       CmdNil))
        end
  end.

Definition updateFileMenu (fs : FS) (m : model) (msg : Msg)
    : DBM St (option (model * Cmd)) :=
  match msg with
  | OtherMsg => ret (Some (m, CmdNil))
  | KeyMsg key =>
      if key_in key ["up"; "k"] then
        let m := if 0 <? fileChoice m
                 then set_fileChoice (decr (fileChoice m)) m else m in
        ret (Some (m, CmdNil))
      else if key_in key ["down"; "j"] then
        let m := if fileChoice m <? len (fileList m) - 1
                 then set_fileChoice (incr (fileChoice m)) m else m in
        ret (Some (m, CmdNil))
      else if key_in key ["q"; "esc"] then
        ret (Some (set_state stateMenu m, CmdNil))
      else if key_in key ["enter"] then
        match index (fileList m) (fileChoice m) with
        | None => ret None
        | Some file =>
            if String.eqb file "Back"
            then ret (Some (set_state stateMenu m, CmdNil))
            else upload fs (set_selectedFile (FilePath.Join [dataDir; file]) m)
        end
      else ret (Some (m, CmdNil))
  end.

Definition Update (fs : FS) (m : model) (msg : Msg)
    : DBM St (option (model * Cmd)) :=
  match state m with
  | stateMenu => updateMenu fs m msg
  | stateFileSelector => updateFileMenu fs m msg
  | stateResult =>
      match msg with
      | KeyMsg key =>
          if String.eqb key "enter" || String.eqb key "q" || String.eqb key "esc"
          then
            let m := set_state stateMenu m in
            let m := set_resultMsg EmptyString m in
            let m := set_isError false m in
            m <- refreshCounts m;;
            ret (Some (m, CmdNil))
          else ret (Some (m, CmdNil))
      | OtherMsg => ret (Some (m, CmdNil))
      end
  end.

(** The models the program can be in: the initial one, and those that
    [Update] returns for some message, whatever the files and the
    database are at that moment.  A directory listing is a Go slice, so
    its length is an [int]. *)
Definition listing_fits (fs : FS) : Prop :=
  match ReadDir fs with
  | Ok entries => len entries < 2 ^ 63 - 1
  | Err _ => True
  end.

Inductive reachable : model -> Prop :=
| reach_init (c : Conn St) : reachable (initialModel c).1
| reach_step (fs : FS) (m : model) (msg : Msg) (c : Conn St) (m' : model) (cmd : Cmd) :
    reachable m ->
    listing_fits fs ->
    (Update fs m msg c).1 = Some (m', cmd) ->
    reachable m'.

End WithServer.
End Menu.

(** ** Sentences of the specification, as predicates on the program *)

Module Stated.
Import GoStrings Parser.

(** The cell [rec[i]] of a record that is long enough. *)
Definition cell (rec : list string) (i : nat) : string := nth i rec EmptyString.

(** The upload row that the row mapper builds from a record with the six
    columns name, description, category, equipment, types, muscles. *)
Definition to_row (rec : list string) : ExerciseUploadRow :=
  {| Name := TrimSpace (cell rec 0);
     Description := TrimSpace (cell rec 1);
     Category := TrimSpace (cell rec 2);
     Equipment := SplitAndTrim (cell rec 3) ";";
     Types := SplitAndTrim (cell rec 4) ";";
     Muscles := SplitAndTrim (cell rec 5) ";" |}.

Definition has_six_columns (rec : list string) : bool := (6 <=? length rec)%nat.

(** The first cells of the non-empty records. *)
Definition first_cells (records : list (list string)) : list string :=
  omap head records.

(** The header test of [ParseCSV]: the first cell is spelled [name] or
    [Name]. *)
Definition is_header (rec : list string) : bool :=
  match rec with
  | c :: _ => String.eqb c "name" || String.eqb c "Name"
  | [] => false
  end.

(** "The first row is skipped if and only if its first cell
    case-insensitively equals name": skipping the first row means that
    the names are those of the remaining rows. *)
Definition header_by_fold (first : list string) (rest : list (list string)) : Prop :=
  forall c cols, first = c :: cols ->
    (EqualFold c "name" = true <->
     ParseCSV_loop 0 (first :: rest) [] = first_cells rest).

(** "An exercise file with zero data rows is an error": a file with
    nothing after its header row is refused. *)
Definition header_only_is_error (fs : FS) (path : string) : Prop :=
  forall header, ReadCSV fs path = Ok [header] ->
    exists e, ParseExercisesCSV fs path = Err e.

(** "Every data row with fewer than six columns is silently dropped, and
    every row with six columns or more yields one upload row": whatever the
    records of the file after its first one are, the parse succeeds with
    one row for each of them that has six columns or more. *)
Definition short_rows_dropped (fs : FS) (path : string) : Prop :=
  forall line header rest,
    ReadCSV fs path = Csv.ReadAll ((line, header) :: rest) ->
    ParseExercisesCSV fs path
    = Ok (map to_row (List.filter has_six_columns (map snd rest))).

(** Every record of [data] has as many fields as [header]. *)
Definition same_width (header : list string) (data : list (list string)) : bool :=
  forallb (fun rec => Nat.eqb (length rec) (length header)) data.

Definition first_byte (s : string) : option ascii :=
  match s with
  | String c _ => Some c
  | EmptyString => None
  end.

Fixpoint last_byte (s : string) : option ascii :=
  match s with
  | EmptyString => None
  | String c EmptyString => Some c
  | String _ s' => last_byte s'
  end.

(** The string starts with a white-space rune. *)
Definition starts_with_space (s : string) : bool :=
  match s with
  | EmptyString => false
  | String a s1 =>
      asciiSpace a
      || match s1 with
         | EmptyString => false
         | String b s2 =>
             space2 a b
             || match s2 with
                | EmptyString => false
                | String c _ => space3 a b c
                end
         end
  end.

(** The string ends with a white-space rune: one of its suffixes is the
    encoding of such a rune. *)
Fixpoint ends_with_space (s : string) : bool :=
  match s with
  | EmptyString => false
  | String _ s1 => space_rune s || ends_with_space s1
  end.

(** An item from which the surrounding white space has been removed. *)
Definition no_outer_space (p : string) : Prop :=
  starts_with_space p = false /\ ends_with_space p = false.

(** "Each item has its surrounding white space and its surrounding quote
    characters removed": the item is not empty, it neither starts nor ends
    with white space, and neither end of it is a quote. *)
Definition stripped (p : string) : Prop :=
  p <> EmptyString /\ no_outer_space p /\
  forall c, first_byte p = Some c \/ last_byte p = Some c -> c <> quote.

(** What [SplitAndTrim] does to one piece: the quotes at its two ends go
    first, then the white space at the two ends of what is left. *)
Definition trim_item (p : string) : string :=
  TrimSpace (Trim p (String quote EmptyString)).

End Stated.

(** ** Sample inputs *)

Module Sample.
Import GoStrings Parser Repo.

Definition header : list string :=
  ["Name"; "Description"; "Category"; "Equipment"; "Types"; "Muscles"].

Definition exercise_records : list (list string) :=
  [ header;
    ["Push-up"; " A bodyweight exercise "; "Chest"; "Bodyweight"; "Strength"; "Chest;Triceps"];
    ["Squat"; "Leg exercise"; "Legs"; "Barbell; None"; "Strength"; "Quadriceps; Glutes"] ].

(** A file whose records have three columns only. *)
Definition short_records : list (list string) :=
  [ ["Name"; "Description"; "Category"];
    ["Plank"; "Core hold"; "Core"];
    ["Lunge"; "Leg exercise"; "Legs"] ].

(** A list column of two items, the second one wrapped in quote
    characters and preceded by a space: A, semicolon, space, quote, B,
    quote. *)
Definition quoted_after_space : string :=
  "A; " +:+ String quote ("B" +:+ String quote EmptyString).

(** A list column whose items are wrapped in white space outside the
    ASCII range: a no-break space (U+00A0) on each side of B, and an item
    that is an em space (U+2003) alone. *)
Definition nbsp : string := String "194" (String "160" EmptyString).
Definition em_space : string :=
  String "226" (String "128" (String "131" EmptyString)).
Definition wide_spaces : string :=
  "A;" +:+ nbsp +:+ " B " +:+ nbsp +:+ ";" +:+ em_space +:+ ";C".

Definition no_file : error := "open: no such file or directory".

Definition files : FS :=
  {| ReadDir :=
       Ok [ {| entry_name := "muscles.json"; entry_is_dir := false |};
            {| entry_name := "equipment.csv"; entry_is_dir := false |};
            {| entry_name := "archive"; entry_is_dir := true |};
            {| entry_name := "notes.txt"; entry_is_dir := false |} ];
     ReadCSV := fun path =>
       if String.eqb path "src/internal/data/equipment.csv"
       then Ok [["name"]; ["Barbell"]; ["Dumbbell"]; ["Barbell"]]
       else if String.eqb path "src/internal/data/upper.csv"
       then Ok [["NAME"]; ["Biceps"]]
       else if String.eqb path "src/internal/data/exercises.csv"
       then Ok exercise_records
       else if String.eqb path "src/internal/data/short.csv"
       then Ok short_records
       else if String.eqb path "src/internal/data/header_only.csv"
       then Ok [header]
       else if String.eqb path "src/internal/data/empty.csv"
       then Ok []
       else Err no_file;
     ReadJSON := fun _ => Err no_file;
     ReadYAML := fun _ => Err no_file |}.

Definition push_up : ExerciseUploadRow :=
  {| Name := "Push-up"; Description := "A bodyweight exercise";
     Category := "Chest"; Equipment := ["Bodyweight"];
     Types := ["Strength"]; Muscles := ["Chest"; "Triceps"] |}.

(** A row whose category does not fit a [VARCHAR(12)] column. *)
Definition squat : ExerciseUploadRow :=
  {| Name := "Squat"; Description := "Leg exercise";
     Category := "Lower body compound"; Equipment := ["Barbell"];
     Types := ["Strength"]; Muscles := ["Quadriceps"] |}.

Definition equipment_names : list string :=
  ["Barbell"; "Dumbbell"; "Barbell"; "Adjustable bench"; "Kettlebell"].

(** The menu as the program starts on an empty schema, and the file selector
    with the highlight on its last entry. *)
Definition fresh : Conn Pg.State := Pg.start (Pg.empty_schema 12).

Definition at_start : Menu.model :=
  Menu.MkModel Menu.stateMenu 0 [] 0 EmptyString EmptyString false [0; 0; 0; 0; 0].

Definition at_back : Menu.model :=
  Menu.MkModel Menu.stateFileSelector 0 ["equipment.csv"; "muscles.json"; "Back"] 2
               EmptyString EmptyString false [0; 0; 0; 0; 0].

End Sample.

(** ** Views of runs and of the store used in the statements *)

Module Views.
Import Repo.

(** The calls that one upload of [names] with [query] makes when no
    statement fails: one [Exec] per name. *)
Definition name_calls (query : string) (names : list string) : list Call :=
  map (fun name => DBExec query [AStr name]) names.

(** A statement run inside the transaction. *)
Definition is_statement (q : Call) : bool :=
  match q with
  | TxExec _ _ | TxQueryRow _ _ => true
  | _ => false
  end.

Definition is_rollback (q : Call) : bool :=
  match q with
  | TxRollback => true
  | _ => false
  end.

(** From [c] to [c'] only statements of the transaction were issued. *)
Definition only_statements {St : Type} (c c' : Conn St) : Prop :=
  exists l, calls c' = calls c ++ l /\ Forall (fun q => is_statement q = true) l.

(** The four name uploads of the menu: the statement and the table whose
    count the menu shows for it. *)
Definition name_uploads : list (string * string) :=
  [ (InsertMuscleGroupQuery, "muscle_group");
    (InsertTrainingTypeQuery, "training_type");
    (InsertCategoryQuery, "exercise_category");
    (InsertEquipmentQuery, "equipment") ].

Definition row_count (tab : Pg.Table) : Z :=
  match tab with
  | Pg.NameTable rows _ _ => Z.of_nat (size rows)
  | Pg.ExerciseTable rows _ => Z.of_nat (size rows)
  | Pg.LinkTable rows => Z.of_nat (size rows)
  end.

(** [InsertNamesToDB] with an insert-or-ignore statement on table [t],
    seen on the tables alone. *)
Fixpoint insert_names (t : string) (names : list string)
    (tabs : gmap string Pg.Table) : option error * gmap string Pg.Table :=
  match names with
  | [] => (None, tabs)
  | n :: rest =>
      match Pg.exec (Pg.InsertName t) [AStr n] tabs with
      | Ok (_, tabs') => insert_names t rest tabs'
      | Err e => (Some e, tabs)
      end
  end.

(** [tabs'] has at [t] a name table of the same width with at least the
    names of [tabs], or neither has a name table at [t]. *)
Definition extends (t : string) (tabs tabs' : gmap string Pg.Table) : Prop :=
  match tabs !! t, tabs' !! t with
  | Some (Pg.NameTable rows _ w), Some (Pg.NameTable rows' _ w') =>
      w = w' /\ forall n, is_Some (rows !! n) -> is_Some (rows' !! n)
  | Some (Pg.NameTable _ _ _), _ => False
  | _, Some (Pg.NameTable _ _ _) => False
  | _, _ => True
  end.

Import Menu.

(** The highlighted index sits at the end of the list towards which the
    key moves it. *)
Inductive at_bound : model -> string -> Prop :=
| top_of_menu (m : model) (key : string) :
    state m = stateMenu -> menuChoice m = 0 ->
    key_in key ["up"; "k"] = true -> at_bound m key
| bottom_of_menu (m : model) (key : string) :
    state m = stateMenu -> menuChoice m = len menuOptions - 1 ->
    key_in key ["down"; "j"] = true -> at_bound m key
| top_of_files (m : model) (key : string) :
    state m = stateFileSelector -> fileChoice m = 0 ->
    key_in key ["up"; "k"] = true -> at_bound m key
| bottom_of_files (m : model) (key : string) :
    state m = stateFileSelector -> fileChoice m = len (fileList m) - 1 ->
    key_in key ["down"; "j"] = true -> at_bound m key.

(** What holds of the file list while the file selector is shown. *)
Definition selector_inv (m : model) : Prop :=
  state m = stateFileSelector ->
  last (fileList m) = Some "Back"
  /\ 0 <= fileChoice m < len (fileList m)
  /\ len (fileList m) < 2 ^ 63.

End Views.

(** ** Further notions used in the properties of the code *)

Module Derived.
Import GoStrings Parser Repo.

(** The byte [c] does not occur in [s]. *)
Definition free_of (c : ascii) (s : string) : Prop := contains_byte s c = false.

(** An item that can stand in a semicolon-separated list column as it is:
    not empty, without a semicolon, and with neither white space nor a
    quote at its two ends. *)
Definition list_item (p : string) : Prop :=
  Stated.stripped p /\ free_of ";"%char p.

(** The string field [name] of a decoded object, when it has one. *)
Definition name_field (obj : gmap string any) : option string :=
  match obj !! "name" with
  | Some (any_string name) => Some name
  | _ => None
  end.

(** The equipment items for which [InsertExercises] writes to the database:
    not blank and not the word None in any case. *)
Definition kept_equipment (e : string) : bool :=
  negb (String.eqb (TrimSpace e) EmptyString || EqualFold (TrimSpace e) "None").

(** The four [GetOrInsert] statements and their tables. *)
Definition lookups : list (string * string) :=
  [ (GetOrInsertCategoryQuery, "exercise_category");
    (GetOrInsertEquipmentQuery, "equipment");
    (GetOrInsertTypeQuery, "training_type");
    (GetOrInsertMuscleQuery, "muscle_group") ].

(** From [c] to [c'] the calls [l] were made, one after the other. *)
Definition run_of {St : Type} `{!Server St} (c c' : Conn St) (l : list Call) : Prop :=
  calls c' = calls c ++ l /\ server c' = (serve_all (server c) l).2.

(** From [c] to [c'] only statements of the open transaction were made,
    and the server is where these statements took it. *)
Definition tracked {St : Type} `{!Server St} (c c' : Conn St) : Prop :=
  exists l, run_of c c' l /\ Forall (fun q => Views.is_statement q = true) l.

(** The Go error is nil. *)
Definition no_error (e : option error) : bool :=
  match e with
  | None => true
  | Some _ => false
  end.

(** From [c] to [c'] only statements of the open transaction were made,
    and [ok] tells whether the server answered every one of them without
    an error. *)
Definition answered {St : Type} `{!Server St} (c c' : Conn St) (ok : bool) : Prop :=
  exists l, run_of c c' l
            /\ Forall (fun q => Views.is_statement q = true) l
            /\ forallb is_ok (serve_all (server c) l).1 = ok.

(** The tables that the statements [l], run one after the other on
    [tabs], lead to; [None] when one of them fails. *)
Fixpoint run_statements (l : list Call) (tabs : gmap string Pg.Table)
    : option (gmap string Pg.Table) :=
  match l with
  | [] => Some tabs
  | TxExec query args :: l' | TxQueryRow query args :: l' =>
      match Pg.run query args tabs with
      | Ok (_, tabs') => run_statements l' tabs'
      | Err _ => None
      end
  | _ :: _ => None
  end.

(** Table [b] has every row of table [a]: a name keeps its id, an exercise
    keeps its id and its category, a junction pair stays. *)
Definition table_kept (a b : Pg.Table) : Prop :=
  match a, b with
  | Pg.NameTable ra _ wa, Pg.NameTable rb _ wb =>
      wa = wb /\ forall n id, ra !! n = Some id -> rb !! n = Some id
  | Pg.ExerciseTable ra _, Pg.ExerciseTable rb _ =>
      forall n id d cat, ra !! n = Some (id, d, cat) ->
        exists d', rb !! n = Some (id, d', cat)
  | Pg.LinkTable ra, Pg.LinkTable rb => forall p, p ∈ ra -> p ∈ rb
  | _, _ => False
  end.

Definition nothing_lost (tabs tabs' : gmap string Pg.Table) : Prop :=
  forall t a, tabs !! t = Some a ->
    exists b, tabs' !! t = Some b /\ table_kept a b.

(** The five count queries of [refreshCounts], in the order of the menu. *)
Definition refresh_calls : list Call :=
  map (fun table => DBQueryRow (CountQuery table) [])
      ["muscle_group"; "training_type"; "exercise_category"; "equipment"; "exercise"].

(** The row counts of the five tables of the menu, a missing table
    counting as zero. *)
Definition shown_counts (tabs : gmap string Pg.Table) : list Z :=
  map (fun table => from_option Views.row_count 0 (tabs !! table))
      ["muscle_group"; "training_type"; "exercise_category"; "equipment"; "exercise"].

(** The statement of each name upload of the menu, by menu position. *)
Definition query_of_choice : list (Z * string) :=
  [ (0, InsertMuscleGroupQuery); (1, InsertTrainingTypeQuery);
    (2, InsertCategoryQuery); (3, InsertEquipmentQuery) ].

(** The names that the parser chosen by the extension [ext] reads from
    [path]. *)
Definition names_parsed (fs : FS) (ext path : string) (names : list string) : Prop :=
  (ext = ".csv" /\ ParseCSV fs path = Ok names)
  \/ (ext = ".json" /\ ParseJSON fs path = Ok names)
  \/ ((ext = ".yaml" \/ ext = ".yml") /\ ParseYAML fs path = Ok names).

(** The directory entries that [listDataFiles] lists. *)
Definition listed (entry : DirEntry) : bool :=
  negb (entry_is_dir entry)
  && Menu.supportedExts (ToLower (Ext (entry_name entry))).

(** A file name as [os.ReadDir] gives it: one path element. *)
Definition plain_name (file : string) : Prop :=
  file <> EmptyString /\ file <> "." /\ file <> ".." /\ free_of "/"%char file.

(** What holds of the menu position and of the counts in every model the
    program reaches. *)
Definition menu_inv (m : Menu.model) : Prop :=
  0 <= Menu.menuChoice m <= len Menu.menuOptions - 1
  /\ (Menu.state m = Menu.stateFileSelector ->
      Menu.menuChoice m < len Menu.menuOptions - 1)
  /\ length (Menu.counts m) = 5%nat.

End Derived.

(** ** Further sample inputs *)

Module Cases.
Import Parser.

Definition muscles_json : list (gmap string any) :=
  [ {[ "name" := any_string "Chest" ]};
    {[ "id" := any_other ]};
    {[ "name" := any_other ]};
    {[ "name" := any_string "Triceps"; "group" := any_string "arm" ]} ].

Definition files : FS :=
  {| ReadDir := Err "open ./src/internal/data/: no such file or directory";
     ReadCSV := fun path =>
       if String.eqb path "src/internal/data/equipment.csv"
       then Ok [["Barbell"]; ["name"]; ["Dumbbell"]]
       else Err Sample.no_file;
     ReadJSON := fun path =>
       if String.eqb path "src/internal/data/muscles.json"
       then Ok muscles_json else Err Sample.no_file;
     ReadYAML := fun path =>
       if String.eqb path "src/internal/data/muscles.yml"
       then Ok muscles_json else Err Sample.no_file |}.

(** Exercise files by their lines: one with six fields in every record,
    one whose third record has three fields under a header of six, and
    one with three fields in every record. *)
Definition exercise_lines : list (nat * list string) :=
  [ (1%nat, Sample.header);
    (2%nat, ["Push-up"; " A bodyweight exercise "; "Chest"; "Bodyweight"; "Strength"; "Chest;Triceps"]);
    (3%nat, ["Squat"; "Leg exercise"; "Legs"; "Barbell; None"; "Strength"; "Quadriceps; Glutes"]) ].

Definition ragged_lines : list (nat * list string) :=
  [ (1%nat, Sample.header);
    (2%nat, ["Push-up"; " A bodyweight exercise "; "Chest"; "Bodyweight"; "Strength"; "Chest;Triceps"]);
    (3%nat, ["Plank"; "Core hold"; "Core"]);
    (4%nat, ["Squat"; "Leg exercise"; "Legs"; "Barbell; None"; "Strength"; "Quadriceps; Glutes"]) ].

Definition short_lines : list (nat * list string) :=
  [ (1%nat, ["Name"; "Description"; "Category"]);
    (2%nat, ["Plank"; "Core hold"; "Core"]);
    (3%nat, ["Lunge"; "Leg exercise"; "Legs"]) ].

Definition uploads : FS :=
  {| ReadDir := Err "open ./src/internal/data/: no such file or directory";
     ReadCSV := fun path =>
       if String.eqb path "src/internal/data/exercises.csv"
       then Csv.ReadAll exercise_lines
       else if String.eqb path "src/internal/data/ragged.csv"
       then Csv.ReadAll ragged_lines
       else if String.eqb path "src/internal/data/short.csv"
       then Csv.ReadAll short_lines
       else Err Sample.no_file;
     ReadJSON := fun _ => Err Sample.no_file;
     ReadYAML := fun _ => Err Sample.no_file |}.

(** A connection on which a transaction is already open. *)
Definition busy : Conn Pg.State :=
  MkConn (Pg.MkState (Pg.empty_schema 12) (Some (Pg.empty_schema 12)) false) [].

Definition plank : ExerciseUploadRow :=
  {| Name := "Plank"; Description := "Core hold"; Category := "Core";
     Equipment := [" none "; "NONE"; EmptyString;
                   Sample.nbsp +:+ "None" +:+ Sample.nbsp; Sample.em_space];
     Types := []; Muscles := ["Abs"] |}.

(** A directory with an upper-case extension and a dotted directory. *)
Definition listing : FS :=
  {| ReadDir :=
       Ok [ {| entry_name := "types.YAML"; entry_is_dir := false |};
            {| entry_name := "old.csv"; entry_is_dir := true |};
            {| entry_name := "equipment.csv"; entry_is_dir := false |};
            {| entry_name := "README"; entry_is_dir := false |} ];
     ReadCSV := fun _ => Err Sample.no_file;
     ReadJSON := fun _ => Err Sample.no_file;
     ReadYAML := fun _ => Err Sample.no_file |}.

(** The file selector with a file that is not a supported format, and the
    menu with the highlight in the middle. *)
Definition at_notes : Menu.model :=
  Menu.MkModel Menu.stateFileSelector 3 ["notes.txt"; "Back"] 0
               EmptyString EmptyString false [0; 0; 0; 0; 0].

Definition at_first : Menu.model :=
  Menu.MkModel Menu.stateFileSelector 0 ["equipment.csv"; "muscles.json"; "Back"] 0
               EmptyString EmptyString false [0; 0; 0; 0; 0].

Definition at_equipment : Menu.model :=
  Menu.MkModel Menu.stateFileSelector 3 ["equipment.csv"; "Back"] 0
               EmptyString EmptyString false [0; 0; 0; 0; 0].

End Cases.

(** * Properties *)

(** ** Package [strings] *)

Section SpaceFacts.
Import GoStrings Stated.

Lemma trim_left_space_eq (a : ascii) (s1 : string) :
  trim_left_space (String a s1)
  = if asciiSpace a then trim_left_space s1
    else match s1 with
         | EmptyString => String a s1
         | String b s2 =>
             if space2 a b then trim_left_space s2
             else match s2 with
                  | EmptyString => String a s1
                  | String c s3 =>
                      if space3 a b c then trim_left_space s3 else String a s1
                  end
         end.
Proof. reflexivity. Qed.

Lemma trim_left_space_starts (s : string) :
  starts_with_space (trim_left_space s) = false.
Proof.
  assert (H : forall n s, (String.length s <= n)%nat ->
                starts_with_space (trim_left_space s) = false).
  { clear s. induction n as [|n IH]; intros s Hn.
    - destruct s; [reflexivity|simpl in Hn; lia].
    - destruct s as [|a s1]; [reflexivity|]. rewrite trim_left_space_eq.
      simpl in Hn.
      destruct (asciiSpace a) eqn:Ha; [apply IH; lia|].
      destruct s1 as [|b s2]; [cbn [starts_with_space]; now rewrite Ha|].
      simpl in Hn.
      destruct (space2 a b) eqn:Hab; [apply IH; lia|].
      destruct s2 as [|c s3]; [cbn [starts_with_space]; now rewrite Ha, Hab|].
      simpl in Hn.
      destruct (space3 a b c) eqn:Habc; [apply IH; lia|].
      cbn [starts_with_space]. now rewrite Ha, Hab, Habc. }
  now apply (H (String.length s)).
Qed.

Lemma trim_left_space_fixed (s : string) :
  starts_with_space s = false -> trim_left_space s = s.
Proof.
  destruct s as [|a s1]; [reflexivity|]. rewrite trim_left_space_eq.
  cbn [starts_with_space]. intros H.
  apply orb_false_iff in H as [Ha H]. rewrite Ha.
  destruct s1 as [|b s2]; [reflexivity|].
  apply orb_false_iff in H as [Hab H]. rewrite Hab.
  destruct s2 as [|c s3]; [reflexivity|]. now rewrite H.
Qed.

Lemma trim_right_space_cons (b : ascii) (s t : string) :
  trim_right_space s = String b t ->
  exists s2, s = String b s2 /\ t = trim_right_space s2.
Proof.
  destruct s as [|a s1]; [discriminate|]. cbn [trim_right_space].
  destruct (space_rune (String a (trim_right_space s1))); [discriminate|].
  intros [= -> <-]. now exists s1.
Qed.

Lemma trim_right_space_starts (s : string) :
  starts_with_space s = false ->
  starts_with_space (trim_right_space s) = false.
Proof.
  intros H. destruct (trim_right_space s) as [|a t] eqn:E; [reflexivity|].
  apply trim_right_space_cons in E as (s1 & -> & ->).
  cbn [starts_with_space] in H |- *.
  apply orb_false_iff in H as [Ha H]. rewrite Ha. cbn [orb].
  destruct (trim_right_space s1) as [|b t] eqn:E1; [reflexivity|].
  apply trim_right_space_cons in E1 as (s2 & -> & ->).
  apply orb_false_iff in H as [Hab H]. rewrite Hab. cbn [orb].
  destruct (trim_right_space s2) as [|c t] eqn:E2; [reflexivity|].
  apply trim_right_space_cons in E2 as (s3 & -> & ->).
  exact H.
Qed.

Lemma trim_right_space_ends (s : string) :
  ends_with_space (trim_right_space s) = false.
Proof.
  induction s as [|a s IH]; [reflexivity|]. cbn [trim_right_space].
  destruct (space_rune (String a (trim_right_space s))) eqn:E; [reflexivity|].
  cbn [ends_with_space]. now rewrite E, IH.
Qed.

Lemma trim_right_space_fixed (s : string) :
  ends_with_space s = false -> trim_right_space s = s.
Proof.
  induction s as [|a s IH]; [reflexivity|]. cbn [ends_with_space trim_right_space].
  intros H. apply orb_false_iff in H as [H1 H2].
  rewrite (IH H2). now rewrite H1.
Qed.

End SpaceFacts.

Lemma TrimSpace_no_outer_space (s : string) :
  Stated.no_outer_space (GoStrings.TrimSpace s).
Proof.
  unfold Stated.no_outer_space, GoStrings.TrimSpace. split.
  - apply trim_right_space_starts, trim_left_space_starts.
  - apply trim_right_space_ends.
Qed.

(** ** The parsers *)

Section ParserFacts.
Import GoStrings Parser Stated.

Lemma SplitAndTrim_loop_filter (parts out : list string) :
  SplitAndTrim_loop parts out
  = out ++ filter (fun p => p <> EmptyString) (trim_item <$> parts).
Proof.
  revert out. induction parts as [|p parts IH]; intros out.
  - simpl. now rewrite app_nil_r.
  - cbn [SplitAndTrim_loop fmap list_fmap]. fold (trim_item p).
    rewrite filter_cons.
    destruct (String.eqb (trim_item p) EmptyString) eqn:E; cbn [negb].
    + apply String.eqb_eq in E. rewrite IH.
      destruct (decide (trim_item p <> EmptyString)); [contradiction|reflexivity].
    + apply String.eqb_neq in E. rewrite IH.
      destruct (decide (trim_item p <> EmptyString)); [|contradiction].
      now rewrite <- app_assoc.
Qed.

Lemma trim_item_no_outer_space (p : string) : no_outer_space (trim_item p).
Proof. apply TrimSpace_no_outer_space. Qed.

Lemma ParseCSV_loop_tail (i : nat) (records : list (list string))
    (names : list string) :
  ParseCSV_loop (S i) records names = names ++ first_cells records.
Proof.
  revert i names. induction records as [|rec records IH]; intros i names.
  - simpl. now rewrite app_nil_r.
  - destruct rec as [|c cols]; cbn [ParseCSV_loop Nat.eqb andb].
    + now rewrite IH.
    + rewrite IH. unfold first_cells. cbn [omap list_omap head].
      now rewrite <- app_assoc.
Qed.

Lemma ParseExercisesCSV_loop_tail (i : nat) (data : list (list string))
    (rows : list ExerciseUploadRow) :
  ParseExercisesCSV_loop (S i) data rows
  = rows ++ map to_row (List.filter has_six_columns data).
Proof.
  revert i rows. induction data as [|rec data IH]; intros i rows.
  - simpl. now rewrite app_nil_r.
  - destruct rec as [|r0 [|r1 [|r2 [|r3 [|r4 [|r5 tl]]]]]];
      cbn [ParseExercisesCSV_loop Nat.eqb List.filter has_six_columns
           length Nat.leb map];
      rewrite IH; try reflexivity.
    now rewrite <- app_assoc.
Qed.

End ParserFacts.

(** C4 (as stated, refuted).  For the list column made of the item A and
    of the item B wrapped in quote characters and preceded by a space, the
    second item comes out as a quote followed by B: the white space in front
    of the opening quote keeps that quote from being removed, so not every
    returned item is free of surrounding quote characters. *)
Lemma SplitAndTrim_keeps_quote_behind_space :
  ~ Forall Stated.stripped (Parser.SplitAndTrim Sample.quoted_after_space ";").
Proof.
  intros H.
  assert (E : Parser.SplitAndTrim Sample.quoted_after_space ";"
              = ["A"; String GoStrings.quote "B"]) by (vm_compute; reflexivity).
  rewrite E in H. apply Forall_cons_1 in H as [_ H].
  apply Forall_cons_1 in H as [(_ & _ & Hq) _].
  apply (Hq GoStrings.quote); [left|]; reflexivity.
Qed.

(** C4 (amended).  [SplitAndTrim] splits on the separator and returns, in
    order, every piece after removing first the quote characters at its two
    ends and then the white space at the two ends of what is left, leaving
    out the pieces that are empty after that.  No returned item is empty or
    starts or ends with white space, the white space of Unicode outside the
    ASCII range included; the list column [A; B ;;C] gives [A], [B], [C],
    and so does the column in which B stands between no-break spaces and
    the third item is an em space. *)
Theorem SplitAndTrim_quotes_then_space (s sep : string) :
  Parser.SplitAndTrim s sep
  = filter (fun p => p <> EmptyString) (Stated.trim_item <$> GoStrings.Split s sep)
  /\ Forall (fun p => p <> EmptyString /\ Stated.no_outer_space p)
            (Parser.SplitAndTrim s sep)
  /\ Parser.SplitAndTrim "A; B ;;C" ";" = ["A"; "B"; "C"]
  /\ Parser.SplitAndTrim Sample.wide_spaces ";" = ["A"; "B"; "C"].
Proof.
  assert (E : Parser.SplitAndTrim s sep
              = filter (fun p => p <> EmptyString)
                       (Stated.trim_item <$> GoStrings.Split s sep)).
  { unfold Parser.SplitAndTrim. now rewrite SplitAndTrim_loop_filter. }
  split; [exact E|]. split; [|split; vm_compute; reflexivity].
  rewrite E. apply List.Forall_forall. intros p Hp.
  apply list_elem_of_In in Hp. apply list_elem_of_filter in Hp as [Hne Hp].
  split; [exact Hne|].
  apply list_elem_of_fmap in Hp as (q & -> & _).
  apply trim_item_no_outer_space.
Qed.

(** C3 (as stated, refuted).  The first cell [NAME] equals [name] up to
    case, yet [ParseCSV] keeps the row as data. *)
Lemma ParseCSV_upper_case_header_kept :
  ~ Stated.header_by_fold ["NAME"] [["Biceps"]].
Proof.
  intros H. destruct (H "NAME" [] eq_refl) as [H1 _].
  specialize (H1 eq_refl). vm_compute in H1. discriminate H1.
Qed.

(** C3 (amended).  [ParseCSV] skips the first row if and only if that row is
    empty or its first cell is exactly [name] or [Name]; any other first
    row is data, and every non-empty row that is not skipped contributes
    its first column, in order. *)
Theorem ParseCSV_header_exact (fs : FS) (path : string)
    (first : list string) (rest : list (list string)) :
  ReadCSV fs path = Ok (first :: rest) ->
  Parser.ParseCSV fs path
  = Ok (Stated.first_cells (if Stated.is_header first then rest else first :: rest))
  /\ (Parser.ParseCSV fs path = Ok (Stated.first_cells rest)
      <-> Stated.is_header first = true \/ first = []).
Proof.
  intros Hread. unfold Parser.ParseCSV. rewrite Hread.
  assert (E : Parser.ParseCSV_loop 0 (first :: rest) []
              = Stated.first_cells
                  (if Stated.is_header first then rest else first :: rest)).
  { destruct first as [|c cols];
      cbn [Parser.ParseCSV_loop Nat.eqb andb Stated.is_header];
      [now rewrite ParseCSV_loop_tail|].
    destruct (String.eqb c "name" || String.eqb c "Name");
      now rewrite ParseCSV_loop_tail. }
  rewrite E. split; [reflexivity|]. split.
  - intros [= H]. destruct first as [|c cols]; [now right|left].
    destruct (Stated.is_header (c :: cols)); [reflexivity|].
    unfold Stated.first_cells in H. cbn [omap list_omap head] in H.
    apply (f_equal length) in H. simpl in H. lia.
  - intros [H | ->]; [now rewrite H|reflexivity].
Qed.

Lemma ParseCSV_header_exact_witness :
  Parser.ParseCSV Sample.files "src/internal/data/equipment.csv"
  = Ok ["Barbell"; "Dumbbell"; "Barbell"].
Proof.
  exact (proj1 (ParseCSV_header_exact Sample.files
                  "src/internal/data/equipment.csv"
                  ["name"] [["Barbell"]; ["Dumbbell"]; ["Barbell"]] eq_refl)).
Defined.

(** C2 (as stated, refuted).  A file that holds the header row and nothing
    else is parsed without error. *)
Lemma ParseExercisesCSV_header_only_accepted :
  ~ Stated.header_only_is_error Sample.files "src/internal/data/header_only.csv".
Proof.
  intros H. destruct (H Sample.header eq_refl) as [e He].
  vm_compute in He. discriminate He.
Qed.

(** C2 (amended).  [ParseExercisesCSV] returns the error [no records found]
    for an input without any record, header included; for every other
    input it returns rows and no error, and for an input made of the header
    row alone the row list is empty. *)
Theorem ParseExercisesCSV_no_records (fs : FS) (path : string)
    (records : list (list string)) :
  ReadCSV fs path = Ok records ->
  (records = [] -> Parser.ParseExercisesCSV fs path = Err "no records found")
  /\ (records <> [] -> is_ok (Parser.ParseExercisesCSV fs path) = true)
  /\ (forall header, records = [header] -> Parser.ParseExercisesCSV fs path = Ok []).
Proof.
  intros Hread. unfold Parser.ParseExercisesCSV. rewrite Hread.
  repeat split.
  - now intros ->.
  - destruct records; [congruence|reflexivity].
  - now intros header ->.
Qed.

Lemma ParseExercisesCSV_no_records_witness :
  Parser.ParseExercisesCSV Sample.files "src/internal/data/empty.csv"
  = Err "no records found"
  /\ Parser.ParseExercisesCSV Sample.files "src/internal/data/header_only.csv"
     = Ok [].
Proof.
  split.
  - exact (proj1 (ParseExercisesCSV_no_records Sample.files
                    "src/internal/data/empty.csv" [] eq_refl) eq_refl).
  - exact (proj2 (proj2 (ParseExercisesCSV_no_records Sample.files
                    "src/internal/data/header_only.csv" [Sample.header] eq_refl))
             Sample.header eq_refl).
Defined.

Lemma ParseExercisesCSV_records (fs : FS) (path : string)
    (header : list string) (data : list (list string)) :
  ReadCSV fs path = Ok (header :: data) ->
  Parser.ParseExercisesCSV fs path
  = Ok (map Stated.to_row (List.filter Stated.has_six_columns data)).
Proof.
  intros Hread. unfold Parser.ParseExercisesCSV. rewrite Hread.
  cbn [length Nat.ltb Nat.leb Parser.ParseExercisesCSV_loop Nat.eqb].
  now rewrite ParseExercisesCSV_loop_tail.
Qed.

Section CsvFacts.
Import Csv Stated.

Lemma ReadAll_loop_same_width (n : nat) (lexed : list (nat * list string))
    (records : list (list string)) :
  (0 < n)%nat ->
  forallb (fun rec => Nat.eqb (length rec) n) (map snd lexed) = true ->
  ReadAll_loop n lexed records = Ok (records ++ map snd lexed).
Proof.
  intros Hn. revert records.
  induction lexed as [|[line rec] lexed IH]; intros records Hall.
  - cbn. now rewrite app_nil_r.
  - cbn [map snd forallb] in Hall. apply andb_true_iff in Hall as [Hrec Hall].
    cbn [ReadAll_loop]. destruct (Nat.ltb_spec 0 n); [|lia].
    rewrite Hrec, IH by exact Hall. cbn [map snd]. now rewrite <- app_assoc.
Qed.

Lemma ReadAll_loop_ragged (n : nat) (lexed : list (nat * list string))
    (records : list (list string)) :
  (0 < n)%nat ->
  forallb (fun rec => Nat.eqb (length rec) n) (map snd lexed) = false ->
  exists bad, In bad (map fst lexed)
              /\ ReadAll_loop n lexed records = Err (ParseError bad ErrFieldCount).
Proof.
  intros Hn. revert records.
  induction lexed as [|[line rec] lexed IH]; intros records Hall;
    [discriminate|].
  cbn [map snd forallb] in Hall. cbn [ReadAll_loop map fst].
  destruct (Nat.ltb_spec 0 n); [|lia].
  destruct (Nat.eqb (length rec) n).
  - destruct (IH (records ++ [rec]) Hall) as (bad & Hin & E).
    exists bad. split; [now right|exact E].
  - exists line. split; [now left|reflexivity].
Qed.

Lemma same_width_six (header : list string) (data : list (list string)) :
  same_width header data = true ->
  List.filter has_six_columns data = if has_six_columns header then data else [].
Proof.
  unfold same_width. induction data as [|rec data IH]; intros Hall.
  - now destruct (has_six_columns header).
  - cbn [forallb] in Hall. apply andb_true_iff in Hall as [Hrec Hall].
    apply Nat.eqb_eq in Hrec. cbn [List.filter]. rewrite (IH Hall).
    unfold has_six_columns. rewrite Hrec.
    now destruct (6 <=? length header)%nat.
Qed.

End CsvFacts.

(** C7 (as stated, refuted).  In the file with the six-column header, the
    row Push-up, a row Plank of three fields and the row Squat, the short
    row is not silently dropped: the reader refuses the file at that row,
    and [ParseExercisesCSV] returns the error and no upload row, not even
    for the rows of six fields. *)
Lemma ParseExercisesCSV_refuses_short_row :
  ~ Stated.short_rows_dropped Cases.uploads "src/internal/data/ragged.csv".
Proof.
  intros H.
  specialize (H 1%nat Sample.header (tl Cases.ragged_lines) eq_refl).
  vm_compute in H. discriminate H.
Qed.

(** C7 (amended).  [ParseExercisesCSV] reads the file with a reader that
    requires of every record the number of fields of the first one.  When
    a record differs, the function returns the error of the reader, wrong
    number of fields, for the line of that record, and no row.  When all
    records have as many fields as the first, the first record is skipped
    whatever it holds and every other record with six columns or more gives
    one upload row, in order: all of them when the first record has six
    columns or more, none when it has fewer.  A short row under a header of
    six columns is thus never dropped silently. *)
Theorem ParseExercisesCSV_same_width_rows (fs : FS) (path : string)
    (line : nat) (header : list string) (rest : list (nat * list string)) :
  header <> [] ->
  ReadCSV fs path = Csv.ReadAll ((line, header) :: rest) ->
  (Stated.same_width header (map snd rest) = false ->
     exists bad, In bad (map fst rest)
       /\ Parser.ParseExercisesCSV fs path
          = Err (Csv.ParseError bad Csv.ErrFieldCount))
  /\ (Stated.same_width header (map snd rest) = true ->
      Parser.ParseExercisesCSV fs path
      = Ok (map Stated.to_row (List.filter Stated.has_six_columns (map snd rest)))
      /\ ((6 <= length header)%nat ->
          Parser.ParseExercisesCSV fs path = Ok (map Stated.to_row (map snd rest)))
      /\ ((length header < 6)%nat -> Parser.ParseExercisesCSV fs path = Ok [])).
Proof.
  intros Hne Hread.
  assert (Hlen : (0 < length header)%nat)
    by (destruct header; [congruence|simpl; lia]).
  unfold Csv.ReadAll in Hread. cbn [Csv.ReadAll_loop Nat.ltb Nat.leb app] in Hread.
  split; intros Hw.
  - destruct (ReadAll_loop_ragged (length header) rest [header] Hlen Hw)
      as (bad & Hin & E).
    exists bad. split; [exact Hin|].
    unfold Parser.ParseExercisesCSV. now rewrite Hread, E.
  - rewrite (ReadAll_loop_same_width (length header) rest [header] Hlen Hw)
      in Hread.
    cbn [app] in Hread.
    rewrite (ParseExercisesCSV_records fs path header (map snd rest) Hread).
    split; [reflexivity|].
    rewrite (same_width_six header (map snd rest) Hw).
    unfold Stated.has_six_columns.
    split; intros H6; destruct (Nat.leb_spec 6 (length header));
      (reflexivity || lia).
Qed.

Lemma ParseExercisesCSV_same_width_rows_witness :
  (exists rows,
     Parser.ParseExercisesCSV Cases.uploads "src/internal/data/exercises.csv"
     = Ok rows
     /\ map Parser.Name rows = ["Push-up"; "Squat"]
     /\ map Parser.Description rows = ["A bodyweight exercise"; "Leg exercise"]
     /\ map Parser.Muscles rows = [["Chest"; "Triceps"]; ["Quadriceps"; "Glutes"]])
  /\ Parser.ParseExercisesCSV Cases.uploads "src/internal/data/short.csv" = Ok []
  /\ exists bad,
       In bad [2%nat; 3%nat; 4%nat]
       /\ Parser.ParseExercisesCSV Cases.uploads "src/internal/data/ragged.csv"
          = Err (Csv.ParseError bad Csv.ErrFieldCount).
Proof.
  split; [|split].
  - eexists. split.
    + exact (proj1 (proj2 (ParseExercisesCSV_same_width_rows Cases.uploads
                      "src/internal/data/exercises.csv" 1%nat Sample.header
                      (tl Cases.exercise_lines) ltac:(discriminate) eq_refl)
                      eq_refl)).
    + repeat split; vm_compute; reflexivity.
  - apply (proj2 (proj2 (ParseExercisesCSV_same_width_rows Cases.uploads
                    "src/internal/data/short.csv" 1%nat
                    ["Name"; "Description"; "Category"]
                    (tl Cases.short_lines) ltac:(discriminate) eq_refl)
                    eq_refl)).
    simpl. lia.
  - exact (proj1 (ParseExercisesCSV_same_width_rows Cases.uploads
                    "src/internal/data/ragged.csv" 1%nat Sample.header
                    (tl Cases.ragged_lines) ltac:(discriminate) eq_refl)
             eq_refl).
Defined.

(** ** The repository layer *)

Section RepoFacts.
Context {St : Type} `{!Server St}.
Import Repo Views.

Lemma call_eq (q : Call) (c : Conn St) :
  call q c = ((serve (server c) q).1,
              MkConn (serve (server c) q).2 (calls c ++ [q])).
Proof. unfold call. now destruct (serve (server c) q). Qed.

Lemma bind_eq {A B} (m : DBM St A) (k : A -> DBM St B) (c : Conn St) :
  bind m k c = k (m c).1 (m c).2.
Proof. unfold bind. now destruct (m c). Qed.

Lemma InsertNamesToDB_cons (query name : string) (rest : list string)
    (c : Conn St) :
  InsertNamesToDB query (name :: rest) c
  = match (serve (server c) (DBExec query [AStr name])).1 with
    | Err e => (Some e, (call (DBExec query [AStr name]) c).2)
    | Ok _ => InsertNamesToDB query rest (call (DBExec query [AStr name]) c).2
    end.
Proof.
  cbn [InsertNamesToDB]. rewrite bind_eq, call_eq. cbn [fst snd].
  now destruct (serve (server c) (DBExec query [AStr name])).1.
Qed.

Lemma InsertNamesToDB_run (query : string) (pre : list string) (c : Conn St) :
  Forall (fun r => is_ok r = true)
         (serve_all (server c) (name_calls query pre)).1 ->
  forall rest,
    InsertNamesToDB query (pre ++ rest) c
    = InsertNamesToDB query rest
        (MkConn (serve_all (server c) (name_calls query pre)).2
                (calls c ++ name_calls query pre)).
Proof.
  revert c. induction pre as [|n pre IH]; intros c Hok rest.
  - cbn. rewrite app_nil_r. now destruct c.
  - cbn [name_calls map serve_all] in Hok |- *.
    fold (name_calls query pre) in Hok |- *.
    rewrite <- app_comm_cons, InsertNamesToDB_cons, call_eq.
    destruct (serve (server c) (DBExec query [AStr n])) as [r s1] eqn:E1.
    destruct (serve_all s1 (name_calls query pre)) as [rs s2] eqn:E2.
    cbn [fst snd] in Hok |- *.
    apply Forall_cons_1 in Hok as [Hr Hrs].
    destruct r as [v|e]; [|discriminate Hr].
    rewrite IH; cbn [server calls]; rewrite E2; cbn [fst snd]; [|exact Hrs].
    now rewrite <- app_assoc.
Qed.

End RepoFacts.

(** C5.  [InsertNamesToDB] executes one insert statement per name, in the
    order of the input and outside any transaction.  When no statement
    fails it returns nil after the statement of the last name.  When the
    statement of a name fails after those of the names before it succeeded,
    it returns that error at once: the statements of the later names are
    not executed, and the database is in the state that the executed
    statements left, so what the earlier ones inserted stays. *)
Theorem InsertNamesToDB_stops_at_first_error {St : Type} `{!Server St}
    (query : string) (pre : list string) (c : Conn St) :
  Forall (fun r => is_ok r = true)
         (serve_all (server c) (Views.name_calls query pre)).1 ->
  let s1 := (serve_all (server c) (Views.name_calls query pre)).2 in
  Repo.InsertNamesToDB query pre c
  = (None, MkConn s1 (calls c ++ Views.name_calls query pre))
  /\ forall n post e,
       (serve s1 (DBExec query [AStr n])).1 = Err e ->
       Repo.InsertNamesToDB query (pre ++ n :: post) c
       = (Some e, MkConn (serve s1 (DBExec query [AStr n])).2
                         (calls c ++ Views.name_calls query (pre ++ [n]))).
Proof.
  intros Hok s1. split.
  - rewrite <- (app_nil_r pre) at 1. now rewrite InsertNamesToDB_run.
  - intros n post e Hn.
    rewrite InsertNamesToDB_run by exact Hok. fold s1.
    rewrite InsertNamesToDB_cons, call_eq. cbn [server calls fst snd].
    rewrite Hn. unfold Views.name_calls. rewrite map_app. cbn [map].
    now rewrite app_assoc.
Qed.

Lemma InsertNamesToDB_stops_at_first_error_witness :
  let out := Repo.InsertNamesToDB Repo.InsertEquipmentQuery
               Sample.equipment_names (Pg.start (Pg.empty_schema 12)) in
  out.1 = Some Pg.too_long
  /\ length (calls out.2) = 4%nat
  /\ (fun rows : gmap string Z =>
        (rows !! "Barbell", rows !! "Dumbbell", rows !! "Kettlebell"))
       <$> Pg.names_of (Pg.committed (server out.2)) "equipment"
     = Some (Some 1, Some 2, None).
Proof.
  pose proof (InsertNamesToDB_stops_at_first_error (St := Pg.State)
                Repo.InsertEquipmentQuery ["Barbell"; "Dumbbell"; "Barbell"]
                (Pg.start (Pg.empty_schema 12))) as H.
  destruct H as [_ H].
  - vm_compute. repeat constructor.
  - specialize (H "Adjustable bench" ["Kettlebell"] Pg.too_long).
    cbv zeta. change Sample.equipment_names
      with (["Barbell"; "Dumbbell"; "Barbell"] ++ "Adjustable bench" :: ["Kettlebell"]).
    rewrite H by (vm_compute; reflexivity).
    split; [reflexivity|]. split; [reflexivity|].
    vm_compute. reflexivity.
Defined.

(** ** The store *)

Section PgFacts.
Import Repo Views.

Lemma strip_prefix_app (p s : string) : Pg.strip_prefix p (p +:+ s) = Some s.
Proof.
  induction p as [|a p IH]; [reflexivity|].
  change (String a p +:+ s) with (String a (p +:+ s)).
  cbn [Pg.strip_prefix]. now rewrite Ascii.eqb_refl.
Qed.

Lemma parse_CountQuery (table : string) :
  Pg.parse (CountQuery table) = Some (Pg.CountRows table).
Proof.
  unfold Pg.parse.
  replace (String.eqb (CountQuery table) UpsertExerciseQuery) with false
    by reflexivity.
  replace (String.eqb (CountQuery table) LinkEquipmentQuery) with false
    by reflexivity.
  replace (String.eqb (CountQuery table) LinkTypeQuery) with false
    by reflexivity.
  replace (String.eqb (CountQuery table) LinkMuscleQuery) with false
    by reflexivity.
  unfold CountQuery. now rewrite strip_prefix_app.
Qed.

Lemma parse_name_upload (q t : string) :
  In (q, t) name_uploads -> Pg.parse q = Some (Pg.InsertName t).
Proof.
  unfold name_uploads. cbn [In].
  intros [H|[H|[H|[H|[]]]]]; injection H as <- <-; vm_compute; reflexivity.
Qed.

Lemma Pg_GetTableCount (table : string) (c : Conn Pg.State) :
  GetTableCount table c
  = (from_option row_count 0 (Pg.committed (server c) !! table),
     MkConn (server c) (calls c ++ [DBQueryRow (CountQuery table) []])).
Proof.
  unfold GetTableCount. rewrite bind_eq, call_eq. unfold ret. cbn [fst snd].
  unfold serve, Pg.pg_server, Pg.step, Pg.run. rewrite parse_CountQuery.
  cbn [Pg.exec]. destruct c as [[tabs pend] log]. cbn [server Pg.committed Pg.pending].
  destruct (tabs !! table) as [[rows ser w|rows ser|rows]|]; reflexivity.
Qed.

End PgFacts.

(** C9.  [GetTableCount] returns an integer and no error.  Whatever the
    server is, a count query answered with an error gives 0 and a count
    query answered with a number gives that number; on the store, the
    number is the count of the rows of the table, and a table that does not
    exist counts as 0. *)
Theorem GetTableCount_swallows_errors :
  (forall (St : Type) (srv : Server St) (table : string) (c : Conn St),
     let answer := (serve (server c) (DBQueryRow (Repo.CountQuery table) [])).1 in
     (forall e, answer = Err e -> (Repo.GetTableCount table c).1 = 0)
     /\ (forall n, answer = Ok n -> (Repo.GetTableCount table c).1 = n))
  /\ (forall (table : string) (c : Conn Pg.State),
        (forall tab, Pg.committed (server c) !! table = Some tab ->
           (Repo.GetTableCount table c).1 = Views.row_count tab)
        /\ (Pg.committed (server c) !! table = None ->
              (Repo.GetTableCount table c).1 = 0)).
Proof.
  split.
  - intros St srv table c answer.
    assert (E : (Repo.GetTableCount table c).1
                = match answer with Ok n => n | Err _ => 0 end).
    { unfold Repo.GetTableCount. rewrite bind_eq, call_eq. reflexivity. }
    rewrite E. split; intros x Hx; now rewrite Hx.
  - intros table c. rewrite Pg_GetTableCount. cbn [fst].
    split; [intros tab H|intros H]; now rewrite H.
Qed.

Lemma GetTableCount_swallows_errors_witness :
  let c := (Repo.InsertNamesToDB Repo.InsertEquipmentQuery
              ["Barbell"; "Dumbbell"; "Barbell"] (Pg.start (Pg.empty_schema 12))).2 in
  (Repo.GetTableCount "equipment" c).1 = 2
  /\ (Repo.GetTableCount "equipments" c).1 = 0.
Proof.
  intros c. split.
  - exact (proj2 (proj1 GetTableCount_swallows_errors Pg.State Pg.pg_server
                    "equipment" c) 2 eq_refl).
  - exact (proj1 (proj1 GetTableCount_swallows_errors Pg.State Pg.pg_server
                    "equipments" c) (Pg.no_relation "equipments") eq_refl).
Defined.

Section InsertIgnoreFacts.
Import Repo Views.
Variable t : string.

Lemma extends_refl (tabs : gmap string Pg.Table) : extends t tabs tabs.
Proof.
  unfold extends. destruct (tabs !! t) as [[rows ser w|rows ser|rows]|]; auto.
Qed.

Lemma extends_trans (a b c : gmap string Pg.Table) :
  extends t a b -> extends t b c -> extends t a c.
Proof.
  unfold extends.
  destruct (a !! t) as [[ra sa wa|ra sa|ra]|];
    destruct (b !! t) as [[rb sb wb|rb sb|rb]|];
    destruct (c !! t) as [[rc sc wc|rc sc|rc]|]; try tauto.
  intros [-> Hab] [-> Hbc]. split; [reflexivity|]. auto.
Qed.

(** A statement that went through has nothing left to do on any later
    state of the table. *)
Lemma insert_ok_settled (n : string) (tabs tabs' : gmap string Pg.Table) (v : Z) :
  Pg.exec (Pg.InsertName t) [AStr n] tabs = Ok (v, tabs') ->
  extends t tabs tabs'
  /\ forall r, extends t tabs' r ->
       Pg.exec (Pg.InsertName t) [AStr n] r = Ok (0, r).
Proof.
  cbn [Pg.exec]. unfold extends.
  destruct (tabs !! t) as [[rows ser w|rows ser|rows]|] eqn:Ht; try discriminate.
  destruct (w <? String.length n)%nat eqn:Hw; [discriminate|].
  destruct (rows !! n) as [id|] eqn:Hn; intros [= <- <-].
  - rewrite Ht. split; [auto|].
    intros r. destruct (r !! t) as [[rows' ser' w'|rows' ser'|rows']|]; try tauto.
    intros [<- Hsub]. rewrite Hw.
    destruct (Hsub n) as [id' ->]; [now exists id|reflexivity].
  - rewrite lookup_insert_eq. split.
    + split; [reflexivity|]. intros m [x Hx].
      destruct (decide (n = m)) as [->|Hne].
      * rewrite lookup_insert_eq. now eexists.
      * rewrite lookup_insert_ne by exact Hne. now exists x.
    + intros r. destruct (r !! t) as [[rows' ser' w'|rows' ser'|rows']|]; try tauto.
      intros [<- Hsub]. rewrite Hw.
      destruct (Hsub n) as [id' ->]; [|reflexivity].
      rewrite lookup_insert_eq. now eexists.
Qed.

(** A statement that was refused is refused in the same way later. *)
Lemma insert_err_settled (n : string) (tabs : gmap string Pg.Table) (e : error) :
  Pg.exec (Pg.InsertName t) [AStr n] tabs = Err e ->
  forall r, extends t tabs r -> Pg.exec (Pg.InsertName t) [AStr n] r = Err e.
Proof.
  cbn [Pg.exec]. unfold extends.
  destruct (tabs !! t) as [[rows ser w|rows ser|rows]|] eqn:Ht.
  - destruct (w <? String.length n)%nat eqn:Hw.
    + intros [= <-] r.
      destruct (r !! t) as [[rows' ser' w'|rows' ser'|rows']|]; try tauto.
      intros [<- _]. now rewrite Hw.
    + destruct (rows !! n); discriminate.
  - intros [= <-] r.
    destruct (r !! t) as [[rows' ser' w'|rows' ser'|rows']|]; tauto.
  - intros [= <-] r.
    destruct (r !! t) as [[rows' ser' w'|rows' ser'|rows']|]; tauto.
  - intros [= <-] r.
    destruct (r !! t) as [[rows' ser' w'|rows' ser'|rows']|]; tauto.
Qed.

Lemma insert_names_settled (names : list string) (tabs : gmap string Pg.Table) :
  extends t tabs (insert_names t names tabs).2
  /\ forall r, extends t (insert_names t names tabs).2 r ->
       insert_names t names r = ((insert_names t names tabs).1, r).
Proof.
  revert tabs. induction names as [|n names IH]; intros tabs.
  - cbn. split; [apply extends_refl|reflexivity].
  - cbn [insert_names].
    destruct (Pg.exec (Pg.InsertName t) [AStr n] tabs) as [[v tabs']|e] eqn:E.
    + destruct (insert_ok_settled _ _ _ _ E) as [H1 H2].
      destruct (IH tabs') as [H3 H4]. split.
      * eapply extends_trans; eassumption.
      * intros r Hr. rewrite H2 by (eapply extends_trans; eassumption).
        now apply H4.
    + cbn [fst snd]. split; [apply extends_refl|].
      intros r Hr. now rewrite (insert_err_settled _ _ _ E r Hr).
Qed.

Lemma insert_names_twice (names : list string) (tabs : gmap string Pg.Table) :
  insert_names t names (insert_names t names tabs).2
  = insert_names t names tabs.
Proof.
  destruct (insert_names_settled names tabs) as [_ H].
  rewrite (H _ (extends_refl _)). now destruct (insert_names t names tabs).
Qed.

(** [InsertNamesToDB] on the store is [insert_names] on the committed
    tables; the open transaction, if any, is not involved. *)
Lemma Pg_InsertNamesToDB (q : string) (names : list string) (c : Conn Pg.State) :
  Pg.parse q = Some (Pg.InsertName t) ->
  (InsertNamesToDB q names c).1 = (insert_names t names (Pg.committed (server c))).1
  /\ Pg.committed (server (InsertNamesToDB q names c).2)
     = (insert_names t names (Pg.committed (server c))).2
  /\ Pg.pending (server (InsertNamesToDB q names c).2) = Pg.pending (server c).
Proof.
  intros Hq. revert c. induction names as [|n names IH]; intros c.
  - cbn. auto.
  - rewrite InsertNamesToDB_cons, call_eq. cbn [insert_names fst snd].
    unfold serve, Pg.pg_server, Pg.step, Pg.run. rewrite Hq.
    destruct (Pg.exec (Pg.InsertName t) [AStr n] (Pg.committed (server c)))
      as [[v tabs']|e] eqn:E; cbn [fst snd server].
    + destruct (IH (MkConn (Pg.MkState tabs' (Pg.pending (server c)) (Pg.failed (server c)))
                           (calls c ++ [DBExec q [AStr n]]))) as (H1 & H2 & H3).
      cbn [server Pg.committed Pg.pending] in H1, H2, H3. auto.
    + auto.
Qed.

End InsertIgnoreFacts.

(** C6.  Uploading the same name list a second time with one of the four
    insert-or-ignore statements leaves the committed tables as the first
    upload left them: no row is created, the rows of the table are the same
    after one run and after two, the second run ends as the first did, and
    the count of the table is unchanged. *)
Theorem InsertNamesToDB_twice_same_rows (q t : string) (names : list string)
    (c : Conn Pg.State) :
  In (q, t) Views.name_uploads ->
  let once := Repo.InsertNamesToDB q names c in
  let twice := Repo.InsertNamesToDB q names once.2 in
  Pg.committed (server twice.2) = Pg.committed (server once.2)
  /\ Pg.names_of (Pg.committed (server twice.2)) t
     = Pg.names_of (Pg.committed (server once.2)) t
  /\ twice.1 = once.1
  /\ (Repo.GetTableCount t twice.2).1 = (Repo.GetTableCount t once.2).1.
Proof.
  intros Hin once twice. apply parse_name_upload in Hin.
  destruct (Pg_InsertNamesToDB t q names c Hin) as (H1 & H2 & _).
  destruct (Pg_InsertNamesToDB t q names once.2 Hin) as (H3 & H4 & _).
  fold once in H1, H2. fold twice in H3, H4.
  rewrite H2, insert_names_twice in H3, H4. rewrite <- H2 in H4.
  assert (E : Pg.committed (server twice.2) = Pg.committed (server once.2))
    by exact H4.
  split; [exact E|]. split; [now rewrite E|]. split; [congruence|].
  rewrite !Pg_GetTableCount. cbn [fst]. now rewrite E.
Qed.

Lemma InsertNamesToDB_twice_same_rows_witness :
  let once := Repo.InsertNamesToDB Repo.InsertEquipmentQuery
                ["Barbell"; "Dumbbell"; "Barbell"] (Pg.start (Pg.empty_schema 12)) in
  let twice := Repo.InsertNamesToDB Repo.InsertEquipmentQuery
                 ["Barbell"; "Dumbbell"; "Barbell"] once.2 in
  (Repo.GetTableCount "equipment" once.2).1 = 2
  /\ (Repo.GetTableCount "equipment" twice.2).1 = 2
  /\ Pg.committed (server twice.2) = Pg.committed (server once.2).
Proof.
  intros once twice.
  pose proof (InsertNamesToDB_twice_same_rows Repo.InsertEquipmentQuery
                "equipment" ["Barbell"; "Dumbbell"; "Barbell"]
                (Pg.start (Pg.empty_schema 12))) as H.
  destruct H as (H1 & _ & _ & H4).
  - cbn. do 3 right. left. reflexivity.
  - fold once in H1, H4. fold twice in H1, H4.
    split; [vm_compute; reflexivity|]. split; [|exact H1].
    rewrite H4. vm_compute. reflexivity.
Defined.

(** ** The exercise batch *)

Section BatchFacts.
Context {St : Type} `{!Server St}.
Import Repo Views Parser.

Lemma only_refl (c : Conn St) : only_statements c c.
Proof. exists []. split; [now rewrite app_nil_r|constructor]. Qed.

Lemma only_trans (a b c : Conn St) :
  only_statements a b -> only_statements b c -> only_statements a c.
Proof.
  intros (l1 & E1 & F1) (l2 & E2 & F2). exists (l1 ++ l2). split.
  - now rewrite E2, E1, app_assoc.
  - now apply Forall_app.
Qed.

Lemma only_call (q : Call) (c : Conn St) :
  is_statement q = true -> only_statements c (call q c).2.
Proof.
  intros Hq. exists [q]. rewrite call_eq. split; [reflexivity|].
  now repeat constructor.
Qed.

Lemma only_get_or_insert (query name : string) (c : Conn St) :
  only_statements c (get_or_insert query name c).2.
Proof.
  unfold get_or_insert. rewrite bind_eq. unfold ret. cbn [snd].
  now apply only_call.
Qed.

(** A loop that looks up an id and links it to the exercise. *)
Ltac link_step IH lookup query :=
  rewrite bind_eq;
  match goal with
  | |- context [lookup ?n ?c] =>
      let H := fresh "H" in
      pose proof (only_get_or_insert query n c) as H;
      change (get_or_insert _ n c) with (lookup n c) in H;
      destruct (lookup n c) as [[id [err|]] c1]; cbn [fst snd] in H |- *;
      [exact H|];
      rewrite bind_eq;
      match goal with
      | |- context [call ?q c1] =>
          let K := fresh "K" in
          pose proof (only_call q c1 eq_refl) as K;
          destruct (call q c1) as [[v|err] c2]; cbn [fst snd] in K |- *;
          [eapply only_trans; [exact H|]; eapply only_trans; [exact K|]; apply IH
          |eapply only_trans; [exact H|exact K]]
      end
  end.

Lemma only_equipment_loop (exID : Z) (l : list string) (c : Conn St) :
  only_statements c (equipment_loop exID l c).2.
Proof.
  revert c. induction l as [|e l IH]; intros c; [apply only_refl|].
  cbn [equipment_loop].
  destruct (String.eqb (GoStrings.TrimSpace e) EmptyString
            || GoStrings.EqualFold (GoStrings.TrimSpace e) "None");
    [apply IH|].
  link_step IH GetOrInsertEquipment GetOrInsertEquipmentQuery.
Qed.

Lemma only_types_loop (exID : Z) (l : list string) (c : Conn St) :
  only_statements c (types_loop exID l c).2.
Proof.
  revert c. induction l as [|e l IH]; intros c; [apply only_refl|].
  cbn [types_loop]. link_step IH GetOrInsertType GetOrInsertTypeQuery.
Qed.

Lemma only_muscles_loop (exID : Z) (l : list string) (c : Conn St) :
  only_statements c (muscles_loop exID l c).2.
Proof.
  revert c. induction l as [|e l IH]; intros c; [apply only_refl|].
  cbn [muscles_loop]. link_step IH GetOrInsertMuscle GetOrInsertMuscleQuery.
Qed.

Lemma only_insert_row (row : ExerciseUploadRow) (c : Conn St) :
  only_statements c (insert_row row c).2.
Proof.
  unfold insert_row. rewrite bind_eq.
  pose proof (only_get_or_insert GetOrInsertCategoryQuery (Category row) c) as H.
  change (get_or_insert _ (Category row) c)
    with (GetOrInsertCategory (Category row) c) in H.
  destruct (GetOrInsertCategory (Category row) c) as [[catID [err|]] c1];
    cbn [fst snd] in H |- *; [exact H|].
  rewrite bind_eq.
  match goal with
  | |- context [call ?q c1] =>
      pose proof (only_call q c1 eq_refl) as K;
      destruct (call q c1) as [[exID|err] c2]; cbn [fst snd] in K |- *
  end; [|eapply only_trans; eassumption].
  rewrite bind_eq.
  pose proof (only_equipment_loop exID (Equipment row) c2) as K1.
  destruct (equipment_loop exID (Equipment row) c2) as [[err|] c3];
    cbn [fst snd] in K1 |- *;
    [eapply only_trans; [exact H|]; eapply only_trans; eassumption|].
  rewrite bind_eq.
  pose proof (only_types_loop exID (Types row) c3) as K2.
  destruct (types_loop exID (Types row) c3) as [[err|] c4];
    cbn [fst snd] in K2 |- *.
  - repeat (eapply only_trans; [eassumption|]). apply only_refl.
  - repeat (eapply only_trans; [eassumption|]). apply only_muscles_loop.
Qed.

Lemma only_rows_loop (rows : list ExerciseUploadRow) (c : Conn St) :
  only_statements c (rows_loop rows c).2.
Proof.
  revert c. induction rows as [|row rows IH]; intros c; [apply only_refl|].
  cbn [rows_loop]. rewrite bind_eq.
  pose proof (only_insert_row row c) as H.
  destruct (insert_row row c) as [[err|] c1]; cbn [fst snd] in H |- *;
    [exact H|].
  eapply only_trans; [exact H|apply IH].
Qed.

(** X7.  Once [db.Begin] has succeeded, every run of [InsertExercises]
    makes its calls in this order: [Begin], then statements on the
    transaction only, then [Commit] as the last call, whether the loop
    returned an error or not.  [Rollback] is never called, and the result
    is what the loop over the rows returned. *)
Lemma InsertExercises_always_commits (rows : list ExerciseUploadRow)
    (c : Conn St) (v : Z) :
  (serve (server c) DBBegin).1 = Ok v ->
  exists l,
    calls (InsertExercises rows c).2 = calls c ++ DBBegin :: l ++ [TxCommit]
    /\ Forall (fun q => is_statement q = true) l
    /\ (InsertExercises rows c).1 = (rows_loop rows (call DBBegin c).2).1.
Proof.
  intros Hb. unfold InsertExercises. rewrite bind_eq.
  assert (Hc : calls (call DBBegin c).2 = calls c ++ [DBBegin])
    by now rewrite call_eq.
  assert (Hr : (call DBBegin c).1 = Ok v) by now rewrite call_eq.
  destruct (call DBBegin c) as [b c0]. cbn [fst snd] in Hc, Hr |- *. subst b.
  rewrite bind_eq.
  destruct (only_rows_loop rows c0) as (l & El & Fl).
  exists l. rewrite bind_eq. unfold deferred, ret. cbn [fst snd].
  rewrite call_eq. cbn [snd calls]. rewrite El, Hc.
  split; [|split; [exact Fl|reflexivity]].
  now rewrite <- !app_assoc.
Qed.

End BatchFacts.

(** ** The menu *)

Ltac decide_keys :=
  repeat match goal with
         | |- context [Menu.key_in ?k ?l] =>
             let b := eval vm_compute in (Menu.key_in k l) in
             change (Menu.key_in k l) with b
         end;
  cbv iota.

Section MenuFacts.
Context {St : Type} `{!Server St}.
Import Menu Views.

Lemma key_in_two (key a b : string) :
  key_in key [a; b] = true -> key = a \/ key = b.
Proof.
  unfold key_in. cbn [existsb]. rewrite orb_false_r.
  intros [H|H]%orb_true_iff; apply String.eqb_eq in H; auto.
Qed.

Lemma wrap_small (n : Z) : - 2 ^ 63 <= n < 2 ^ 63 -> wrap n = n.
Proof. intros H. unfold wrap. rewrite Z.mod_small; lia. Qed.

Lemma refreshCounts_counts (m : model) (c : Conn St) :
  exists l, (refreshCounts m c).1 = set_counts l m.
Proof.
  unfold refreshCounts. rewrite !bind_eq. unfold ret. cbn [fst].
  eexists. reflexivity.
Qed.

Lemma inv_other (m : model) : state m <> stateFileSelector -> selector_inv m.
Proof. intros H Hs. contradiction. Qed.

Lemma listDataFiles_loop_length (entries : list DirEntry) (files : list string) :
  (length (listDataFiles_loop entries files) <= length files + length entries)%nat.
Proof.
  revert files. induction entries as [|e entries IH]; intros files.
  - cbn. lia.
  - cbn [listDataFiles_loop length].
    destruct (entry_is_dir e); [specialize (IH files); lia|].
    destruct (supportedExts _).
    + specialize (IH (files ++ [entry_name e])).
      rewrite length_app in IH. cbn [length] in IH. lia.
    + specialize (IH files). lia.
Qed.

Lemma listDataFiles_fits (fs : FS) (files : list string) :
  listing_fits fs -> listDataFiles fs = Ok files -> len files < 2 ^ 63 - 1.
Proof.
  unfold listing_fits, listDataFiles.
  destruct (ReadDir fs) as [entries|e]; [|discriminate].
  intros Hfit [= <-]. unfold len in *.
  rewrite merge_sort_Permutation.
  pose proof (listDataFiles_loop_length entries []) as H. cbn [length] in H. lia.
Qed.

(** Every way out of [upload] is the result screen. *)
Lemma upload_shows_result (fs : FS) (m : model) (c : Conn St) :
  exists msg is_err, (upload fs m c).1 = Some (show msg is_err m, CmdNil).
Proof.
  unfold upload.
  match goal with
  | |- context [match ?p with Ok _ => _ | Err _ => _ end] => destruct p as [names|err]
  end; [|unfold ret; cbn [fst]; eauto].
  destruct (menuChoice m =? 4).
  - destruct (Parser.ParseExercisesCSV fs (selectedFile m)) as [rows|err];
      [|unfold ret; cbn [fst]; eauto].
    rewrite bind_eq.
    destruct (Repo.InsertExercises rows c).1; unfold ret; cbn [fst]; eauto.
  - rewrite bind_eq.
    match goal with
    | |- context [(Repo.InsertNamesToDB ?q ?n c).1] =>
        destruct (Repo.InsertNamesToDB q n c).1
    end; unfold ret; cbn [fst]; eauto.
Qed.

Lemma selector_inv_step (fs : FS) (m : model) (msg : Msg) (c : Conn St)
    (m' : model) (cmd : Cmd) :
  listing_fits fs -> selector_inv m ->
  (Update fs m msg c).1 = Some (m', cmd) -> selector_inv m'.
Proof.
  intros Hfit Hinv. unfold Update.
  destruct (state m) eqn:Hs.
  - (* the main menu *)
    unfold updateMenu. destruct msg as [key|];
      [|unfold ret; intros [= <- <-]; apply inv_other; congruence].
    destruct (key_in key ["up"; "k"]).
    { unfold ret. intros [= <- <-]. apply inv_other.
      destruct (0 <? menuChoice m); cbn; congruence. }
    destruct (key_in key ["down"; "j"]).
    { unfold ret. intros [= <- <-]. apply inv_other.
      destruct (menuChoice m <? len menuOptions - 1); cbn; congruence. }
    destruct (key_in key ["enter"]).
    { destruct (menuChoice m =? len menuOptions - 1).
      { unfold ret. intros [= <- <-]. apply inv_other. congruence. }
      destruct (listDataFiles fs) as [files|err] eqn:Hl.
      - unfold ret. intros [= <- <-]. intros _. cbn.
        pose proof (listDataFiles_fits fs files Hfit Hl) as Hlen.
        unfold len in *. rewrite last_snoc, length_app. cbn [length].
        repeat split; lia.
      - unfold ret. intros [= <- <-]. apply inv_other. cbn. congruence. }
    destruct (key_in key ["q"; "ctrl+c"]).
    { unfold ret. intros [= <- <-]. apply inv_other. congruence. }
    destruct (key_in key ["r"]).
    { rewrite bind_eq. unfold ret. cbn [fst].
      destruct (refreshCounts_counts m c) as [l ->].
      intros [= <- <-]. apply inv_other. cbn. congruence. }
    unfold ret. intros [= <- <-]. apply inv_other. congruence.
  - (* the file selector *)
    destruct (Hinv Hs) as (Hlast & Hrange & Hlen).
    unfold updateFileMenu. destruct msg as [key|];
      [|unfold ret; intros [= <- <-]; exact Hinv].
    destruct (key_in key ["up"; "k"]).
    { unfold ret. intros [= <- <-].
      destruct (0 <? fileChoice m) eqn:Hpos; [|exact Hinv].
      apply Z.ltb_lt in Hpos. intros _. cbn.
      unfold decr. rewrite wrap_small by lia. repeat split; auto; lia. }
    destruct (key_in key ["down"; "j"]).
    { unfold ret. intros [= <- <-].
      destruct (fileChoice m <? len (fileList m) - 1) eqn:Hlt; [|exact Hinv].
      apply Z.ltb_lt in Hlt. intros _. cbn.
      unfold incr. rewrite wrap_small by lia. repeat split; auto; lia. }
    destruct (key_in key ["q"; "esc"]).
    { unfold ret. intros [= <- <-]. apply inv_other. cbn. congruence. }
    destruct (key_in key ["enter"]).
    { destruct (index (fileList m) (fileChoice m)) as [file|];
        [|unfold ret; discriminate].
      destruct (String.eqb file "Back").
      - unfold ret. intros [= <- <-]. apply inv_other. cbn. congruence.
      - match goal with
        | |- context [upload fs ?x c] =>
            destruct (upload_shows_result fs x c) as (s & b & ->)
        end.
        intros [= <- <-]. apply inv_other. cbn. congruence. }
    unfold ret. intros [= <- <-]. exact Hinv.
  - (* the result screen *)
    destruct msg as [key|];
      [|unfold ret; intros [= <- <-]; apply inv_other; congruence].
    destruct (String.eqb key "enter" || String.eqb key "q" || String.eqb key "esc").
    + rewrite bind_eq. unfold ret. cbn [fst].
      match goal with
      | |- context [refreshCounts ?x c] =>
          destruct (refreshCounts_counts x c) as [l ->]
      end.
      intros [= <- <-]. apply inv_other. cbn. congruence.
    + unfold ret. intros [= <- <-]. apply inv_other. congruence.
Qed.

Lemma reachable_selector_inv (m : model) :
  reachable (St := St) m -> selector_inv m.
Proof.
  induction 1 as [c|fs m msg c m' cmd _ IH Hfit Hstep].
  - unfold initialModel. destruct (refreshCounts_counts
      (MkModel stateMenu 0 [] 0 EmptyString EmptyString false []) c) as [l ->].
    apply inv_other. cbn. congruence.
  - eapply selector_inv_step; eassumption.
Qed.

Lemma index_in_range {A} (l : list A) (i : Z) :
  0 <= i < len l -> exists x, index l i = Some x.
Proof.
  intros [H0 H1]. unfold index, len in *.
  destruct (Z.ltb_spec i 0); [lia|].
  apply lookup_lt_is_Some. lia.
Qed.

End MenuFacts.

(** C8.  In the menu and in the file selector, a key that moves the
    highlight up does nothing when the index is 0, and a key that moves it
    down does nothing when the index is the last position of the list: the
    model, the command (none) and the database are as before.  The index is
    clamped, it does not wrap around. *)
Theorem navigation_clamps {St : Type} `{!Server St} (fs : FS)
    (m : Menu.model) (key : string) (c : Conn St) :
  Views.at_bound m key ->
  Menu.Update fs m (Menu.KeyMsg key) c = (Some (m, Menu.CmdNil), c).
Proof.
  intros [m0 k Hs Hc Hk|m0 k Hs Hc Hk|m0 k Hs Hc Hk|m0 k Hs Hc Hk];
    apply key_in_two in Hk as [-> | ->];
    unfold Menu.Update; rewrite Hs;
    unfold Menu.updateMenu, Menu.updateFileMenu; decide_keys;
    rewrite ?Hc, ?Z.ltb_irrefl; reflexivity.
Qed.

Lemma navigation_clamps_witness :
  Menu.Update Sample.files Sample.at_start (Menu.KeyMsg "up") Sample.fresh
  = (Some (Sample.at_start, Menu.CmdNil), Sample.fresh)
  /\ Menu.Update Sample.files Sample.at_back (Menu.KeyMsg "j") Sample.fresh
     = (Some (Sample.at_back, Menu.CmdNil), Sample.fresh).
Proof.
  split.
  - apply navigation_clamps. apply Views.top_of_menu; reflexivity.
  - apply navigation_clamps. apply Views.bottom_of_files; reflexivity.
Defined.

(** C10.  Whenever the program is in the file selector, the file list is
    not empty and ends with the entry Back, the index [fileChoice] lies
    between 0 and the last position of the list, and the read
    [fileList[fileChoice]] made on enter is in range. *)
Theorem file_selector_index_in_range {St : Type} `{!Server St} (m : Menu.model) :
  Menu.reachable (St := St) m ->
  Menu.state m = Menu.stateFileSelector ->
  Menu.fileList m <> []
  /\ last (Menu.fileList m) = Some "Back"
  /\ 0 <= Menu.fileChoice m <= len (Menu.fileList m) - 1
  /\ exists file, index (Menu.fileList m) (Menu.fileChoice m) = Some file.
Proof.
  intros Hreach Hs.
  destruct (reachable_selector_inv m Hreach Hs) as (Hlast & Hrange & _).
  split; [intros E; rewrite E in Hlast; discriminate|].
  split; [exact Hlast|]. split; [lia|].
  now apply index_in_range.
Qed.

Lemma file_selector_index_in_range_witness :
  let m := Menu.MkModel Menu.stateFileSelector 0
             ["equipment.csv"; "muscles.json"; "Back"] 0
             EmptyString EmptyString false [0; 0; 0; 0; 0] in
  Menu.reachable (St := Pg.State) m
  /\ index (Menu.fileList m) (Menu.fileChoice m) = Some "equipment.csv"
  /\ last (Menu.fileList m) = Some "Back".
Proof.
  intros m.
  assert (Hm : Menu.reachable (St := Pg.State) m).
  { apply (Menu.reach_step Sample.files (Menu.initialModel Sample.fresh).1
             (Menu.KeyMsg "enter") Sample.fresh m Menu.CmdNil).
    - apply Menu.reach_init.
    - unfold Menu.listing_fits. vm_compute. reflexivity.
    - vm_compute. reflexivity. }
  split; [exact Hm|].
  destruct (file_selector_index_in_range m Hm eq_refl) as (_ & Hlast & _ & file & Hf).
  split; [|exact Hlast].
  rewrite Hf. vm_compute in Hf. exact (eq_sym Hf).
Defined.

(** X17.  No step of a model that the program can reach ends in a
    run-time panic, whatever the message, the files and the database
    are. *)
Lemma Update_never_panics {St : Type} `{!Server St} (fs : FS) (m : Menu.model)
    (msg : Menu.Msg) (c : Conn St) :
  Menu.reachable (St := St) m -> (Menu.Update fs m msg c).1 <> None.
Proof.
  intros Hreach. pose proof (reachable_selector_inv m Hreach) as Hinv.
  unfold Menu.Update. destruct (Menu.state m) eqn:Hs.
  - unfold Menu.updateMenu. destruct msg as [key|]; [|discriminate].
    repeat match goal with
           | |- context [if ?b then _ else _] => destruct b
           | |- context [match Menu.listDataFiles fs with _ => _ end] =>
               destruct (Menu.listDataFiles fs)
           end; try discriminate.
    rewrite bind_eq. discriminate.
  - destruct (Hinv Hs) as (_ & Hrange & _).
    destruct (index_in_range _ _ Hrange) as [file Hf].
    unfold Menu.updateFileMenu. destruct msg as [key|]; [|discriminate].
    rewrite Hf.
    repeat match goal with
           | |- context [if ?b then _ else _] => destruct b
           end; try discriminate.
    match goal with
    | |- context [Menu.upload fs ?x c] =>
        destruct (upload_shows_result fs x c) as (s & b & ->)
    end.
    discriminate.
  - destruct msg as [key|]; [|discriminate].
    destruct (_ || _); [rewrite bind_eq|]; discriminate.
Qed.

(** * Further properties of the code *)

(** ** Trimming and splitting *)

Section TrimFixed.
Import GoStrings Stated.
Variable f : ascii -> bool.

Lemma trim_left_fixed (s : string) :
  (forall c, first_byte s = Some c -> f c = false) -> trim_left f s = s.
Proof.
  destruct s as [|a s]; [reflexivity|].
  intros H. cbn [trim_left]. now rewrite (H a eq_refl).
Qed.

Lemma trim_right_fixed (s : string) :
  (forall c, last_byte s = Some c -> f c = false) -> trim_right f s = s.
Proof.
  induction s as [|a s IH]; [reflexivity|].
  intros H. destruct s as [|b s].
  - cbn. now rewrite (H a eq_refl).
  - cbn [trim_right] in IH |- *. rewrite IH by exact H.
    reflexivity.
Qed.

End TrimFixed.

Lemma TrimSpace_fixed (p : string) :
  Stated.no_outer_space p -> GoStrings.TrimSpace p = p.
Proof.
  intros [H1 H2]. unfold GoStrings.TrimSpace.
  rewrite (trim_left_space_fixed _ H1). now apply trim_right_space_fixed.
Qed.

Lemma contains_quote (c : ascii) :
  GoStrings.contains_byte (String GoStrings.quote EmptyString) c = false <->
  c <> GoStrings.quote.
Proof.
  cbn [GoStrings.contains_byte]. rewrite orb_false_r. split.
  - intros H ->. now rewrite Ascii.eqb_refl in H.
  - intros H. apply Ascii.eqb_neq. congruence.
Qed.

Lemma trim_item_fixed (p : string) :
  Stated.stripped p -> Stated.trim_item p = p.
Proof.
  intros (_ & Hs & H). unfold Stated.trim_item, GoStrings.Trim.
  rewrite trim_left_fixed
    by (intros c Hc; apply contains_quote; apply H; now left).
  rewrite trim_right_fixed
    by (intros c Hc; apply contains_quote; apply H; now right).
  now apply TrimSpace_fixed.
Qed.

Section SplitSingle.
Import GoStrings.
Variable c : ascii.

Lemma append_cons (b : ascii) (s t : string) :
  String b s +:+ t = String b (s +:+ t).
Proof. reflexivity. Qed.

Lemma append_snoc (cur : string) (a : ascii) (s : string) :
  (cur +:+ String a EmptyString) +:+ s = cur +:+ String a s.
Proof.
  induction cur as [|b cur IH]; [reflexivity|].
  rewrite !append_cons. now rewrite IH.
Qed.

Lemma append_empty_r (s : string) : s +:+ EmptyString = s.
Proof.
  induction s as [|a s IH]; [reflexivity|].
  rewrite append_cons. now rewrite IH.
Qed.

Lemma prefix_single (a : ascii) (s : string) :
  String.prefix (String c EmptyString) (String a s) = Ascii.eqb c a.
Proof.
  cbn [String.prefix]. destruct (ascii_dec c a) as [->|Hne].
  - rewrite Ascii.eqb_refl. now destruct s.
  - symmetry. now apply Ascii.eqb_neq.
Qed.

Lemma split_loop_free (cur p : string) :
  contains_byte p c = false ->
  split_loop (String c EmptyString) 0 cur p = [cur +:+ p].
Proof.
  revert cur. induction p as [|a p IH]; intros cur Hp.
  - cbn. now rewrite append_empty_r.
  - cbn [contains_byte] in Hp. apply orb_false_iff in Hp as [Ha Hp].
    cbn [split_loop]. rewrite prefix_single.
    rewrite Ascii.eqb_sym, Ha. rewrite IH by exact Hp.
    now rewrite append_snoc.
Qed.

Lemma split_loop_sep (cur p rest : string) :
  contains_byte p c = false ->
  split_loop (String c EmptyString) 0 cur (p +:+ String c rest)
  = (cur +:+ p) :: split_loop (String c EmptyString) 0 EmptyString rest.
Proof.
  revert cur. induction p as [|a p IH]; intros cur Hp.
  - change (EmptyString +:+ String c rest) with (String c rest).
    cbn [split_loop]. rewrite prefix_single, Ascii.eqb_refl.
    cbn [String.length Nat.pred]. now rewrite append_empty_r.
  - cbn [contains_byte] in Hp. apply orb_false_iff in Hp as [Ha Hp].
    rewrite append_cons. cbn [split_loop]. rewrite prefix_single.
    rewrite Ascii.eqb_sym, Ha. rewrite IH by exact Hp.
    now rewrite append_snoc.
Qed.

Lemma Split_join (items : list string) :
  items <> [] ->
  Forall (fun p => contains_byte p c = false) items ->
  Split (FilePath.join_with (String c EmptyString) items) (String c EmptyString)
  = items.
Proof.
  unfold Split.
  induction items as [|p items IH]; [congruence|]. intros _ Hall.
  apply Forall_cons_1 in Hall as [Hp Hall].
  destruct items as [|q items].
  - cbn [FilePath.join_with]. now rewrite split_loop_free.
  - change (FilePath.join_with (String c EmptyString) (p :: q :: items))
      with (p +:+ String c EmptyString
              +:+ FilePath.join_with (String c EmptyString) (q :: items)).
    change (String c EmptyString
              +:+ FilePath.join_with (String c EmptyString) (q :: items))
      with (String c (FilePath.join_with (String c EmptyString) (q :: items))).
    rewrite split_loop_sep by exact Hp.
    rewrite IH by (congruence || exact Hall). reflexivity.
Qed.

End SplitSingle.

(** X1.  A list column written by joining items with semicolons is read
    back by [SplitAndTrim] as the same items, in order, when no item is
    empty, holds a semicolon, or starts or ends with a quote or with white
    space (that of Unicode outside the ASCII range included); the empty
    column gives the empty list. *)
Theorem SplitAndTrim_join (items : list string) :
  Forall Derived.list_item items ->
  Parser.SplitAndTrim (FilePath.join_with ";" items) ";" = items.
Proof.
  intros Hall. unfold Parser.SplitAndTrim. rewrite SplitAndTrim_loop_filter.
  cbn [app]. destruct items as [|p items]; [reflexivity|].
  assert (Hfree : Forall (fun q => GoStrings.contains_byte q ";"%char = false)
                         (p :: items)).
  { apply List.Forall_forall. intros q Hq.
    apply (proj1 (List.Forall_forall _ _) Hall q Hq). }
  rewrite (Split_join ";"%char) by (congruence || exact Hfree).
  clear Hfree. induction Hall as [|q l [Hq _] _ IH]; [reflexivity|].
  cbn [fmap list_fmap] in IH |- *. rewrite filter_cons, trim_item_fixed by exact Hq.
  destruct (decide (q <> EmptyString)) as [_|Hne];
    [|destruct Hq as [Hq _]; contradiction].
  now rewrite IH.
Qed.

Lemma SplitAndTrim_join_witness :
  Parser.SplitAndTrim "Chest;Triceps;Front delts" ";"
  = ["Chest"; "Triceps"; "Front delts"].
Proof.
  apply (SplitAndTrim_join ["Chest"; "Triceps"; "Front delts"]).
  repeat (apply List.Forall_cons;
          [split;
           [split;
            [discriminate
            |split;
             [split; reflexivity
             |intros c [H|H]; vm_compute in H; injection H as <-; discriminate]]
           |reflexivity]|]).
  apply List.Forall_nil.
Defined.

(** X2.  Every equipment, type or muscle item that [SplitAndTrim] returns
    is already free of surrounding white space and not empty, so the second
    trimming and the blank test in the equipment loop of [InsertExercises]
    change nothing for parsed rows: such an item is left out exactly when
    it is the word None in some case. *)
Theorem parsed_equipment_kept (s sep e : string) :
  In e (Parser.SplitAndTrim s sep) ->
  GoStrings.TrimSpace e = e
  /\ e <> EmptyString
  /\ Derived.kept_equipment e = negb (GoStrings.EqualFold e "None").
Proof.
  intros Hin. unfold Parser.SplitAndTrim in Hin.
  rewrite SplitAndTrim_loop_filter in Hin. cbn [app] in Hin.
  apply list_elem_of_In in Hin. apply list_elem_of_filter in Hin as [Hne Hin].
  apply list_elem_of_fmap in Hin as (q & -> & _).
  assert (E : GoStrings.TrimSpace (Stated.trim_item q) = Stated.trim_item q)
    by apply TrimSpace_fixed, trim_item_no_outer_space.
  split; [exact E|]. split; [exact Hne|].
  unfold Derived.kept_equipment. rewrite E.
  apply String.eqb_neq in Hne. now rewrite Hne.
Qed.

Lemma parsed_equipment_kept_witness :
  Derived.kept_equipment "Barbell" = true /\ Derived.kept_equipment "NONE" = false.
Proof.
  split.
  - rewrite (proj2 (proj2 (parsed_equipment_kept " Barbell ; none" ";" "Barbell"
                             ltac:(vm_compute; auto)))).
    reflexivity.
  - rewrite (proj2 (proj2 (parsed_equipment_kept "Barbell; NONE " ";" "NONE"
                             ltac:(vm_compute; auto)))).
    reflexivity.
Defined.

(** ** The name-list parsers *)

Lemma names_loop_omap (arr : list (gmap string any)) (names : list string) :
  Parser.names_loop arr names = names ++ omap Derived.name_field arr.
Proof.
  revert names. induction arr as [|obj arr IH]; intros names.
  - cbn. now rewrite app_nil_r.
  - cbn [Parser.names_loop omap list_omap]. unfold Derived.name_field at 1.
    destruct (obj !! "name") as [[name|]|]; rewrite IH; [|reflexivity..].
    now rewrite <- app_assoc.
Qed.

Lemma omap_length_le {A B} (f : A -> option B) (l : list A) :
  (length (omap f l) <= length l)%nat.
Proof.
  induction l as [|x l IH]; [reflexivity|].
  cbn [omap list_omap length]. destruct (f x); cbn [length]; lia.
Qed.

(** X3.  [ParseJSON] and [ParseYAML] return, in the order of the array, the
    [name] of every object whose [name] is a string; objects without the
    key, or with a [name] that is not a string, are skipped without error,
    so there are at most as many names as objects.  A failure to read or
    decode the file is returned as it is. *)
Theorem ParseJSON_ParseYAML_names (fs : FS) (path : string) :
  (forall arr, ReadJSON fs path = Ok arr ->
     Parser.ParseJSON fs path = Ok (omap Derived.name_field arr)
     /\ (length (omap Derived.name_field arr) <= length arr)%nat)
  /\ (forall arr, ReadYAML fs path = Ok arr ->
        Parser.ParseYAML fs path = Ok (omap Derived.name_field arr)
        /\ (length (omap Derived.name_field arr) <= length arr)%nat)
  /\ (forall e, ReadJSON fs path = Err e -> Parser.ParseJSON fs path = Err e)
  /\ (forall e, ReadYAML fs path = Err e -> Parser.ParseYAML fs path = Err e).
Proof.
  unfold Parser.ParseJSON, Parser.ParseYAML.
  split; [|split; [|split]]; intros x Hx; rewrite Hx; try reflexivity;
    (split; [now rewrite names_loop_omap|apply omap_length_le]).
Qed.

Lemma ParseJSON_ParseYAML_names_witness :
  Parser.ParseJSON Cases.files "src/internal/data/muscles.json"
  = Ok ["Chest"; "Triceps"]
  /\ Parser.ParseYAML Cases.files "src/internal/data/muscles.yml"
     = Ok ["Chest"; "Triceps"]
  /\ Parser.ParseJSON Cases.files "src/internal/data/none.json"
     = Err Sample.no_file.
Proof.
  pose proof (ParseJSON_ParseYAML_names Cases.files
                "src/internal/data/muscles.json") as (HJ & _ & _ & _).
  pose proof (ParseJSON_ParseYAML_names Cases.files
                "src/internal/data/muscles.yml") as (_ & HY & _ & _).
  pose proof (ParseJSON_ParseYAML_names Cases.files
                "src/internal/data/none.json") as (_ & _ & HE & _).
  split; [exact (proj1 (HJ Cases.muscles_json eq_refl))|].
  split; [exact (proj1 (HY Cases.muscles_json eq_refl))|].
  exact (HE Sample.no_file eq_refl).
Defined.

Lemma first_cells_length (records : list (list string)) :
  Forall (fun rec => rec <> []) records ->
  length (Stated.first_cells records) = length records.
Proof.
  unfold Stated.first_cells.
  induction 1 as [|rec records Hrec _ IH]; [reflexivity|].
  destruct rec as [|c cols]; [congruence|].
  cbn [omap list_omap head length]. now rewrite IH.
Qed.

(** X4.  [ParseCSV] never fails on a file that could be read, the empty
    file included.  When no record is empty it returns one name per record,
    except for a first record that is the header; the header is looked for
    at the first record only, so a later record [name] is data. *)
Theorem ParseCSV_one_name_per_record (fs : FS) (path : string)
    (records : list (list string)) :
  ReadCSV fs path = Ok records ->
  Forall (fun rec => rec <> []) records ->
  exists names,
    Parser.ParseCSV fs path = Ok names
    /\ length names
       = (length records
          - (if Stated.is_header (hd [] records) then 1 else 0))%nat
    /\ (forall c, In c (Stated.first_cells (tl records)) -> In c names).
Proof.
  intros Hread Hne. unfold Parser.ParseCSV. rewrite Hread.
  eexists. split; [reflexivity|].
  destruct records as [|first rest]; [split; [reflexivity|intros c []]|].
  apply Forall_cons_1 in Hne as [Hfirst Hrest].
  destruct first as [|c0 cols]; [congruence|].
  cbn [hd tl Parser.ParseCSV_loop Nat.eqb andb Stated.is_header length].
  destruct (String.eqb c0 "name" || String.eqb c0 "Name");
    rewrite ParseCSV_loop_tail; cbn [app].
  - rewrite first_cells_length by exact Hrest. split; [lia|auto].
  - cbn [length]. rewrite first_cells_length by exact Hrest.
    split; [lia|]. intros c Hc. now right.
Qed.

Lemma ParseCSV_one_name_per_record_witness :
  Parser.ParseCSV Cases.files "src/internal/data/equipment.csv"
  = Ok ["Barbell"; "name"; "Dumbbell"].
Proof.
  destruct (ParseCSV_one_name_per_record Cases.files
              "src/internal/data/equipment.csv"
              [["Barbell"]; ["name"]; ["Dumbbell"]] eq_refl
              ltac:(repeat constructor; discriminate)) as (names & H & _).
  rewrite H. vm_compute in H. injection H as <-. reflexivity.
Defined.

(** ** The exercise batch, for every server *)

Section BatchMore.
Context {St : Type} `{!Server St}.
Import Repo Parser Derived.

Lemma equipment_loop_filter (exID : Z) (l : list string) (c : Conn St) :
  equipment_loop exID l c = equipment_loop exID (List.filter kept_equipment l) c.
Proof.
  revert c. induction l as [|e l IH]; intros c; [reflexivity|].
  cbn [List.filter]. unfold kept_equipment at 1.
  destruct (String.eqb (GoStrings.TrimSpace e) EmptyString
            || GoStrings.EqualFold (GoStrings.TrimSpace e) "None") eqn:E;
    cbn [negb equipment_loop]; rewrite E; [apply IH|].
  rewrite !bind_eq.
  destruct (GetOrInsertEquipment (GoStrings.TrimSpace e) c) as [[id [err|]] c1];
    cbn [fst snd]; [reflexivity|].
  rewrite !bind_eq.
  destruct (call (TxExec LinkEquipmentQuery [AInt exID; AInt id]) c1)
    as [[v|err] c2]; cbn [fst snd]; [apply IH|reflexivity].
Qed.

Lemma rows_loop_failed (rows post : list ExerciseUploadRow) (c : Conn St)
    (e : error) :
  (rows_loop rows c).1 = Some e ->
  rows_loop (rows ++ post) c = rows_loop rows c.
Proof.
  revert c. induction rows as [|row rows IH]; intros c; [discriminate|].
  rewrite <- app_comm_cons. cbn [rows_loop]. rewrite !bind_eq.
  destruct (insert_row row c) as [[err|] c1]; cbn [fst snd];
    [reflexivity|apply IH].
Qed.

End BatchMore.

(** X5.  The equipment loop of [InsertExercises] makes no database call for
    an item that is blank or is the word None in any case: it behaves as on
    the list without these items, and a list made of such items only leaves
    the connection untouched and yields no error. *)
Theorem equipment_loop_skips_none {St : Type} `{!Server St} (exID : Z)
    (l : list string) (c : Conn St) :
  Repo.equipment_loop exID l c
  = Repo.equipment_loop exID (List.filter Derived.kept_equipment l) c
  /\ (Forall (fun e => Derived.kept_equipment e = false) l ->
      Repo.equipment_loop exID l c = (None, c)).
Proof.
  split; [apply equipment_loop_filter|].
  intros Hall. rewrite equipment_loop_filter.
  replace (List.filter Derived.kept_equipment l) with (@nil string); [reflexivity|].
  induction Hall as [|e l He _ IH]; [reflexivity|].
  cbn [List.filter]. now rewrite He.
Qed.

Lemma equipment_loop_skips_none_witness :
  Repo.equipment_loop 7 (Parser.Equipment Cases.plank) Sample.fresh
  = (None, Sample.fresh).
Proof.
  apply equipment_loop_skips_none.
  repeat apply List.Forall_cons; try apply List.Forall_nil; reflexivity.
Defined.

(** X6.  When [db.Begin] fails, [InsertExercises] returns that error
    unchanged and does nothing else: no statement, no [Commit] and no
    [Rollback] is issued, whatever the rows are. *)
Theorem InsertExercises_begin_fails {St : Type} `{!Server St}
    (rows : list Parser.ExerciseUploadRow) (c : Conn St) (e : error) :
  (serve (server c) DBBegin).1 = Err e ->
  Repo.InsertExercises rows c
  = (Some e, MkConn (serve (server c) DBBegin).2 (calls c ++ [DBBegin])).
Proof.
  intros Hb. unfold Repo.InsertExercises. rewrite bind_eq, call_eq.
  cbn [fst snd]. now rewrite Hb.
Qed.

Lemma InsertExercises_begin_fails_witness :
  Repo.InsertExercises [Sample.push_up; Sample.squat] Cases.busy
  = (Some "a transaction is already open",
     MkConn (server Cases.busy) [DBBegin]).
Proof.
  exact (InsertExercises_begin_fails [Sample.push_up; Sample.squat] Cases.busy
           "a transaction is already open" eq_refl).
Defined.

Lemma InsertExercises_always_commits_witness :
  exists l,
    calls (Repo.InsertExercises [Sample.push_up; Sample.squat] Sample.fresh).2
    = calls Sample.fresh ++ DBBegin :: l ++ [TxCommit]
    /\ Forall (fun q => Views.is_statement q = true) l
    /\ (Repo.InsertExercises [Sample.push_up; Sample.squat] Sample.fresh).1
       = (Repo.rows_loop [Sample.push_up; Sample.squat]
            (call DBBegin Sample.fresh).2).1.
Proof.
  exact (InsertExercises_always_commits [Sample.push_up; Sample.squat]
           Sample.fresh 0 eq_refl).
Defined.

(** X8.  [InsertExercises] stops at the first row that fails: when a batch
    ends in an error, the same batch followed by any further rows makes the
    same calls and returns the same error, so the rows after the failing
    one are never processed. *)
Theorem InsertExercises_stops_at_failing_row {St : Type} `{!Server St}
    (rows post : list Parser.ExerciseUploadRow) (c : Conn St) (e : error) :
  (Repo.InsertExercises rows c).1 = Some e ->
  Repo.InsertExercises (rows ++ post) c = Repo.InsertExercises rows c.
Proof.
  unfold Repo.InsertExercises. rewrite !bind_eq.
  destruct (call DBBegin c) as [[v|err] c0]; cbn [fst snd]; [|reflexivity].
  rewrite !bind_eq. unfold Repo.deferred, ret. cbn [fst snd].
  intros Hfail. now rewrite (rows_loop_failed rows post c0 e Hfail).
Qed.

Lemma InsertExercises_stops_at_failing_row_witness :
  Repo.InsertExercises [Sample.push_up; Sample.squat; Cases.plank] Sample.fresh
  = Repo.InsertExercises [Sample.push_up; Sample.squat] Sample.fresh.
Proof.
  apply (InsertExercises_stops_at_failing_row [Sample.push_up; Sample.squat]
           [Cases.plank] Sample.fresh
           ("category Lower body compound: " +:+ Pg.too_long)).
  vm_compute. reflexivity.
Defined.

(** ** The store: nothing is deleted, ids are stable *)

Section KeptFacts.
Import Derived.

Lemma table_kept_refl (a : Pg.Table) : table_kept a a.
Proof.
  destruct a as [rows ser w|rows ser|rows]; cbn; eauto.
Qed.

Lemma table_kept_trans (a b c : Pg.Table) :
  table_kept a b -> table_kept b c -> table_kept a c.
Proof.
  destruct a as [ra sa wa|ra sa|ra], b as [rb sb wb|rb sb|rb],
    c as [rc sc wc|rc sc|rc]; cbn; try tauto.
  - intros [-> H1] [-> H2]. eauto.
  - intros H1 H2 n id d cat Hn.
    destruct (H1 n id d cat Hn) as [d' Hd']. eauto.
  - eauto.
Qed.

Lemma nothing_lost_refl (tabs : gmap string Pg.Table) : nothing_lost tabs tabs.
Proof. intros t a Ha. exists a. split; [exact Ha|apply table_kept_refl]. Qed.

Lemma nothing_lost_trans (a b c : gmap string Pg.Table) :
  nothing_lost a b -> nothing_lost b c -> nothing_lost a c.
Proof.
  intros H1 H2 t x Hx. destruct (H1 t x Hx) as (y & Hy & Kxy).
  destruct (H2 t y Hy) as (z & Hz & Kyz). exists z.
  split; [exact Hz|]. eapply table_kept_trans; eassumption.
Qed.

Lemma nothing_lost_insert (tabs : gmap string Pg.Table) (t : string)
    (a b : Pg.Table) :
  tabs !! t = Some a -> table_kept a b -> nothing_lost tabs (<[t := b]> tabs).
Proof.
  intros Ha Hab t' x Hx. destruct (decide (t = t')) as [<-|Hne].
  - rewrite lookup_insert_eq. exists b. split; [reflexivity|]. congruence.
  - rewrite lookup_insert_ne by exact Hne. exists x.
    split; [exact Hx|apply table_kept_refl].
Qed.

(** A statement that goes through adds or updates rows; it removes none
    and renumbers none. *)
Lemma exec_nothing_lost (st : Pg.Stmt) (args : list Arg)
    (tabs tabs' : gmap string Pg.Table) (v : Z) :
  Pg.exec st args tabs = Ok (v, tabs') -> nothing_lost tabs tabs'.
Proof.
  intros H. unfold Pg.exec in H.
  repeat match type of H with
         | context [match ?x with _ => _ end] => destruct x eqn:?
         end; try discriminate; injection H as <- <-;
    try apply nothing_lost_refl;
    (eapply nothing_lost_insert; [eassumption|]); cbn.
  - split; [reflexivity|]. intros nm idx Hlook.
    rewrite lookup_insert_ne; [exact Hlook|intros ->; congruence].
  - split; [reflexivity|]. intros nm idx Hlook.
    rewrite lookup_insert_ne; [exact Hlook|intros ->; congruence].
  - intros nm idx dd ct Hlook.
    match goal with
    | |- context [<[?k := _]> _ !! nm] => destruct (decide (k = nm)) as [->|Hne]
    end.
    + rewrite lookup_insert_eq. simplify_eq. eauto.
    + rewrite lookup_insert_ne by exact Hne. eauto.
  - intros nm idx dd ct Hlook.
    rewrite lookup_insert_ne; [eauto|intros ->; congruence].
  - intros pr Hpr. set_solver.
Qed.

Lemma run_nothing_lost (query : string) (args : list Arg)
    (tabs tabs' : gmap string Pg.Table) (v : Z) :
  Pg.run query args tabs = Ok (v, tabs') -> nothing_lost tabs tabs'.
Proof.
  unfold Pg.run. destruct (Pg.parse query); [|discriminate].
  apply exec_nothing_lost.
Qed.

(** Statements of an open transaction work on its copy: the committed
    tables stay as they are and the copy loses nothing. *)
Lemma statements_on_copy (l : list Call) (s : Pg.State)
    (w : gmap string Pg.Table) :
  Forall (fun q => Views.is_statement q = true) l ->
  Pg.pending s = Some w ->
  Pg.committed (serve_all s l).2 = Pg.committed s
  /\ exists w', Pg.pending (serve_all s l).2 = Some w' /\ nothing_lost w w'.
Proof.
  intros Hall. revert s w. induction Hall as [|q l Hq _ IH]; intros s w Hw.
  - cbn. split; [reflexivity|]. exists w. split; [exact Hw|apply nothing_lost_refl].
  - cbn [serve_all].
    destruct (serve s q) as [r s1] eqn:E1.
    destruct (serve_all s1 l) as [rs s2] eqn:E2. cbn [snd].
    assert (H1 : Pg.committed s1 = Pg.committed s
                 /\ exists w1, Pg.pending s1 = Some w1 /\ nothing_lost w w1).
    { unfold serve, Pg.pg_server, Pg.step in E1.
      destruct q as [query args|query args| |query args|query args| |];
        try discriminate Hq; rewrite Hw in E1;
        (destruct (Pg.failed s);
         [injection E1 as <- <-; split; [reflexivity|];
          exists w; split; [exact Hw|apply nothing_lost_refl]|]);
        (destruct (Pg.run query args w) as [[v tabs]|e] eqn:Er;
         injection E1 as <- <-; cbn [Pg.committed Pg.pending];
         (split; [reflexivity|]);
         [exists tabs; split; [reflexivity|eapply run_nothing_lost; eassumption]
         |exists w; split; [reflexivity|apply nothing_lost_refl]]). }
    destruct H1 as (Hc1 & w1 & Hw1 & K1).
    destruct (IH s1 w1 Hw1) as (Hc2 & w2 & Hw2 & K2).
    rewrite E2 in Hc2, Hw2. cbn [snd] in Hc2, Hw2.
    split; [congruence|]. exists w2. split; [exact Hw2|].
    eapply nothing_lost_trans; eassumption.
Qed.

End KeptFacts.

(** ** The calls of a batch determine what the server has done *)

Section Tracking.
Context {St : Type} `{!Server St}.
Import Repo Views Parser Derived.

Lemma serve_all_app (s : St) (l1 l2 : list Call) :
  (serve_all s (l1 ++ l2)).2 = (serve_all (serve_all s l1).2 l2).2.
Proof.
  revert s. induction l1 as [|q l1 IH]; intros s; [reflexivity|].
  cbn [app serve_all]. destruct (serve s q) as [r s1].
  specialize (IH s1).
  destruct (serve_all s1 (l1 ++ l2)) as [rs s2].
  destruct (serve_all s1 l1) as [rs' s2']. exact IH.
Qed.

Lemma serve_all_app_answers (s : St) (l1 l2 : list Call) :
  (serve_all s (l1 ++ l2)).1
  = (serve_all s l1).1 ++ (serve_all (serve_all s l1).2 l2).1.
Proof.
  revert s. induction l1 as [|q l1 IH]; intros s; [reflexivity|].
  cbn [app serve_all]. destruct (serve s q) as [r s1].
  specialize (IH s1).
  destruct (serve_all s1 (l1 ++ l2)) as [rs s2].
  destruct (serve_all s1 l1) as [rs' s2']. cbn [fst snd] in IH |- *.
  now rewrite IH.
Qed.

Lemma answered_tracked (c c' : Conn St) (ok : bool) :
  answered c c' ok -> tracked c c'.
Proof. intros (l & Hr & Hl & _). now exists l. Qed.

Lemma answered_refl (c : Conn St) : answered c c true.
Proof.
  exists []. split; [|split; [constructor|reflexivity]].
  split; [now rewrite app_nil_r|reflexivity].
Qed.

Lemma answered_trans (a b c : Conn St) (ok : bool) :
  answered a b true -> answered b c ok -> answered a c ok.
Proof.
  intros (l1 & [E1 S1] & F1 & A1) (l2 & [E2 S2] & F2 & A2). exists (l1 ++ l2).
  split; [split|split; [now apply Forall_app|]].
  - now rewrite E2, E1, app_assoc.
  - now rewrite serve_all_app, <- S1.
  - rewrite serve_all_app_answers, forallb_app, A1, <- S1. exact A2.
Qed.

Lemma answered_call (q : Call) (c : Conn St) :
  is_statement q = true -> answered c (call q c).2 (is_ok (call q c).1).
Proof.
  intros Hq. exists [q]. rewrite call_eq. cbn [fst snd calls server].
  split; [split; [reflexivity|]|split; [now repeat constructor|]];
    cbn [serve_all]; destruct (serve (server c) q) as [r s1]; [reflexivity|].
  cbn [fst forallb]. now rewrite andb_true_r.
Qed.

Lemma answered_get_or_insert (query name : string) (c : Conn St) :
  answered c (get_or_insert query name c).2
           (no_error (get_or_insert query name c).1.2).
Proof.
  unfold get_or_insert. rewrite bind_eq. unfold ret. cbn [fst snd].
  pose proof (answered_call (TxQueryRow query [AStr name]) c eq_refl) as H.
  now destruct (call (TxQueryRow query [AStr name]) c) as [[id|e] c1].
Qed.

Ltac answer_step IH lookup query :=
  rewrite bind_eq;
  match goal with
  | |- context [lookup ?n ?c] =>
      let H := fresh "H" in
      pose proof (answered_get_or_insert query n c) as H;
      change (get_or_insert _ n c) with (lookup n c) in H;
      destruct (lookup n c) as [[id [err|]] c1];
      cbn [fst snd no_error] in H |- *;
      [exact H|];
      rewrite bind_eq;
      match goal with
      | |- context [call ?q c1] =>
          let K := fresh "K" in
          pose proof (answered_call q c1 eq_refl) as K;
          destruct (call q c1) as [[v|err] c2];
          cbn [fst snd is_ok no_error] in K |- *;
          [eapply answered_trans; [exact H|];
           eapply answered_trans; [exact K|]; apply IH
          |eapply answered_trans; [exact H|exact K]]
      end
  end.

Lemma answered_equipment_loop (exID : Z) (l : list string) (c : Conn St) :
  answered c (equipment_loop exID l c).2 (no_error (equipment_loop exID l c).1).
Proof.
  revert c. induction l as [|e l IH]; intros c; [apply answered_refl|].
  cbn [equipment_loop].
  destruct (String.eqb (GoStrings.TrimSpace e) EmptyString
            || GoStrings.EqualFold (GoStrings.TrimSpace e) "None");
    [apply IH|].
  answer_step IH GetOrInsertEquipment GetOrInsertEquipmentQuery.
Qed.

Lemma answered_types_loop (exID : Z) (l : list string) (c : Conn St) :
  answered c (types_loop exID l c).2 (no_error (types_loop exID l c).1).
Proof.
  revert c. induction l as [|e l IH]; intros c; [apply answered_refl|].
  cbn [types_loop]. answer_step IH GetOrInsertType GetOrInsertTypeQuery.
Qed.

Lemma answered_muscles_loop (exID : Z) (l : list string) (c : Conn St) :
  answered c (muscles_loop exID l c).2 (no_error (muscles_loop exID l c).1).
Proof.
  revert c. induction l as [|e l IH]; intros c; [apply answered_refl|].
  cbn [muscles_loop]. answer_step IH GetOrInsertMuscle GetOrInsertMuscleQuery.
Qed.

Lemma answered_insert_row (row : ExerciseUploadRow) (c : Conn St) :
  answered c (insert_row row c).2 (no_error (insert_row row c).1).
Proof.
  unfold insert_row. rewrite bind_eq.
  pose proof (answered_get_or_insert GetOrInsertCategoryQuery (Category row) c) as H.
  change (get_or_insert _ (Category row) c)
    with (GetOrInsertCategory (Category row) c) in H.
  destruct (GetOrInsertCategory (Category row) c) as [[catID [err|]] c1];
    cbn [fst snd no_error] in H |- *; [exact H|].
  rewrite bind_eq.
  match goal with
  | |- context [call ?q c1] =>
      pose proof (answered_call q c1 eq_refl) as K;
      destruct (call q c1) as [[exID|err] c2];
      cbn [fst snd is_ok no_error] in K |- *
  end; [|eapply answered_trans; eassumption].
  rewrite bind_eq.
  pose proof (answered_equipment_loop exID (Equipment row) c2) as K1.
  destruct (equipment_loop exID (Equipment row) c2) as [[err|] c3];
    cbn [fst snd no_error] in K1 |- *;
    [eapply answered_trans; [exact H|]; eapply answered_trans; eassumption|].
  rewrite bind_eq.
  pose proof (answered_types_loop exID (Types row) c3) as K2.
  destruct (types_loop exID (Types row) c3) as [[err|] c4];
    cbn [fst snd no_error] in K2 |- *.
  - repeat (eapply answered_trans; [eassumption|]). exact K2.
  - repeat (eapply answered_trans; [eassumption|]). apply answered_muscles_loop.
Qed.

Lemma answered_rows_loop (rows : list ExerciseUploadRow) (c : Conn St) :
  answered c (rows_loop rows c).2 (no_error (rows_loop rows c).1).
Proof.
  revert c. induction rows as [|row rows IH]; intros c; [apply answered_refl|].
  cbn [rows_loop]. rewrite bind_eq.
  pose proof (answered_insert_row row c) as H.
  destruct (insert_row row c) as [[err|] c1]; cbn [fst snd no_error] in H |- *;
    [exact H|].
  eapply answered_trans; [exact H|apply IH].
Qed.

Lemma tracked_rows_loop (rows : list ExerciseUploadRow) (c : Conn St) :
  tracked c (rows_loop rows c).2.
Proof. eapply answered_tracked, answered_rows_loop. Qed.

End Tracking.

Lemma tracked_on_copy (c c' : Conn Pg.State) (w : gmap string Pg.Table) :
  Derived.tracked c c' -> Pg.pending (server c) = Some w ->
  Pg.committed (server c') = Pg.committed (server c)
  /\ exists w', Pg.pending (server c') = Some w' /\ Derived.nothing_lost w w'.
Proof.
  intros (l & [_ Hs] & Hall) Hw. rewrite Hs.
  now apply statements_on_copy.
Qed.

(** ** Transactions on the store *)

Section Transactions.
Import Views Derived.

(** A transaction in which a statement has failed refuses every further
    statement and stays as it is. *)
Lemma statements_refused (l : list Call) (s : Pg.State)
    (w : gmap string Pg.Table) :
  Forall (fun q => is_statement q = true) l ->
  Pg.pending s = Some w -> Pg.failed s = true ->
  (serve_all s l).2 = s.
Proof.
  intros Hall Hw Hf. induction Hall as [|q l Hq _ IH]; [reflexivity|].
  cbn [serve_all].
  assert (E : serve s q = (Err Pg.tx_aborted, s)).
  { unfold serve, Pg.pg_server, Pg.step.
    destruct q; try discriminate Hq; now rewrite Hw, Hf. }
  rewrite E. now destruct (serve_all s l) as [rs s2].
Qed.

(** The statements of a transaction in which nothing has failed yet: the
    committed tables stay as they are; when every statement is answered
    without error the working copy is what the statements lead to, and
    otherwise the transaction ends up aborted. *)
Lemma statements_in_tx (l : list Call) (s : Pg.State)
    (w : gmap string Pg.Table) :
  Forall (fun q => is_statement q = true) l ->
  Pg.pending s = Some w -> Pg.failed s = false ->
  Pg.committed (serve_all s l).2 = Pg.committed s
  /\ if forallb is_ok (serve_all s l).1
     then exists w', run_statements l w = Some w'
                     /\ Pg.pending (serve_all s l).2 = Some w'
                     /\ Pg.failed (serve_all s l).2 = false
     else run_statements l w = None
          /\ is_Some (Pg.pending (serve_all s l).2)
          /\ Pg.failed (serve_all s l).2 = true.
Proof.
  intros Hall. revert s w. induction Hall as [|q l Hq Hall IH]; intros s w Hw Hf.
  - cbn. split; [reflexivity|]. now exists w.
  - assert (E : exists query args,
                  (q = TxExec query args \/ q = TxQueryRow query args)
                  /\ serve s q
                     = match Pg.run query args w with
                       | Ok (v, tabs) =>
                           (Ok v, Pg.MkState (Pg.committed s) (Some tabs) false)
                       | Err e =>
                           (Err e, Pg.MkState (Pg.committed s) (Some w) true)
                       end
                  /\ run_statements (q :: l) w
                     = match Pg.run query args w with
                       | Ok (_, tabs) => run_statements l tabs
                       | Err _ => None
                       end).
    { unfold serve, Pg.pg_server, Pg.step.
      destruct q as [query args|query args| |query args|query args| |];
        try discriminate Hq; exists query, args; rewrite Hw, Hf; auto. }
    destruct E as (query & args & _ & E & R). cbn [serve_all]. rewrite E, R.
    destruct (Pg.run query args w) as [[v tabs]|e].
    + destruct (IH (Pg.MkState (Pg.committed s) (Some tabs) false) tabs
                  eq_refl eq_refl) as [Hc Hrest].
      destruct (serve_all (Pg.MkState (Pg.committed s) (Some tabs) false) l)
        as [rs s2].
      cbn [fst snd forallb is_ok andb Pg.committed] in Hc, Hrest |- *.
      split; [exact Hc|exact Hrest].
    + pose proof (statements_refused l
                    (Pg.MkState (Pg.committed s) (Some w) true) w Hall
                    eq_refl eq_refl) as Hs.
      destruct (serve_all (Pg.MkState (Pg.committed s) (Some w) true) l)
        as [rs s2].
      cbn [fst snd forallb is_ok andb] in Hs |- *. subst s2.
      cbn [Pg.committed Pg.pending Pg.failed]. eauto.
Qed.

End Transactions.

(** C1.  On the store, a run of [InsertExercises] that starts with no
    transaction open issues [Begin], the statements of the rows and
    [Commit], and ends with no transaction open.  When it returns an
    error, one of the statements has failed and the committed tables are
    exactly what they were before the call: nothing of the batch remains,
    the rows processed before the failing one included.  When it returns
    no error, every statement has run and the committed tables are what
    the statements of all the rows lead to.  (The function itself never
    calls [Rollback]; it is the server that answers the [Commit] of a
    transaction in which a statement failed by discarding its work.) *)
Theorem InsertExercises_all_or_nothing (rows : list Parser.ExerciseUploadRow)
    (c : Conn Pg.State) :
  Pg.pending (server c) = None ->
  let out := Repo.InsertExercises rows c in
  exists l,
    calls out.2 = calls c ++ DBBegin :: l ++ [TxCommit]
    /\ Forall (fun q => Views.is_statement q = true) l
    /\ Pg.pending (server out.2) = None
    /\ (forall e, out.1 = Some e ->
          Derived.run_statements l (Pg.committed (server c)) = None
          /\ Pg.committed (server out.2) = Pg.committed (server c))
    /\ (out.1 = None ->
          Derived.run_statements l (Pg.committed (server c))
          = Some (Pg.committed (server out.2))).
Proof.
  intros Hp out. subst out. unfold Repo.InsertExercises. rewrite bind_eq.
  assert (Hb : call DBBegin c
               = (Ok 0, MkConn (Pg.MkState (Pg.committed (server c))
                                           (Some (Pg.committed (server c))) false)
                               (calls c ++ [DBBegin]))).
  { rewrite call_eq. unfold serve, Pg.pg_server, Pg.step. now rewrite Hp. }
  rewrite Hb. cbn [fst snd]. rewrite bind_eq.
  match goal with
  | |- context [Repo.rows_loop rows ?c0] =>
      destruct (answered_rows_loop rows c0) as (l & [Hl Hs] & Fl & Al);
      destruct (statements_in_tx l (server c0) (Pg.committed (server c)) Fl
                  eq_refl eq_refl) as [Hc Hw];
      destruct (Repo.rows_loop rows c0) as [returned c1]
  end.
  cbn [server calls fst snd Pg.committed] in Hl, Hs, Al, Hc, Hw |- *.
  exists l. rewrite bind_eq. unfold Repo.deferred, ret. rewrite call_eq.
  cbn [fst snd server calls]. rewrite Al in Hw. rewrite <- Hs in Hc, Hw.
  unfold serve, Pg.pg_server, Pg.step.
  split; [rewrite Hl; now rewrite <- !app_assoc|]. split; [exact Fl|].
  destruct returned as [err|]; cbn [Derived.no_error] in Hw.
  - destruct Hw as (Hr & [w' Hw'] & Hf). rewrite Hw', Hf.
    cbn [snd Pg.committed Pg.pending].
    split; [reflexivity|]. split; [|discriminate].
    intros e _. split; [exact Hr|exact Hc].
  - destruct Hw as (w' & Hr & Hw' & Hf). rewrite Hw', Hf.
    cbn [snd Pg.committed Pg.pending].
    split; [reflexivity|]. split; [discriminate|].
    intros _. exact Hr.
Qed.

Lemma InsertExercises_all_or_nothing_witness :
  let failing := Repo.InsertExercises [Sample.push_up; Sample.squat] Sample.fresh in
  let passing := Repo.InsertExercises [Sample.push_up] Sample.fresh in
  (failing.1 = Some ("category Lower body compound: " +:+ Pg.too_long)
   /\ Pg.committed (server failing.2) = Pg.committed (server Sample.fresh)
   /\ Pg.exercises_of (Pg.committed (server failing.2)) = Some ∅)
  /\ (passing.1 = None
      /\ (fun rows : gmap string (Z * string * Z) => rows !! "Push-up")
           <$> Pg.exercises_of (Pg.committed (server passing.2))
         = Some (Some (1, "A bodyweight exercise", 1))).
Proof.
  intros failing passing. split.
  - destruct (InsertExercises_all_or_nothing [Sample.push_up; Sample.squat]
                Sample.fresh eq_refl) as (l & _ & _ & _ & Herr & _).
    assert (E : failing.1 = Some ("category Lower body compound: " +:+ Pg.too_long))
      by (vm_compute; reflexivity).
    destruct (Herr _ E) as [_ Hc]. fold failing in Hc.
    split; [exact E|]. split; [exact Hc|].
    rewrite Hc. vm_compute. reflexivity.
  - split; vm_compute; reflexivity.
Defined.

(** X9.  On the store, a run of [InsertExercises] that starts with no
    transaction open ends with none open, and whatever it returns, the
    committed tables afterwards have every row they had before: no name,
    exercise or junction row is removed, a name keeps its id, and an
    exercise keeps its id and its category (an upload can change its
    description only). *)
Theorem InsertExercises_loses_nothing (rows : list Parser.ExerciseUploadRow)
    (c : Conn Pg.State) :
  Pg.pending (server c) = None ->
  Derived.nothing_lost (Pg.committed (server c))
                       (Pg.committed (server (Repo.InsertExercises rows c).2))
  /\ Pg.pending (server (Repo.InsertExercises rows c).2) = None.
Proof.
  intros Hp. unfold Repo.InsertExercises. rewrite bind_eq.
  assert (Hb : call DBBegin c
               = (Ok 0, MkConn (Pg.MkState (Pg.committed (server c))
                                           (Some (Pg.committed (server c))) false)
                               (calls c ++ [DBBegin]))).
  { rewrite call_eq. unfold serve, Pg.pg_server, Pg.step. now rewrite Hp. }
  rewrite Hb. cbn [fst snd]. rewrite bind_eq.
  match goal with
  | |- context [Repo.rows_loop rows ?c0] =>
      destruct (tracked_on_copy c0 (Repo.rows_loop rows c0).2
                  (Pg.committed (server c)) (tracked_rows_loop rows c0) eq_refl)
        as (Hc & w' & Hw' & K);
      destruct (Repo.rows_loop rows c0) as [returned c1]
  end.
  cbn [server Pg.committed fst snd] in Hc, Hw' |- *.
  rewrite bind_eq. unfold Repo.deferred, ret. rewrite call_eq. cbn [fst snd server].
  unfold serve, Pg.pg_server, Pg.step. rewrite Hw', Hc.
  destruct (Pg.failed (server c1)); cbn [snd Pg.committed Pg.pending];
    (split; [|reflexivity]); [apply nothing_lost_refl|exact K].
Qed.

Lemma InsertExercises_loses_nothing_witness :
  let once := (Repo.InsertExercises [Sample.push_up] Sample.fresh).2 in
  let again := (Repo.InsertExercises
                  [Parser.Build_ExerciseUploadRow "Push-up" "Changed" "Core"
                     [] [] []] once).2 in
  Derived.nothing_lost (Pg.committed (server once)) (Pg.committed (server again))
  /\ (fun rows : gmap string (Z * string * Z) => rows !! "Push-up")
       <$> Pg.exercises_of (Pg.committed (server again))
     = Some (Some (1, "Changed", 1)).
Proof.
  intros once again. split.
  - apply InsertExercises_loses_nothing. vm_compute. reflexivity.
  - vm_compute. reflexivity.
Defined.

Section NamesKept.
Import Repo Views Derived.
Variable t : string.

Lemma insert_names_lost (names : list string) (tabs : gmap string Pg.Table) :
  nothing_lost tabs (insert_names t names tabs).2.
Proof.
  revert tabs. induction names as [|n names IH]; intros tabs;
    [apply nothing_lost_refl|].
  cbn [insert_names].
  destruct (Pg.exec (Pg.InsertName t) [AStr n] tabs) as [[v tabs']|e] eqn:E;
    [|apply nothing_lost_refl].
  eapply nothing_lost_trans; [eapply exec_nothing_lost; exact E|apply IH].
Qed.

Lemma names_of_kept (tabs tabs' : gmap string Pg.Table) (rows : gmap string Z)
    (n : string) (id : Z) :
  nothing_lost tabs tabs' -> Pg.names_of tabs t = Some rows ->
  rows !! n = Some id ->
  exists rows', Pg.names_of tabs' t = Some rows' /\ rows' !! n = Some id.
Proof.
  unfold Pg.names_of. intros K Ht Hn.
  destruct (tabs !! t) as [[r ser w|r ser|r]|] eqn:E; try discriminate.
  injection Ht as ->. destruct (K t _ E) as (b & Hb & Kb). rewrite Hb.
  destruct b as [rb sb wb|rb sb|rb]; cbn in Kb; try contradiction.
  destruct Kb as [_ Kb]. exists rb. split; [reflexivity|]. now apply Kb.
Qed.

Lemma insert_present (n : string) (tabs tabs' : gmap string Pg.Table) (v : Z) :
  Pg.exec (Pg.InsertName t) [AStr n] tabs = Ok (v, tabs') ->
  exists rows id, Pg.names_of tabs' t = Some rows /\ rows !! n = Some id.
Proof.
  cbn [Pg.exec]. unfold Pg.names_of.
  destruct (tabs !! t) as [[rows ser w|rows ser|rows]|] eqn:Ht; try discriminate.
  destruct (w <? String.length n)%nat; [discriminate|].
  destruct (rows !! n) as [id|] eqn:Hn; intros [= <- <-].
  - rewrite Ht. eauto.
  - rewrite lookup_insert_eq. eexists _, _. split; [reflexivity|].
    apply lookup_insert_eq.
Qed.

Lemma insert_names_present (names : list string) (tabs : gmap string Pg.Table) :
  (insert_names t names tabs).1 = None ->
  forall n, In n names ->
    exists rows id,
      Pg.names_of (insert_names t names tabs).2 t = Some rows
      /\ rows !! n = Some id.
Proof.
  revert tabs. induction names as [|a names IH]; intros tabs Hok n Hin;
    [destruct Hin|].
  cbn [insert_names] in Hok |- *.
  destruct (Pg.exec (Pg.InsertName t) [AStr a] tabs) as [[v tabs']|e] eqn:E;
    [|discriminate].
  destruct Hin as [<-|Hin]; [|now apply IH].
  destruct (insert_present _ _ _ _ E) as (rows & id & Hr & Hid).
  destruct (names_of_kept tabs' _ rows a id (insert_names_lost names tabs') Hr Hid)
    as (rows' & Hr' & Hid').
  eauto.
Qed.

Lemma upsert_present (n : string) (w w1 : gmap string Pg.Table) (id : Z) :
  Pg.exec (Pg.UpsertName t) [AStr n] w = Ok (id, w1) ->
  exists rows, Pg.names_of w1 t = Some rows /\ rows !! n = Some id.
Proof.
  cbn [Pg.exec]. unfold Pg.names_of.
  destruct (w !! t) as [[rows ser wd|rows ser|rows]|] eqn:Ht; try discriminate.
  destruct (wd <? String.length n)%nat; [discriminate|].
  destruct (rows !! n) as [id0|] eqn:Hn; intros [= <- <-].
  - rewrite Ht. eauto.
  - rewrite lookup_insert_eq. eexists. split; [reflexivity|].
    apply lookup_insert_eq.
Qed.

Lemma upsert_fits (n : string) (w w1 : gmap string Pg.Table) (id : Z) :
  Pg.exec (Pg.UpsertName t) [AStr n] w = Ok (id, w1) ->
  forall w2, nothing_lost w1 w2 ->
    Pg.exec (Pg.UpsertName t) [AStr n] w2 = Ok (id, w2).
Proof.
  intros E w2 K. destruct (upsert_present _ _ _ _ E) as (rows & Hr & Hid).
  destruct (names_of_kept w1 w2 rows n id K Hr Hid) as (rows2 & Hr2 & Hid2).
  assert (Hw : exists rows1 ser1 wd, w1 !! t = Some (Pg.NameTable rows1 ser1 wd)
                                     /\ (wd <? String.length n)%nat = false).
  { revert E. cbn [Pg.exec].
    destruct (w !! t) as [[r ser wd|r ser|r]|] eqn:Ht; try discriminate.
    destruct (wd <? String.length n)%nat eqn:Hwd; [discriminate|].
    destruct (r !! n); intros [= <- <-].
    - rewrite Ht. eauto.
    - rewrite lookup_insert_eq. eauto. }
  destruct Hw as (rows1 & ser1 & wd & H1 & Hwd).
  destruct (K t _ H1) as (b & Hb & Kb).
  unfold Pg.names_of in Hr2. rewrite Hb in Hr2.
  destruct b as [rb sb wb|rb sb|rb]; try discriminate.
  injection Hr2 as ->. cbn in Kb. destruct Kb as [<- _].
  cbn [Pg.exec]. now rewrite Hb, Hwd, Hid2.
Qed.

End NamesKept.

Lemma parse_lookup (q t : string) :
  In (q, t) Derived.lookups -> Pg.parse q = Some (Pg.UpsertName t).
Proof.
  unfold Derived.lookups. cbn [In].
  intros [H|[H|[H|[H|[]]]]]; injection H as <- <-; vm_compute; reflexivity.
Qed.

(** X10.  On the store, an upload of names with one of the four
    insert-or-ignore statements never removes a row and never changes the
    id of a name, whether it ends in an error or not; when it returns nil,
    every uploaded name is in the table afterwards. *)
Theorem InsertNamesToDB_loses_nothing (q t : string) (names : list string)
    (c : Conn Pg.State) :
  In (q, t) Views.name_uploads ->
  Derived.nothing_lost (Pg.committed (server c))
                       (Pg.committed (server (Repo.InsertNamesToDB q names c).2))
  /\ ((Repo.InsertNamesToDB q names c).1 = None ->
      forall n, In n names ->
        exists rows id,
          Pg.names_of (Pg.committed (server (Repo.InsertNamesToDB q names c).2)) t
          = Some rows
          /\ rows !! n = Some id).
Proof.
  intros Hin. apply parse_name_upload in Hin.
  destruct (Pg_InsertNamesToDB t q names c Hin) as (H1 & H2 & _).
  rewrite H1, H2. split; [apply insert_names_lost|apply insert_names_present].
Qed.

Lemma InsertNamesToDB_loses_nothing_witness :
  let first := (Repo.InsertNamesToDB Repo.InsertEquipmentQuery
                  ["Barbell"; "Dumbbell"] Sample.fresh).2 in
  let out := Repo.InsertNamesToDB Repo.InsertEquipmentQuery
               ["Kettlebell"; "Barbell"] first in
  Derived.nothing_lost (Pg.committed (server first)) (Pg.committed (server out.2))
  /\ exists rows id,
       Pg.names_of (Pg.committed (server out.2)) "equipment" = Some rows
       /\ rows !! "Kettlebell" = Some id.
Proof.
  intros first out.
  destruct (InsertNamesToDB_loses_nothing Repo.InsertEquipmentQuery "equipment"
              ["Kettlebell"; "Barbell"] first) as [H1 H2].
  - cbn. do 3 right. left. reflexivity.
  - split; [exact H1|]. apply H2; [vm_compute; reflexivity|now left].
Defined.

(** X11.  On the store, within one transaction a name resolves to one id:
    once a [GetOrInsert] function has returned an id for a name, the same
    call returns the same id and no error after any further statements of
    the transaction that the server answered without error. *)
Theorem get_or_insert_same_id (q t name : string) (c c2 : Conn Pg.State)
    (id : Z) :
  In (q, t) Derived.lookups ->
  (Repo.get_or_insert q name c).1 = (id, None) ->
  Derived.answered (Repo.get_or_insert q name c).2 c2 true ->
  (Repo.get_or_insert q name c2).1 = (id, None).
Proof.
  intros Hin. apply parse_lookup in Hin.
  unfold Repo.get_or_insert. rewrite !bind_eq, !call_eq. unfold ret.
  cbn [fst snd]. unfold serve, Pg.pg_server, Pg.step, Pg.run. rewrite Hin.
  destruct (Pg.pending (server c)) as [w|] eqn:Hp; [|discriminate].
  destruct (Pg.failed (server c)) eqn:Hf; [discriminate|].
  destruct (Pg.exec (Pg.UpsertName t) [AStr name] w) as [[v w1]|e] eqn:E;
    [|discriminate].
  cbn [fst snd]. intros [= ->] (l & [_ Hs] & Fl & Al).
  cbn [server] in Hs, Al.
  set (s1 := Pg.MkState (Pg.committed (server c)) (Some w1) false) in Hs, Al.
  assert (Hs1 : server c2 = (serve_all s1 l).2) by exact Hs.
  assert (Al1 : forallb is_ok (serve_all s1 l).1 = true) by exact Al.
  clear Hs Al. rename Hs1 into Hs.
  destruct (statements_on_copy l s1 w1 Fl eq_refl) as (_ & w2 & Hw2 & K).
  destruct (statements_in_tx l s1 w1 Fl eq_refl eq_refl) as [_ Hok].
  rewrite Al1 in Hok. destruct Hok as (w' & _ & _ & Hf2).
  rewrite Hs, Hw2, Hf2. now rewrite (upsert_fits t name w w1 id E w2 K).
Qed.

Lemma get_or_insert_same_id_witness :
  let c1 := (Repo.GetOrInsertCategory "Chest" (call DBBegin Sample.fresh).2).2 in
  (Repo.GetOrInsertCategory "Chest" (Repo.insert_row Sample.push_up c1).2).1
  = (1, None).
Proof.
  intros c1.
  apply (get_or_insert_same_id Repo.GetOrInsertCategoryQuery "exercise_category"
           "Chest" (call DBBegin Sample.fresh).2).
  - left. reflexivity.
  - vm_compute. reflexivity.
  - pose proof (answered_insert_row Sample.push_up c1) as H.
    replace (Derived.no_error (Repo.insert_row Sample.push_up c1).1)
      with true in H by (vm_compute; reflexivity).
    exact H.
Defined.

(** ** The menu, for every server *)

Section MenuMore.
Context {St : Type} `{!Server St}.
Import Menu Views Derived.

Lemma GetTableCount_calls (table : string) (c : Conn St) :
  calls (Repo.GetTableCount table c).2
  = calls c ++ [DBQueryRow (Repo.CountQuery table) []].
Proof.
  unfold Repo.GetTableCount. rewrite bind_eq, call_eq. reflexivity.
Qed.

Lemma refreshCounts_five (m : model) (c : Conn St) :
  exists c0 c1 c2 c3 c4,
    (refreshCounts m c).1 = set_counts [c0; c1; c2; c3; c4] m.
Proof.
  unfold refreshCounts. rewrite !bind_eq. unfold ret. cbn [fst].
  do 5 eexists. reflexivity.
Qed.

Lemma refreshCounts_calls (m : model) (c : Conn St) :
  calls (refreshCounts m c).2 = calls c ++ refresh_calls.
Proof.
  unfold refreshCounts. rewrite !bind_eq. unfold ret. cbn [snd].
  rewrite !GetTableCount_calls. unfold refresh_calls. cbn [map].
  now rewrite <- !app_assoc.
Qed.

Ltac close_inv Hs :=
  unfold menu_inv; cbn; change (len menuOptions) with 6; rewrite ?Hs;
  repeat split; auto; try lia; try (intros; first [lia|congruence]).

Lemma menu_inv_step (fs : FS) (m : model) (msg : Msg) (c : Conn St)
    (m' : model) (cmd : Cmd) :
  menu_inv m -> (Update fs m msg c).1 = Some (m', cmd) -> menu_inv m'.
Proof.
  intros (Hrange & Hsel & Hcounts). unfold Update.
  change (len menuOptions) with 6 in *.
  destruct (state m) eqn:Hs.
  - unfold updateMenu. destruct msg as [key|];
      [|unfold ret; intros [= <- <-]; close_inv Hs].
    destruct (key_in key ["up"; "k"]).
    { unfold ret. intros [= <- <-].
      destruct (0 <? menuChoice m) eqn:Hpos; [|close_inv Hs].
      apply Z.ltb_lt in Hpos. unfold decr. rewrite wrap_small by lia.
      close_inv Hs. }
    destruct (key_in key ["down"; "j"]).
    { unfold ret. intros [= <- <-].
      change (len menuOptions) with 6.
      destruct (menuChoice m <? 6 - 1) eqn:Hlt; [|close_inv Hs].
      apply Z.ltb_lt in Hlt. unfold incr. rewrite wrap_small by lia.
      close_inv Hs. }
    destruct (key_in key ["enter"]).
    { change (len menuOptions) with 6.
      destruct (menuChoice m =? 6 - 1) eqn:Hq.
      { unfold ret. intros [= <- <-]. close_inv Hs. }
      apply Z.eqb_neq in Hq.
      destruct (listDataFiles fs) as [files|err];
        unfold ret; intros [= <- <-]; close_inv Hs. }
    destruct (key_in key ["q"; "ctrl+c"]).
    { unfold ret. intros [= <- <-]. close_inv Hs. }
    destruct (key_in key ["r"]).
    { rewrite bind_eq. unfold ret. cbn [fst].
      destruct (refreshCounts_five m c) as (c0 & c1 & c2 & c3 & c4 & ->).
      intros [= <- <-]. close_inv Hs. }
    unfold ret. intros [= <- <-]. close_inv Hs.
  - specialize (Hsel eq_refl).
    unfold updateFileMenu. destruct msg as [key|];
      [|unfold ret; intros [= <- <-]; close_inv Hs].
    destruct (key_in key ["up"; "k"]).
    { unfold ret. intros [= <- <-].
      destruct (0 <? fileChoice m); close_inv Hs. }
    destruct (key_in key ["down"; "j"]).
    { unfold ret. intros [= <- <-].
      destruct (fileChoice m <? len (fileList m) - 1); close_inv Hs. }
    destruct (key_in key ["q"; "esc"]).
    { unfold ret. intros [= <- <-]. close_inv Hs. }
    destruct (key_in key ["enter"]).
    { destruct (index (fileList m) (fileChoice m)) as [file|];
        [|unfold ret; discriminate].
      destruct (String.eqb file "Back").
      - unfold ret. intros [= <- <-]. close_inv Hs.
      - match goal with
        | |- context [upload fs ?x c] =>
            destruct (upload_shows_result fs x c) as (s & b & ->)
        end.
        intros [= <- <-]. close_inv Hs. }
    unfold ret. intros [= <- <-]. close_inv Hs.
  - destruct msg as [key|];
      [|unfold ret; intros [= <- <-]; close_inv Hs].
    destruct (String.eqb key "enter" || String.eqb key "q" || String.eqb key "esc").
    + rewrite bind_eq. unfold ret. cbn [fst].
      match goal with
      | |- context [refreshCounts ?x c] =>
          destruct (refreshCounts_five x c) as (c0 & c1 & c2 & c3 & c4 & ->)
      end.
      intros [= <- <-]. close_inv Hs.
    + unfold ret. intros [= <- <-]. close_inv Hs.
Qed.

Lemma reachable_menu_inv (m : model) : reachable (St := St) m -> menu_inv m.
Proof.
  induction 1 as [c|fs m msg c m' cmd _ IH _ Hstep].
  - unfold initialModel.
    destruct (refreshCounts_five
                (MkModel stateMenu 0 [] 0 EmptyString EmptyString false []) c)
      as (c0 & c1 & c2 & c3 & c4 & ->).
    unfold menu_inv. cbn. repeat split; auto; try lia; discriminate.
  - eapply menu_inv_step; eassumption.
Qed.

End MenuMore.

Lemma at_first_reachable : Menu.reachable (St := Pg.State) Cases.at_first.
Proof.
  apply (Menu.reach_step Sample.files (Menu.initialModel Sample.fresh).1
           (Menu.KeyMsg "enter") Sample.fresh Cases.at_first Menu.CmdNil).
  - apply Menu.reach_init.
  - unfold Menu.listing_fits. vm_compute. reflexivity.
  - vm_compute. reflexivity.
Qed.

(** X12.  In every model the program reaches, the highlighted menu entry is
    one of the six options and the menu holds five counts; while the file
    selector is shown the highlighted menu entry is one of the five
    uploads, never Quit, so an upload always has its statement. *)
Theorem reachable_menu_position {St : Type} `{!Server St} (m : Menu.model) :
  Menu.reachable (St := St) m ->
  0 <= Menu.menuChoice m <= 5
  /\ (Menu.state m = Menu.stateFileSelector -> Menu.menuChoice m <= 4)
  /\ length (Menu.counts m) = 5%nat.
Proof.
  intros Hreach. destruct (reachable_menu_inv m Hreach) as (H1 & H2 & H3).
  change (len Menu.menuOptions) with 6 in *.
  split; [lia|]. split; [|exact H3]. intros Hs. specialize (H2 Hs). lia.
Qed.

Lemma reachable_menu_position_witness :
  0 <= Menu.menuChoice Cases.at_first <= 5
  /\ (Menu.state Cases.at_first = Menu.stateFileSelector ->
      Menu.menuChoice Cases.at_first <= 4)
  /\ length (Menu.counts Cases.at_first) = 5%nat.
Proof.
  exact (reachable_menu_position (St := Pg.State) Cases.at_first at_first_reachable).
Defined.

(** X13.  In a reachable model, a key that moves the highlight moves it by
    exactly one position when it is not at the end of the list towards
    which the key moves; nothing else changes and no database call is
    made. *)
Theorem navigation_moves_by_one {St : Type} `{!Server St} (fs : FS)
    (m : Menu.model) (key : string) (c : Conn St) :
  Menu.reachable (St := St) m ->
  (Menu.state m = Menu.stateMenu -> Menu.key_in key ["up"; "k"] = true ->
   0 < Menu.menuChoice m ->
   Menu.Update fs m (Menu.KeyMsg key) c
   = (Some (Menu.set_menuChoice (Menu.menuChoice m - 1) m, Menu.CmdNil), c))
  /\ (Menu.state m = Menu.stateMenu -> Menu.key_in key ["down"; "j"] = true ->
      Menu.menuChoice m < 5 ->
      Menu.Update fs m (Menu.KeyMsg key) c
      = (Some (Menu.set_menuChoice (Menu.menuChoice m + 1) m, Menu.CmdNil), c))
  /\ (Menu.state m = Menu.stateFileSelector ->
      Menu.key_in key ["up"; "k"] = true -> 0 < Menu.fileChoice m ->
      Menu.Update fs m (Menu.KeyMsg key) c
      = (Some (Menu.set_fileChoice (Menu.fileChoice m - 1) m, Menu.CmdNil), c))
  /\ (Menu.state m = Menu.stateFileSelector ->
      Menu.key_in key ["down"; "j"] = true ->
      Menu.fileChoice m < len (Menu.fileList m) - 1 ->
      Menu.Update fs m (Menu.KeyMsg key) c
      = (Some (Menu.set_fileChoice (Menu.fileChoice m + 1) m, Menu.CmdNil), c)).
Proof.
  intros Hreach.
  destruct (reachable_menu_inv m Hreach) as (Hrange & _ & _).
  pose proof (reachable_selector_inv m Hreach) as Hsel.
  change (len Menu.menuOptions) with 6 in Hrange.
  repeat split; intros Hs Hk Hpos; apply key_in_two in Hk as [-> | ->];
    unfold Menu.Update; rewrite Hs;
    unfold Menu.updateMenu, Menu.updateFileMenu; decide_keys;
    try change (len Menu.menuOptions - 1) with 5;
    try (destruct (Hsel Hs) as (_ & Hfc & Hlen));
    rewrite (proj2 (Z.ltb_lt _ _) Hpos);
    unfold decr, incr; rewrite wrap_small by lia; reflexivity.
Qed.

Lemma navigation_moves_by_one_witness :
  Menu.Update Sample.files Cases.at_first (Menu.KeyMsg "j") Sample.fresh
  = (Some (Menu.set_fileChoice 1 Cases.at_first, Menu.CmdNil), Sample.fresh).
Proof.
  apply (proj2 (proj2 (proj2
           (navigation_moves_by_one Sample.files Cases.at_first "j" Sample.fresh
              at_first_reachable)))); reflexivity.
Defined.

(** X14.  [Update] asks the program to quit from the main menu only, with
    the model and the database as they were: the keys q and ctrl+c quit
    there, and so does enter on the last option.  The file selector and
    the result screen never quit. *)
Theorem quit_only_from_menu {St : Type} `{!Server St} (fs : FS)
    (m : Menu.model) (c : Conn St) :
  (forall msg m', (Menu.Update fs m msg c).1 = Some (m', Menu.CmdQuit) ->
     Menu.state m = Menu.stateMenu /\ m' = m /\ (Menu.Update fs m msg c).2 = c)
  /\ (Menu.state m = Menu.stateMenu ->
      forall key, Menu.key_in key ["q"; "ctrl+c"] = true ->
        Menu.Update fs m (Menu.KeyMsg key) c = (Some (m, Menu.CmdQuit), c))
  /\ (Menu.state m = Menu.stateMenu -> Menu.menuChoice m = 5 ->
      Menu.Update fs m (Menu.KeyMsg "enter") c = (Some (m, Menu.CmdQuit), c)).
Proof.
  split; [|split].
  - intros msg m'. unfold Menu.Update. destruct (Menu.state m) eqn:Hs.
    + unfold Menu.updateMenu. destruct msg as [key|]; [|discriminate].
      repeat match goal with
             | |- context [if ?b then _ else _] => destruct b
             | |- context [match Menu.listDataFiles fs with _ => _ end] =>
                 destruct (Menu.listDataFiles fs)
             end; try discriminate;
        try (rewrite bind_eq; discriminate);
        unfold ret; intros [= <-]; auto.
    + unfold Menu.updateFileMenu. destruct msg as [key|]; [|discriminate].
      repeat match goal with
             | |- context [if ?b then _ else _] => destruct b
             | |- context [match index ?l ?i with _ => _ end] =>
                 destruct (index l i)
             end; try discriminate.
      match goal with
      | |- context [Menu.upload fs ?x c] =>
          destruct (upload_shows_result fs x c) as (txt & flag & ->)
      end.
      discriminate.
    + destruct msg as [key|]; [|discriminate].
      destruct (_ || _); [rewrite bind_eq|]; discriminate.
  - intros Hs key Hk. apply key_in_two in Hk as [-> | ->];
      unfold Menu.Update; rewrite Hs; reflexivity.
  - intros Hs Hq. unfold Menu.Update. rewrite Hs.
    unfold Menu.updateMenu. decide_keys. now rewrite Hq.
Qed.

Lemma quit_only_from_menu_witness :
  Menu.Update Sample.files Sample.at_start (Menu.KeyMsg "ctrl+c") Sample.fresh
  = (Some (Sample.at_start, Menu.CmdQuit), Sample.fresh)
  /\ (Menu.Update Sample.files Cases.at_first (Menu.KeyMsg "q") Sample.fresh).1
     = Some (Menu.set_state Menu.stateMenu Cases.at_first, Menu.CmdNil).
Proof.
  split.
  - apply (proj1 (proj2 (quit_only_from_menu Sample.files Sample.at_start
                           Sample.fresh))); reflexivity.
  - reflexivity.
Defined.

Section MenuCalls.
Context {St : Type} `{!Server St}.
Import Menu Derived.

(** Outside the file selector a step makes no call, or the five count
    queries and nothing else. *)
Lemma browsing_calls (fs : FS) (m : model) (msg : Msg) (c : Conn St) :
  state m <> stateFileSelector ->
  (Update fs m msg c).2 = c
  \/ calls (Update fs m msg c).2 = calls c ++ refresh_calls.
Proof.
  intros Hs. unfold Update. destruct (state m); [|congruence|].
  - unfold updateMenu. destruct msg as [key|]; [|now left].
    repeat match goal with
           | |- context [if ?b then _ else _] => destruct b
           | |- context [match listDataFiles fs with _ => _ end] =>
               destruct (listDataFiles fs)
           end; try (now left).
    right. rewrite bind_eq. unfold ret. cbn [snd]. apply refreshCounts_calls.
  - destruct msg as [key|]; [|now left].
    destruct (_ || _); [|now left].
    right. rewrite bind_eq. unfold ret. cbn [snd]. apply refreshCounts_calls.
Qed.

Lemma selector_other_keys (fs : FS) (m : model) (msg : Msg) (c : Conn St) :
  state m = stateFileSelector -> msg <> KeyMsg "enter" ->
  (Update fs m msg c).2 = c.
Proof.
  intros Hs Hmsg. unfold Update. rewrite Hs. unfold updateFileMenu.
  destruct msg as [key|]; [|reflexivity].
  destruct (key_in key ["up"; "k"]); [reflexivity|].
  destruct (key_in key ["down"; "j"]); [reflexivity|].
  destruct (key_in key ["q"; "esc"]); [reflexivity|].
  destruct (key_in key ["enter"]) eqn:Hk; [|reflexivity].
  unfold key_in in Hk. cbn [existsb] in Hk. rewrite orb_false_r in Hk.
  apply String.eqb_eq in Hk. congruence.
Qed.

End MenuCalls.

Lemma Pg_refreshCounts_server (m : Menu.model) (c : Conn Pg.State) :
  server (Menu.refreshCounts m c).2 = server c.
Proof.
  unfold Menu.refreshCounts. rewrite !bind_eq. unfold ret. cbn [snd].
  rewrite !Pg_GetTableCount. reflexivity.
Qed.

(** X15.  Outside the file selector a step of [Update] makes no database
    call or exactly the five count queries of the menu, and in the file
    selector every message other than the key enter makes none.  On the
    store none of these steps changes a table: only enter in the file
    selector can write. *)
Theorem browsing_never_writes (fs : FS) (m : Menu.model) (msg : Menu.Msg) :
  (forall (St : Type) (srv : Server St) (c : Conn St),
     (Menu.state m <> Menu.stateFileSelector ->
      (Menu.Update fs m msg c).2 = c
      \/ calls (Menu.Update fs m msg c).2 = calls c ++ Derived.refresh_calls)
     /\ (Menu.state m = Menu.stateFileSelector -> msg <> Menu.KeyMsg "enter" ->
         (Menu.Update fs m msg c).2 = c))
  /\ (forall c : Conn Pg.State,
        Menu.state m <> Menu.stateFileSelector \/ msg <> Menu.KeyMsg "enter" ->
        server (Menu.Update fs m msg c).2 = server c).
Proof.
  split.
  - intros St srv c. split; [apply browsing_calls|apply selector_other_keys].
  - intros c Hcase.
    assert (Hsel : Menu.state m = Menu.stateFileSelector ->
                   server (Menu.Update fs m msg c).2 = server c).
    { intros Hs. destruct Hcase as [Hn|Hmsg]; [contradiction|].
      now rewrite selector_other_keys. }
    unfold Menu.Update in *. destruct (Menu.state m); [|now apply Hsel|].
    + unfold Menu.updateMenu. destruct msg as [key|]; [|reflexivity].
      repeat match goal with
             | |- context [if ?b then _ else _] => destruct b
             | |- context [match Menu.listDataFiles fs with _ => _ end] =>
                 destruct (Menu.listDataFiles fs)
             end; try reflexivity.
      rewrite bind_eq. unfold ret. cbn [snd]. apply Pg_refreshCounts_server.
    + destruct msg as [key|]; [|reflexivity].
      destruct (_ || _); [|reflexivity].
      rewrite bind_eq. unfold ret. cbn [snd]. apply Pg_refreshCounts_server.
Qed.

Lemma browsing_never_writes_witness :
  calls (Menu.Update Sample.files Sample.at_start (Menu.KeyMsg "r") Sample.fresh).2
  = Derived.refresh_calls
  /\ server (Menu.Update Sample.files Sample.at_start (Menu.KeyMsg "r")
               Sample.fresh).2
     = server Sample.fresh.
Proof.
  destruct (browsing_never_writes Sample.files Sample.at_start (Menu.KeyMsg "r"))
    as [H1 H2].
  split.
  - destruct (proj1 (H1 Pg.State Pg.pg_server Sample.fresh)) as [H|H];
      [discriminate|vm_compute in H; discriminate H|exact H].
  - apply H2. left. discriminate.
Defined.

(** ** The file list and the chosen file *)

Lemma listDataFiles_loop_filter (entries : list DirEntry) (files : list string) :
  Menu.listDataFiles_loop entries files
  = files ++ map entry_name (List.filter Derived.listed entries).
Proof.
  revert files. induction entries as [|e entries IH]; intros files.
  - cbn. now rewrite app_nil_r.
  - cbn [Menu.listDataFiles_loop List.filter]. unfold Derived.listed at 1.
    destruct (entry_is_dir e); cbn [negb andb]; [apply IH|].
    destruct (Menu.supportedExts _); rewrite IH; [|reflexivity].
    cbn [map]. now rewrite <- app_assoc.
Qed.

(** X16.  [listDataFiles] returns, in increasing order, the names of the
    directory entries that are not directories and whose extension, in
    lower case, is .csv, .json, .yaml or .yml: each such entry once and no
    other.  The failure to read the directory is returned as it is. *)
Theorem listDataFiles_sorted_supported (fs : FS) :
  (forall entries, ReadDir fs = Ok entries ->
     exists files,
       Menu.listDataFiles fs = Ok files
       /\ Sorted String.le files
       /\ files ≡ₚ map entry_name (List.filter Derived.listed entries))
  /\ (forall e, ReadDir fs = Err e -> Menu.listDataFiles fs = Err e).
Proof.
  unfold Menu.listDataFiles. split.
  - intros entries ->. eexists. split; [reflexivity|]. split.
    + apply Sorted_merge_sort. apply _.
    + rewrite merge_sort_Permutation, listDataFiles_loop_filter. reflexivity.
  - now intros e ->.
Qed.

Lemma listDataFiles_sorted_supported_witness :
  Menu.listDataFiles Cases.listing = Ok ["equipment.csv"; "types.YAML"].
Proof.
  destruct (proj1 (listDataFiles_sorted_supported Cases.listing) _ eq_refl)
    as (files & H & _).
  rewrite H. vm_compute in H. injection H as <-. reflexivity.
Defined.

Lemma Update_never_panics_witness :
  (Menu.Update Sample.files Cases.at_first (Menu.KeyMsg "enter") Sample.fresh).1
  <> None.
Proof.
  exact (Update_never_panics Sample.files Cases.at_first (Menu.KeyMsg "enter")
           Sample.fresh at_first_reachable).
Defined.

Section ChosenFile.
Context {St : Type} `{!Server St}.
Import Menu Derived GoStrings.

Lemma enter_on_file (fs : FS) (m : model) (file : string) (c : Conn St) :
  state m = stateFileSelector ->
  index (fileList m) (fileChoice m) = Some file ->
  file <> "Back" ->
  Update fs m (KeyMsg "enter") c
  = upload fs (set_selectedFile (FilePath.Join [dataDir; file]) m) c.
Proof.
  intros Hs Hi Hb. unfold Update. rewrite Hs. unfold updateFileMenu.
  decide_keys. rewrite Hi. apply String.eqb_neq in Hb. now rewrite Hb.
Qed.

Lemma unsupported_ext (ext : string) :
  supportedExts ext = false ->
  key_in ext [".csv"] = false /\ key_in ext [".json"] = false
  /\ key_in ext [".yaml"; ".yml"] = false.
Proof.
  unfold supportedExts, key_in. cbn [existsb]. rewrite !orb_false_r.
  intros H. repeat (apply orb_false_iff in H as [? H]).
  repeat split; try assumption. now apply orb_false_iff.
Qed.

End ChosenFile.

(** X18.  In the file selector, enter on Back returns to the menu with the
    model otherwise unchanged and without a database call.  Enter on any
    other entry always ends on the result screen, with the path of the file
    recorded and the menu position, the file list and the counts kept.
    When the extension of the file is not supported, or the file is a CSV
    file that cannot be read, the result is the error message and no
    database call is made. *)
Theorem enter_in_file_selector {St : Type} `{!Server St} (fs : FS)
    (m : Menu.model) (file : string) (c : Conn St) :
  Menu.state m = Menu.stateFileSelector ->
  index (Menu.fileList m) (Menu.fileChoice m) = Some file ->
  let path := FilePath.Join [Menu.dataDir; file] in
  let ext := GoStrings.ToLower (GoStrings.Ext path) in
  (file = "Back" ->
   Menu.Update fs m (Menu.KeyMsg "enter") c
   = (Some (Menu.set_state Menu.stateMenu m, Menu.CmdNil), c))
  /\ (file <> "Back" ->
      exists msg is_err,
        (Menu.Update fs m (Menu.KeyMsg "enter") c).1
        = Some (Menu.show msg is_err (Menu.set_selectedFile path m), Menu.CmdNil))
  /\ (file <> "Back" -> Menu.supportedExts ext = false ->
      Menu.Update fs m (Menu.KeyMsg "enter") c
      = (Some (Menu.show ("Error parsing file: unsupported file type: " +:+ ext
                            +:+ Menu.press_enter)
                 true (Menu.set_selectedFile path m), Menu.CmdNil), c))
  /\ (file <> "Back" -> ext = ".csv" ->
      forall e, ReadCSV fs path = Err e ->
        Menu.Update fs m (Menu.KeyMsg "enter") c
        = (Some (Menu.show ("Error parsing file: " +:+ e +:+ Menu.press_enter)
                   true (Menu.set_selectedFile path m), Menu.CmdNil), c)).
Proof.
  intros Hs Hi path ext. split; [|split; [|split]].
  - intros ->. unfold Menu.Update. rewrite Hs. unfold Menu.updateFileMenu.
    decide_keys. now rewrite Hi.
  - intros Hb. rewrite (enter_on_file fs m file c Hs Hi Hb).
    apply upload_shows_result.
  - intros Hb Hext. rewrite (enter_on_file fs m file c Hs Hi Hb).
    unfold Menu.upload. cbn [Menu.selectedFile Menu.set_selectedFile].
    fold path. fold ext.
    destruct (unsupported_ext ext Hext) as (H1 & H2 & H3).
    now rewrite H1, H2, H3.
  - intros Hb Hext e He. rewrite (enter_on_file fs m file c Hs Hi Hb).
    unfold Menu.upload. cbn [Menu.selectedFile Menu.set_selectedFile].
    fold path. fold ext. rewrite Hext. decide_keys.
    unfold Parser.ParseCSV. now rewrite He.
Qed.

Lemma enter_in_file_selector_witness :
  Menu.Update Sample.files Cases.at_notes (Menu.KeyMsg "enter") Sample.fresh
  = (Some (Menu.show ("Error parsing file: unsupported file type: .txt"
                        +:+ Menu.press_enter) true
             (Menu.set_selectedFile "src/internal/data/notes.txt" Cases.at_notes),
           Menu.CmdNil), Sample.fresh)
  /\ Menu.Update Cases.listing Cases.at_equipment (Menu.KeyMsg "enter") Sample.fresh
     = (Some (Menu.show ("Error parsing file: " +:+ Sample.no_file
                           +:+ Menu.press_enter) true
                (Menu.set_selectedFile "src/internal/data/equipment.csv"
                   Cases.at_equipment),
              Menu.CmdNil), Sample.fresh).
Proof.
  split.
  - apply (proj1 (proj2 (proj2
             (enter_in_file_selector Sample.files Cases.at_notes "notes.txt"
                Sample.fresh eq_refl eq_refl)))); [discriminate|reflexivity].
  - apply (proj2 (proj2 (proj2
             (enter_in_file_selector Cases.listing Cases.at_equipment
                "equipment.csv" Sample.fresh eq_refl eq_refl))));
      [discriminate|reflexivity|reflexivity].
Defined.

Section CleanFacts.
Import FilePath.

Lemma clean_loop_skip (rooted : bool) (e : string) (rest stack : list string) :
  e = EmptyString \/ e = "." ->
  clean_loop rooted (e :: rest) stack = clean_loop rooted rest stack.
Proof. intros [-> | ->]; reflexivity. Qed.

Lemma clean_loop_push (rooted : bool) (e : string) (rest stack : list string) :
  e <> EmptyString -> e <> "." -> e <> ".." ->
  clean_loop rooted (e :: rest) stack = clean_loop rooted rest (stack ++ [e]).
Proof.
  intros H1 H2 H3. cbn [clean_loop].
  apply String.eqb_neq in H1, H2, H3. now rewrite H1, H2, H3.
Qed.

End CleanFacts.

(** X19.  For a file name that is a single path element, as a directory
    listing gives it, the path that the file selector records and opens is
    the data directory followed by the name, without the leading dot
    element, and its extension is the extension of the name. *)
Theorem data_path_of_plain_name (file : string) :
  Derived.plain_name file ->
  FilePath.Join [Menu.dataDir; file] = "src/internal/data/" +:+ file
  /\ GoStrings.Ext (FilePath.Join [Menu.dataDir; file]) = GoStrings.Ext file.
Proof.
  intros (Hne & Hdot & Hdots & Hfree).
  assert (E : FilePath.Join [Menu.dataDir; file] = "src/internal/data/" +:+ file).
  { unfold FilePath.Join.
    rewrite filter_cons_True by discriminate.
    rewrite filter_cons_True by exact Hne. rewrite filter_nil.
    unfold FilePath.Clean.
    change (FilePath.join_with "/" [Menu.dataDir; file])
      with (FilePath.join_with "/" ["."; "src"; "internal"; "data"; EmptyString; file]).
    rewrite (Split_join "/"%char)
      by (discriminate
          || (repeat apply List.Forall_cons; try apply List.Forall_nil;
              (reflexivity || exact Hfree))).
    change (String.prefix "/"
              (FilePath.join_with "/"
                 ["."; "src"; "internal"; "data"; EmptyString; file]))
      with false.
    rewrite clean_loop_skip by now right.
    rewrite !clean_loop_push by discriminate.
    rewrite clean_loop_skip by now left.
    rewrite clean_loop_push by assumption.
    reflexivity. }
  split; [exact E|]. rewrite E. reflexivity.
Qed.

Lemma data_path_of_plain_name_witness :
  FilePath.Join [Menu.dataDir; "equipment.v2.CSV"]
  = "src/internal/data/equipment.v2.CSV"
  /\ GoStrings.Ext (FilePath.Join [Menu.dataDir; "equipment.v2.CSV"]) = ".CSV".
Proof.
  destruct (data_path_of_plain_name "equipment.v2.CSV") as [H1 H2].
  - repeat split; discriminate || reflexivity.
  - split; [exact H1|]. rewrite H2. reflexivity.
Defined.

(** ** What the menu shows and what an upload reports *)

Lemma Pg_refreshCounts (m : Menu.model) (c : Conn Pg.State) :
  (Menu.refreshCounts m c).1
  = Menu.set_counts (Derived.shown_counts (Pg.committed (server c))) m.
Proof.
  unfold Menu.refreshCounts. rewrite !bind_eq. unfold ret. cbn [fst].
  rewrite !Pg_GetTableCount. reflexivity.
Qed.

(** X20.  On the store, the counts of the menu are the numbers of rows of
    the five tables at the moment they are fetched, zero standing for a
    table that does not exist: at start-up, after the key r in the menu,
    and when the result screen is left with enter, q or esc, which also
    clears the message and the error flag. *)
Theorem counts_are_row_counts (fs : FS) (m : Menu.model) (c : Conn Pg.State) :
  Menu.counts (Menu.initialModel c).1
  = Derived.shown_counts (Pg.committed (server c))
  /\ (Menu.state m = Menu.stateMenu ->
      (Menu.Update fs m (Menu.KeyMsg "r") c).1
      = Some (Menu.set_counts (Derived.shown_counts (Pg.committed (server c))) m,
              Menu.CmdNil))
  /\ (Menu.state m = Menu.stateResult ->
      forall key, Menu.key_in key ["enter"; "q"; "esc"] = true ->
        (Menu.Update fs m (Menu.KeyMsg key) c).1
        = Some (Menu.MkModel Menu.stateMenu (Menu.menuChoice m) (Menu.fileList m)
                  (Menu.fileChoice m) (Menu.selectedFile m) EmptyString false
                  (Derived.shown_counts (Pg.committed (server c))),
                Menu.CmdNil)).
Proof.
  split; [|split].
  - unfold Menu.initialModel. now rewrite Pg_refreshCounts.
  - intros Hs. unfold Menu.Update. rewrite Hs. unfold Menu.updateMenu.
    decide_keys. rewrite bind_eq. unfold ret. cbn [fst].
    now rewrite Pg_refreshCounts.
  - intros Hs key Hk. unfold Menu.Update. rewrite Hs.
    assert (E : String.eqb key "enter" || String.eqb key "q" || String.eqb key "esc"
                = true).
    { unfold Menu.key_in in Hk. cbn [existsb] in Hk.
      now rewrite orb_false_r, orb_assoc in Hk. }
    rewrite E, bind_eq. unfold ret. cbn [fst].
    now rewrite Pg_refreshCounts.
Qed.

Lemma counts_are_row_counts_witness :
  let c := (Repo.InsertNamesToDB Repo.InsertEquipmentQuery
              ["Barbell"; "Dumbbell"; "Barbell"] Sample.fresh).2 in
  (Menu.Update Sample.files Sample.at_start (Menu.KeyMsg "r") c).1
  = Some (Menu.set_counts [0; 0; 0; 2; 0] Sample.at_start, Menu.CmdNil).
Proof.
  intros c.
  rewrite (proj1 (proj2 (counts_are_row_counts Sample.files Sample.at_start c))
             eq_refl).
  reflexivity.
Defined.

Section Dispatch.
Context {St : Type} `{!Server St}.
Import Menu Derived.

Lemma names_parsed_upload (fs : FS) (m : model) (names : list string) :
  names_parsed fs (GoStrings.ToLower (GoStrings.Ext (selectedFile m)))
               (selectedFile m) names ->
  (if key_in (GoStrings.ToLower (GoStrings.Ext (selectedFile m))) [".csv"]
   then Parser.ParseCSV fs (selectedFile m)
   else if key_in (GoStrings.ToLower (GoStrings.Ext (selectedFile m))) [".json"]
        then Parser.ParseJSON fs (selectedFile m)
        else if key_in (GoStrings.ToLower (GoStrings.Ext (selectedFile m)))
                       [".yaml"; ".yml"]
             then Parser.ParseYAML fs (selectedFile m)
             else Err ("unsupported file type: "
                         +:+ GoStrings.ToLower (GoStrings.Ext (selectedFile m))))
  = Ok names.
Proof.
  intros [[-> H]|[[-> H]|[[-> | ->] H]]]; decide_keys; exact H.
Qed.

End Dispatch.

(** X21.  Enter on a file whose names were parsed, with the highlight of
    the menu on one of the four name uploads, runs [InsertNamesToDB] with
    the statement of that upload on exactly these names and shows its
    outcome: the database error, or a success message whose number is the
    number of names parsed, whether or not they were new to the table. *)
Theorem name_upload_dispatch {St : Type} `{!Server St} (fs : FS)
    (m : Menu.model) (file : string) (names : list string) (q : string)
    (c : Conn St) :
  Menu.state m = Menu.stateFileSelector ->
  index (Menu.fileList m) (Menu.fileChoice m) = Some file ->
  file <> "Back" ->
  let path := FilePath.Join [Menu.dataDir; file] in
  Derived.names_parsed fs (GoStrings.ToLower (GoStrings.Ext path)) path names ->
  In (Menu.menuChoice m, q) Derived.query_of_choice ->
  let out := Repo.InsertNamesToDB q names c in
  Menu.Update fs m (Menu.KeyMsg "enter") c
  = (Some (match out.1 with
           | Some err =>
               Menu.show ("Database error: " +:+ err +:+ Menu.press_enter) true
                 (Menu.set_selectedFile path m)
           | None =>
               Menu.show ("Successfully uploaded " +:+ pretty (len names)
                            +:+ " entries!" +:+ Menu.press_enter) false
                 (Menu.set_selectedFile path m)
           end, Menu.CmdNil), out.2).
Proof.
  intros Hs Hi Hb path Hparsed Hq out.
  rewrite (enter_on_file fs m file c Hs Hi Hb). fold path.
  unfold Menu.upload.
  rewrite (names_parsed_upload fs (Menu.set_selectedFile path m) names Hparsed).
  cbn [Menu.menuChoice Menu.set_selectedFile].
  unfold Derived.query_of_choice in Hq. cbn [In] in Hq.
  destruct Hq as [Hq|[Hq|[Hq|[Hq|[]]]]]; injection Hq as Hc <-;
    rewrite <- Hc; cbn [Z.eqb Pos.eqb]; rewrite bind_eq; fold out;
    destruct out.1; reflexivity.
Qed.

Lemma name_upload_dispatch_witness :
  let m := Menu.MkModel Menu.stateFileSelector 3 ["equipment.csv"; "Back"] 0
             EmptyString EmptyString false [0; 0; 0; 0; 0] in
  (fun r : option (Menu.model * Menu.Cmd) * Conn Pg.State =>
     (Menu.resultMsg <$> (fst <$> r.1),
      Repo.GetTableCount "equipment" r.2))
    (Menu.Update Sample.files m (Menu.KeyMsg "enter") Sample.fresh)
  = (Some ("Successfully uploaded 3 entries!" +:+ Menu.press_enter),
     Repo.GetTableCount "equipment"
       (Repo.InsertNamesToDB Repo.InsertEquipmentQuery
          ["Barbell"; "Dumbbell"; "Barbell"] Sample.fresh).2).
Proof.
  intros m.
  rewrite (name_upload_dispatch Sample.files m "equipment.csv"
             ["Barbell"; "Dumbbell"; "Barbell"] Repo.InsertEquipmentQuery
             Sample.fresh eq_refl eq_refl ltac:(discriminate)
             ltac:(left; split; reflexivity)
             ltac:(do 3 right; left; reflexivity)).
  reflexivity.
Defined.

(** X22.  Enter on a file whose names were parsed, with the highlight of
    the menu on the exercise upload, parses the same file again with
    [ParseExercisesCSV] and runs [InsertExercises] on its rows: a failure
    of this second parse is shown without any database call, a database
    error is shown as such, and the success message gives the number of
    rows parsed. *)
Theorem exercise_upload_dispatch {St : Type} `{!Server St} (fs : FS)
    (m : Menu.model) (file : string) (names : list string) (c : Conn St) :
  Menu.state m = Menu.stateFileSelector ->
  index (Menu.fileList m) (Menu.fileChoice m) = Some file ->
  file <> "Back" ->
  let path := FilePath.Join [Menu.dataDir; file] in
  Derived.names_parsed fs (GoStrings.ToLower (GoStrings.Ext path)) path names ->
  Menu.menuChoice m = 4 ->
  Menu.Update fs m (Menu.KeyMsg "enter") c
  = match Parser.ParseExercisesCSV fs path with
    | Err err =>
        (Some (Menu.show ("Error parsing exercises CSV: " +:+ err
                            +:+ Menu.press_enter) true
                 (Menu.set_selectedFile path m), Menu.CmdNil), c)
    | Ok rows =>
        (Some (match (Repo.InsertExercises rows c).1 with
               | Some err =>
                   Menu.show ("Database error: " +:+ err +:+ Menu.press_enter)
                     true (Menu.set_selectedFile path m)
               | None =>
                   Menu.show ("Successfully uploaded " +:+ pretty (len rows)
                                +:+ " exercises!" +:+ Menu.press_enter) false
                     (Menu.set_selectedFile path m)
               end, Menu.CmdNil), (Repo.InsertExercises rows c).2)
    end.
Proof.
  intros Hs Hi Hb path Hparsed Hq.
  rewrite (enter_on_file fs m file c Hs Hi Hb). fold path.
  unfold Menu.upload.
  rewrite (names_parsed_upload fs (Menu.set_selectedFile path m) names Hparsed).
  cbn [Menu.menuChoice Menu.set_selectedFile Menu.selectedFile]. rewrite Hq.
  cbn [Z.eqb Pos.eqb].
  destruct (Parser.ParseExercisesCSV fs path) as [rows|err]; [|reflexivity].
  rewrite bind_eq. destruct (Repo.InsertExercises rows c).1; reflexivity.
Qed.

Lemma exercise_upload_dispatch_witness :
  let m := Menu.MkModel Menu.stateFileSelector 4 ["exercises.csv"; "Back"] 0
             EmptyString EmptyString false [0; 0; 0; 0; 0] in
  Menu.resultMsg <$> (fst <$> (Menu.Update Sample.files m (Menu.KeyMsg "enter")
                                 Sample.fresh).1)
  = Some ("Successfully uploaded 2 exercises!" +:+ Menu.press_enter).
Proof.
  intros m.
  rewrite (exercise_upload_dispatch Sample.files m "exercises.csv"
             ["Push-up"; "Squat"] Sample.fresh eq_refl eq_refl
             ltac:(discriminate) ltac:(left; split; reflexivity) eq_refl).
  reflexivity.
Defined.
